(** * StoryTree: the three-field workflow model and the tree store

    A shallow embedding of the workflow and tree logic of the StoryTree
    repository:

    - [xstory.py]: the effective status computed while loading nodes, the
      status-change dialog, the three-field row update, the lineage-aware
      sort key and the filtered tree view; the transition buttons and the
      navigation of the detail view, the filter boxes and Respond mode,
      focus, breadcrumbs, the Kanban board and the heatmap;
    - [code-verification/update_status.py]: the command-line stage update;
    - [story-arborist/scripts/list_orphans.py] and [tree_health.py]: the
      integrity tools and their exit codes.

    SQL values are [option string] ([None] is NULL), tables keyed by their
    primary key are [gmap string _], Python dictionaries are [gmap], Python
    sets that are only tested for membership are lists.  Text is kept as
    its UTF-8 bytes, whose order is the order of the code points.  The
    name of the key column of [story_nodes], [id] or [story_path], is a
    parameter of the code that addresses a row by [id].  The wall clock
    ([datetime.now()]) is an explicit argument. *)

From Stdlib Require Import ZArith Ascii String.
From stdpp Require Import gmap strings list fin_maps sorting pretty.

(** ** Python and SQL primitives *)

Module Py.

(** Truthiness of a text value that may be [None]: [None] and the empty
    string are falsy. *)
Definition truthy_str (s : string) : bool := negb (String.eqb s "").

Definition truthy (o : option string) : bool :=
  match o with
  | Some s => truthy_str s
  | None => false
  end.

(** [a or b] where [b] is a string literal. *)
Definition or_default (a : option string) (b : string) : string :=
  match a with
  | Some s => if truthy_str s then s else b
  | None => b
  end.

(** [a or b] where both may be [None]: the first truthy operand, else the
    last operand. *)
Definition or_else (a b : option string) : option string :=
  if truthy a then a else b.

(** SQL [COALESCE]: the first argument that is not NULL. *)
Fixpoint coalesce (args : list (option string)) : option string :=
  match args with
  | [] => None
  | Some v :: _ => Some v
  | None :: rest => coalesce rest
  end.

(** [x in s] for a set or list of strings. *)
Definition member (x : string) (s : list string) : bool :=
  bool_decide (x ∈ s).

(** The characters that [str.isspace()] accepts among the first 128 code
    points: tab, line feed, vertical tab, form feed, carriage return,
    the four separators 0x1c-0x1f and the space. *)
Definition is_space (c : ascii) : bool :=
  let n := nat_of_ascii c in
  ((9 <=? n) && (n <=? 13)) || ((28 <=? n) && (n <=? 32)).

Definition byte (n : nat) (c : ascii) : bool := nat_of_ascii c =? n.

(** The white space beyond them, in UTF-8: U+0085 and U+00A0 take two
    bytes; U+1680, U+2000 to U+200A, U+2028, U+2029, U+202F, U+205F and
    U+3000 take three. *)
Definition is_space2 (c d : ascii) : bool :=
  byte 194 c && (byte 133 d || byte 160 d).

Definition is_space3 (c d e : ascii) : bool :=
  let n := nat_of_ascii e in
  (byte 225 c && byte 154 d && byte 128 e)
  || (byte 226 c && byte 128 d
      && (((128 <=? n) && (n <=? 138))
          || byte 168 e || byte 169 e || byte 175 e))
  || (byte 226 c && byte 129 d && byte 159 e)
  || (byte 227 c && byte 128 d && byte 128 e).

(** [s.lstrip()]: the text from its first character that is not white
    space. *)
Fixpoint lstrip (s : string) : string :=
  match s with
  | EmptyString => EmptyString
  | String c r =>
      if is_space c then lstrip r
      else match r with
           | EmptyString => s
           | String d r1 =>
               if is_space2 c d then lstrip r1
               else match r1 with
                    | EmptyString => s
                    | String e r2 => if is_space3 c d e then lstrip r2 else s
                    end
           end
  end.

(** [s.rstrip()]: the text up to its last character that is not white
    space; nothing is left of a text that is white space only. *)
Fixpoint rstrip (s : string) : string :=
  match s with
  | EmptyString => EmptyString
  | String c r =>
      match lstrip s with
      | EmptyString => EmptyString
      | _ => String c (rstrip r)
      end
  end.

Definition strip (s : string) : string := rstrip (lstrip s).

(** The white space of the C locale, which [int()] skips before and
    after a literal: tab, line feed, vertical tab, form feed, carriage
    return and the space. *)
Definition is_c_space (c : ascii) : bool :=
  let n := nat_of_ascii c in ((9 <=? n) && (n <=? 13)) || (n =? 32).

Fixpoint skip_spaces (s : string) : string :=
  match s with
  | EmptyString => EmptyString
  | String c r => if is_c_space c then skip_spaces r else s
  end.

Fixpoint drop_trailing_spaces (s : string) : string :=
  match s with
  | EmptyString => EmptyString
  | String c r =>
      match drop_trailing_spaces r with
      | EmptyString => if is_c_space c then EmptyString else String c EmptyString
      | r' => String c r'
      end
  end.

(** [s.split('.')]. *)
Fixpoint split_dot (s : string) : list string :=
  match s with
  | EmptyString => [EmptyString]
  | String c r =>
      if Ascii.eqb c "." then EmptyString :: split_dot r
      else match split_dot r with
           | h :: t => String c h :: t
           | [] => [String c EmptyString]
           end
  end.

Definition is_digit (c : ascii) : bool :=
  let n := nat_of_ascii c in (48 <=? n) && (n <=? 57).

Definition digit_val (c : ascii) : Z := Z.of_nat (nat_of_ascii c - 48).

(** The digit part of a decimal literal accepted by [int()]: digits with
    single underscores between them.  [prev] records that the previous
    character was a digit. *)
Fixpoint parse_digits (s : string) (acc : Z) (prev : bool) : option Z :=
  match s with
  | EmptyString => if prev then Some acc else None
  | String c r =>
      if is_digit c then parse_digits r (10 * acc + digit_val c)%Z true
      else if Ascii.eqb c "_" then
             (if prev then parse_digits r acc false else None)
      else None
  end.

(** [int(s)] in base ten for a text of ASCII characters; [None] stands
    for [ValueError].  White space of the C locale around the literal
    and one sign are accepted; the separators 0x1c-0x1f are refused.
    (Outside ASCII [int()] also reads the white space and the decimal
    digits of the interpreter's Unicode tables, and it refuses a literal
    longer than the interpreter's limit: neither is modelled.) *)
Definition int (s : string) : option Z :=
  match drop_trailing_spaces (skip_spaces s) with
  | String "+" r => parse_digits r 0%Z false
  | String "-" r => Z.opp <$> parse_digits r 0%Z false
  | t => parse_digits t 0%Z false
  end.

(** A stable sort that compares with [lt] only, as [list.sort] and a
    SQL [ORDER BY] do: an element is placed before the first element
    that is not smaller than it. *)
Fixpoint insert_by {A} (lt : A → A → bool) (x : A) (l : list A) : list A :=
  match l with
  | [] => [x]
  | y :: r => if lt y x then y :: insert_by lt x r else x :: l
  end.

Definition sort_by {A} (lt : A → A → bool) (l : list A) : list A :=
  foldr (insert_by lt) [] l.

(** The items of a dictionary that was filled in ascending key order
    (rows fetched with [ORDER BY] on the primary key). *)
Definition ordered_items {A} (m : gmap string A) : list (string * A) :=
  sort_by (λ a b, String.ltb a.1 b.1) (map_to_list m).

Definition nl : string := String (ascii_of_nat 10) EmptyString.

(** How an f-string prints a value that may be [None]. *)
Definition fmt (o : option string) : string := default "None"%string o.

End Py.

(** ** The persisted tables *)

Module Db.

(** A row of [story_nodes], without its primary key (the key of the map
    that holds it).  Only the columns read or written by the modelled
    code are kept.  Text columns are nullable at the SQL level. *)
Record Row := mkRow {
  title : option string;
  stage : option string;
  status : option string;
  terminus : option string;
  notes : option string;
  human_review : Z;
  updated_at : option string
}.

(** The name of the primary-key column of [story_nodes].  The tables
    that the migration scripts create name it [id] (the one of
    [migrate_to_epic_stage.py], with [hold_reason] renamed by
    [migrate_hold_to_status.py], admits every value of the three
    category tables); the queries of [_load_nodes_from_db], of
    [update_status.py] and of the arborist scripts name it [story_path]
    (cf. [migrate_title_to_feature.py]:
    [pk_column = 'story_path' if ... else 'id']).  A table has one of
    the two columns; a statement that names the other one raises
    [sqlite3.OperationalError]. *)
Inductive KeyColumn := pk_id | pk_story_path.

(** A row of the closure table [story_paths]. *)
Record PathRow := mkPath {
  ancestor_id : string;
  descendant_id : string;
  depth : Z
}.

End Db.

(** ** xstory.py *)

Module Xstory.

(** The three-field classification tables. *)
Definition STAGE_VALUES : list string :=
  ["epic"; "concept"; "planning"; "implementing"; "testing"; "releasing"].
Definition STATUS_VALUES_HOLDS : list string :=
  ["escalated"; "paused"; "blocked"; "broken"; "polish"; "conflicted";
   "wishlisted"; "queued"].
Definition TERMINUS_VALUES : list string :=
  ["shipped"; "rejected"; "infeasible"; "duplicative"; "legacy";
   "deprecated"; "archived"].

(** Ordered lists used by the filter panel. *)
Definition STAGE_ORDER : list string :=
  ["epic"; "concept"; "planning"; "implementing"; "testing"; "releasing"].
Definition STATUS_ORDER_HOLDS : list string :=
  ["ready"; "broken"; "conflicted"; "blocked"; "escalated"; "paused";
   "polish"; "queued"; "wishlisted"].
Definition TERMINUS_ORDER : list string :=
  ["active"; "shipped"; "infeasible"; "rejected"; "duplicative";
   "deprecated"; "legacy"; "archived"].

(** *** Effective status *)

(** The SQL expression
    [COALESCE(terminus, CASE WHEN status = 'ready' THEN NULL ELSE status END, stage)].
    A NULL status makes the comparison unknown, so the CASE takes its
    ELSE branch and yields NULL again. *)
Definition effective_status_sql (r : Db.Row) : option string :=
  Py.coalesce
    [Db.terminus r;
     match Db.status r with
     | Some s => if String.eqb s "ready" then None else Some s
     | None => None
     end;
     Db.stage r].

(** *** StoryNode *)

(** The in-memory node.  [children] holds the ids of the child nodes:
    the Python list holds references to the node objects of
    [self.nodes], which are looked up by id here. *)
Record StoryNode := mkNode {
  id : string;
  feature : string;
  effective_status : string;
  depth : Z;
  parent_id : option string;
  notes : string;
  updated_at : string;
  stage : string;
  status : string;
  terminus : option string;
  descendants_count : Z;
  children : list string
}.

Definition set_children (n : StoryNode) (cs : list string) : StoryNode :=
  mkNode (id n) (feature n) (effective_status n) (depth n) (parent_id n)
    (notes n) (updated_at n) (stage n) (status n) (terminus n)
    (descendants_count n) cs.

(** *** The sort key *)

(** The tuples built by [_sort_key]: [(0,)], [(1, n1, n2, ...)] and
    [(2, node_id)]. *)
Inductive SortKey :=
| KRoot
| KNum (parts : list Z)
| KStr (node_id : string).

Definition _sort_key (node_id : string) : SortKey :=
  if String.eqb node_id "root" then KRoot
  else match mapM Py.int (Py.split_dot node_id) with
       | Some parts => KNum parts
       | None => KStr node_id
       end.

(** Python's [<] on tuples of integers: decided at the first position
    that differs, a proper prefix being smaller. *)
Fixpoint tuple_ltb (a b : list Z) : bool :=
  match a, b with
  | [], [] => false
  | [], _ :: _ => true
  | _ :: _, [] => false
  | x :: a', y :: b' => if (x =? y)%Z then tuple_ltb a' b' else (x <? y)%Z
  end.

(** [<] on the key tuples; the leading tags 0, 1 and 2 decide between
    keys of different shapes. *)
Definition key_ltb (k1 k2 : SortKey) : bool :=
  match k1, k2 with
  | KRoot, KRoot => false
  | KRoot, _ => true
  | KNum _, KRoot => false
  | KNum a, KNum b => tuple_ltb a b
  | KNum _, KStr _ => true
  | KStr a, KStr b => String.ltb a b
  | KStr _, _ => false
  end.

(** [l.sort(key=lambda n: self._sort_key(n.id))], for a list of values
    whose id is given by [get_id]. *)
Definition sort_nodes {A} (get_id : A → string) (l : list A) : list A :=
  Py.sort_by (λ a b, key_ltb (_sort_key (get_id a)) (_sort_key (get_id b))) l.

(** *** Loading the nodes *)

(** [MIN(depth)] over the closure rows that reach [k] from another
    node; [None] when there is none. *)
Definition min_depth (paths : list Db.PathRow) (k : string) : option Z :=
  foldr (λ p acc,
           if bool_decide (Db.descendant_id p = k ∧ Db.ancestor_id p ≠ k)
           then Some (match acc with
                      | Some d => Z.min (Db.depth p) d
                      | None => Db.depth p
                      end)
           else acc)
        None paths.

(** The scalar subquery for [parent_id]: the ancestor of the first
    closure row of depth 1 that ends in [k]. *)
Definition parent_of (paths : list Db.PathRow) (k : string) : option string :=
  Db.ancestor_id <$>
    head (filter (λ p, Db.descendant_id p = k ∧ Db.depth p = 1%Z) paths).

Definition count_descendants (paths : list Db.PathRow) (k : string) : Z :=
  Z.of_nat (length (filter (λ p, Db.ancestor_id p = k) paths)) - 1.

(** The [StoryNode] built from one fetched row.  A count of 0 is falsy,
    so [row['descendants_count'] or 0] and [row['depth'] or 0] return
    the number itself. *)
Definition node_of_row (paths : list Db.PathRow) (k : string) (r : Db.Row)
  : StoryNode :=
  {| id := k;
     feature := Py.or_default (Db.title r) "";
     effective_status := Py.or_default (effective_status_sql r) "concept";
     depth := default 0%Z (min_depth paths k);
     parent_id := parent_of paths k;
     notes := Py.or_default (Db.notes r) "";
     updated_at := Py.or_default (Db.updated_at r) "";
     stage := Py.or_default (Db.stage r) "concept";
     status := Py.or_default (Db.status r) "ready";
     terminus := Db.terminus r;
     descendants_count := count_descendants paths k;
     children := [] |}.

(** [node.parent_id] when it is truthy. *)
Definition live_parent (n : StoryNode) : option string :=
  match parent_id n with
  | Some p => if Py.truthy_str p then Some p else None
  | None => None
  end.

(** One step of the loop that builds the parent-child relation:
    [if node.parent_id and node.parent_id in self.nodes:
       self.nodes[node.parent_id].children.append(node)]. *)
Definition link_child (nodes : gmap string StoryNode) (n : StoryNode)
  : gmap string StoryNode :=
  match live_parent n with
  | Some p =>
      if bool_decide (p ∈ dom nodes)
      then alter (λ pn, set_children pn (children pn ++ [id n])) p nodes
      else nodes
  | None => nodes
  end.

Definition _load_nodes_from_db
    (story_nodes : gmap string Db.Row) (story_paths : list Db.PathRow)
  : gmap string StoryNode :=
  let rows := Py.ordered_items story_nodes in
  let loaded := map (λ kr, node_of_row story_paths kr.1 kr.2) rows in
  let nodes0 : gmap string StoryNode :=
    foldl (λ m n, <[id n := n]> m) ∅ loaded in
  let nodes1 := foldl link_child nodes0 loaded in
  (λ n, set_children n (sort_nodes (λ c, c) (children n))) <$> nodes1.

(** *** The status update *)

(** The two readings of the clock taken by the update:
    [strftime("%Y-%m-%d %H:%M")] for the note and [isoformat()] for
    [updated_at]. *)
Record Clock := mkClock { stamp : string; iso : string }.

(** What the user is shown. *)
Inductive Feedback :=
| StatusBar (msg : string)
| Critical (title msg : string)
| Warning (title msg : string).

Definition set_terminus (v notes' now : string) (r : Db.Row) : Db.Row :=
  Db.mkRow (Db.title r) (Db.stage r) (Some "ready"%string) (Some v)
    (Some notes') (Db.human_review r) (Some now).

Definition set_status (v notes' now : string) (r : Db.Row) : Db.Row :=
  Db.mkRow (Db.title r) (Db.stage r) (Some v) None
    (Some notes') (Db.human_review r) (Some now).

Definition set_stage (v notes' now : string) (r : Db.Row) : Db.Row :=
  Db.mkRow (Db.title r) (Some v) (Some "ready"%string) None
    (Some notes') (Db.human_review r) (Some now).

Definition new_note_entry (clk : Clock) (new_status notes : string) : string :=
  if Py.truthy_str notes
  then "[" +:+ stamp clk +:+ "] Status changed to '" +:+ new_status
       +:+ "': " +:+ notes
  else "[" +:+ stamp clk +:+ "] Status changed to '" +:+ new_status +:+ "'".

Definition updated_notes (current_notes entry : string) : string :=
  if Py.truthy_str current_notes
  then current_notes +:+ Py.nl +:+ entry
  else entry.

(** [_update_node_status_in_db].  Every statement of the method names
    the key column [id].  On a table whose key column is [story_path],
    the table that [_load_nodes_from_db] reads, the first statement
    ([SELECT notes FROM story_nodes WHERE id = ?]) raises
    [OperationalError: no such column: id] inside the [try]: nothing is
    written and the handler of the method reports the error.  On a table
    whose key column is [id], an [UPDATE ... WHERE id = ?] changes the
    row of that key when there is one and nothing otherwise, and the
    [ValueError] of the last branch is raised before any statement that
    writes and is reported by the same handler.  The result holds the
    store and the message of the method itself; the [_refresh] that
    follows a successful update reloads the in-memory nodes with
    [_load_nodes_from_db], whose query names [story_path], and reports
    by itself. *)
Definition _update_node_status_in_db (pk_column : Db.KeyColumn)
    (db_path : option string) (clk : Clock) (db : gmap string Db.Row)
    (node_id new_status notes : string)
  : gmap string Db.Row * Feedback :=
  if negb (Py.truthy db_path) then (db, Critical "Error" "No database loaded.")
  else
    match pk_column with
    | Db.pk_story_path =>
        (db, Critical "Database Error"
               ("Failed to update status:" +:+ Py.nl +:+
                "no such column: id"))
    | Db.pk_id =>
        let current_notes :=
          match db !! node_id with
          | Some row => Py.or_default (Db.notes row) ""
          | None => ""%string
          end in
        let notes' :=
          updated_notes current_notes (new_note_entry clk new_status notes) in
        let done_msg :=
          StatusBar ("Updated '" +:+ node_id +:+ "' status to '"
                     +:+ new_status +:+ "'") in
        if Py.member new_status TERMINUS_VALUES then
          (alter (set_terminus new_status notes' (iso clk)) node_id db,
           done_msg)
        else if Py.member new_status STATUS_VALUES_HOLDS then
          (alter (set_status new_status notes' (iso clk)) node_id db,
           done_msg)
        else if Py.member new_status STAGE_VALUES then
          (alter (set_stage new_status notes' (iso clk)) node_id db,
           done_msg)
        else
          (db, Critical "Database Error"
                 ("Failed to update status:" +:+ Py.nl +:+
                  "Unknown status value: " +:+ new_status))
    end.

(** *** The status-change dialog *)

(** What the user does with the modal dialog: press OK with some text in
    the notes box, or cancel. *)
Inductive UserAction :=
| ClickOk (text : string)
| ClickCancel.

Inductive DialogResult :=
| Accepted (result_notes : string)
| Rejected.

(** What [_on_confirm] does with the text of the notes box: it warns and
    leaves the dialog open, or stores the note and accepts. *)
Inductive Confirm :=
| Warned (shown : Feedback)
| Confirmed (result_notes : string).

Definition _on_confirm (new_status : string) (mandatory : bool)
    (text : string) : Confirm :=
  let notes := Py.strip text in
  if mandatory && negb (Py.truthy_str notes) then
    Warned (Warning "Notes Required"
              ("Notes are required when changing status to '" +:+ new_status
               +:+ "'."))
  else Confirmed notes.

(** [StatusChangeDialog.exec()]: [_on_confirm] runs at each OK, Cancel
    rejects.  A dialog that is closed without an OK is rejected. *)
Fixpoint dialog_exec (new_status : string) (mandatory : bool)
    (actions : list UserAction) : DialogResult * list Feedback :=
  match actions with
  | [] => (Rejected, [])
  | ClickCancel :: _ => (Rejected, [])
  | ClickOk text :: rest =>
      match _on_confirm new_status mandatory text with
      | Warned fb =>
          let '(res, shown) := dialog_exec new_status mandatory rest in
          (res, fb :: shown)
      | Confirmed notes => (Accepted notes, [])
      end
  end.

(** [_change_node_status]: nothing happens for an id that is not
    loaded; the row is written only when the dialog was accepted. *)
Definition _change_node_status (pk_column : Db.KeyColumn)
    (nodes : gmap string StoryNode) (db_path : option string) (clk : Clock)
    (db : gmap string Db.Row) (node_id new_status : string)
    (actions : list UserAction)
  : gmap string Db.Row * list Feedback :=
  match nodes !! node_id with
  | None => (db, [])
  | Some _ =>
      let mandatory := String.eqb new_status "polish" in
      match dialog_exec new_status mandatory actions with
      | (Accepted notes, shown) =>
          let '(db', fb) :=
            _update_node_status_in_db pk_column db_path clk db node_id
              new_status (Py.or_default (Some notes) "") in
          (db', shown ++ [fb])
      | (Rejected, shown) => (db, shown)
      end
  end.

(** *** Ancestors and the filtered tree *)

(** The loop of [_get_ancestors]:
    [while node and node.parent_id: ancestors.add(node.parent_id);
     node = self.nodes.get(node.parent_id)].
    [fuel] bounds the number of iterations; [None] means that the bound
    was reached. *)
Fixpoint ancestors_loop (fuel : nat) (nodes : gmap string StoryNode)
    (node : option StoryNode) (ancestors : gset string)
  : option (gset string) :=
  match node with
  | None => Some ancestors
  | Some n =>
      match live_parent n with
      | None => Some ancestors
      | Some p =>
          match fuel with
          | O => None
          | S fuel' =>
              ancestors_loop fuel' nodes (nodes !! p) (ancestors ∪ {[p]})
          end
      end
  end.

Definition _get_ancestors (fuel : nat) (nodes : gmap string StoryNode)
    (node_id : string) : option (gset string) :=
  ancestors_loop fuel nodes (nodes !! node_id) ∅.

(** The checked boxes of one category, e.g.
    [{s for s in STAGE_ORDER if s in boxes and boxes[s].isChecked()}]. *)
Definition checked (boxes : gmap string bool) (order : list string)
  : list string :=
  filter (λ s, boxes !! s = Some true) order.

Definition node_matches_filter
    (checked_stages checked_statuses checked_termini : list string)
    (node : StoryNode) : bool :=
  let show_ready := Py.member "ready" checked_statuses in
  let show_active := Py.member "active" checked_termini in
  if negb (Py.member (stage node) checked_stages) then false
  else
    let status_ok :=
      if Py.truthy_str (status node)
         && negb (String.eqb (status node) "ready")
         && Py.member (status node) checked_statuses
      then true
      else if show_ready
              && (negb (Py.truthy_str (status node))
                  || String.eqb (status node) "ready")
      then true
      else false in
    let term_ok :=
      if Py.truthy (terminus node)
         && Py.member (default ""%string (terminus node)) checked_termini
      then true
      else if show_active && negb (Py.truthy (terminus node))
      then true
      else false in
    status_ok || term_ok.

(** What [setData(0, Qt.UserRole, ...)] stores in a tree item. *)
Inductive Role := Faded | Normal.

(** A tree item: the node it shows and its role.  (Icons, texts and
    tool tips are not modelled.) *)
Definition Item : Type := string * Role.

(** [_add_filtered_node]; the result lists the items in the order in
    which they enter [self.tree_items].  [fuel] bounds the depth of the
    recursion. *)
Fixpoint _add_filtered_node (fuel : nat) (nodes : gmap string StoryNode)
    (visible_nodes faded_nodes : gset string) (node : StoryNode)
  : option (list Item) :=
  match fuel with
  | O => None
  | S fuel' =>
      if bool_decide (id node ∈ visible_nodes) then
        let item :=
          (id node,
           if bool_decide (id node ∈ faded_nodes) then Faded else Normal) in
        let visible_children :=
          sort_nodes id
            (filter (λ c, id c ∈ visible_nodes)
               (omap (λ c, nodes !! c) (children node))) in
        below ← mapM (_add_filtered_node fuel' nodes visible_nodes faded_nodes)
                  visible_children;
        Some (item :: concat below)
      else Some []
  end.

(** The loop that unites the ancestors of the matching nodes. *)
Fixpoint collect_ancestors (fuel : nat) (nodes : gmap string StoryNode)
    (ids : list string) (ancestor_nodes : gset string)
  : option (gset string) :=
  match ids with
  | [] => Some ancestor_nodes
  | node_id :: rest =>
      a ← _get_ancestors fuel nodes node_id;
      collect_ancestors fuel nodes rest (ancestor_nodes ∪ a)
  end.

Definition matching_nodes (boxes : gmap string bool)
    (nodes : gmap string StoryNode) : gset string :=
  dom (filter
         (λ kn, node_matches_filter (checked boxes STAGE_ORDER)
                  (checked boxes STATUS_ORDER_HOLDS)
                  (checked boxes TERMINUS_ORDER) kn.2 = true)
         nodes).

(** The sets computed by [_apply_filters] and the items it builds. *)
Record FilterView := mkView {
  visible_nodes : gset string;
  faded_nodes : gset string;
  tree_items : list Item
}.

Definition _apply_filters (fuel : nat) (boxes : gmap string bool)
    (nodes : gmap string StoryNode) : option FilterView :=
  let matching := matching_nodes boxes nodes in
  ancestor_nodes ← collect_ancestors fuel nodes (elements matching) ∅;
  let visible := matching ∪ ancestor_nodes in
  let faded := ancestor_nodes ∖ matching in
  let root_nodes :=
    sort_nodes id
      (filter (λ n, (live_parent n = None
                     ∨ default ""%string (parent_id n) ∉ dom nodes)
                    ∧ id n ∈ visible)
         (Py.ordered_items nodes).*2) in
  items ← mapM (_add_filtered_node fuel nodes visible faded) root_nodes;
  Some (mkView visible faded (concat items)).

(** *** The transition menus *)

(** The four dictionaries of offered transitions, in the order in which
    they are written. *)
Definition FILTER_TRANSITIONS : list (string * list string) :=
  [("infeasible", ["concept"; "wishlisted"; "archived"]);
   ("rejected", ["concept"; "wishlisted"; "archived"]);
   ("wishlisted", ["concept"; "rejected"; "archived"]);
   ("concept", ["planning"; "escalated"; "rejected"; "wishlisted"; "polish"]);
   ("polish", ["concept"; "releasing"; "rejected"; "wishlisted"]);
   ("planning", ["escalated"; "rejected"]);
   ("blocked", ["escalated"]);
   ("paused", ["escalated"]);
   ("testing", ["releasing"]);
   ("releasing", ["shipped"; "polish"]);
   ("legacy", ["deprecated"; "archived"]);
   ("deprecated", ["archived"; "legacy"]);
   ("archived", ["deprecated"; "wishlisted"])]%string.

Definition RESPOND_TRANSITIONS : list (string * list string) :=
  [("planning", ["implementing"]);
   ("blocked", ["planning"; "implementing"]);
   ("broken", ["implementing"; "paused"; "blocked"]);
   ("paused", ["implementing"; "blocked"]);
   ("implementing", ["testing"; "paused"; "broken"; "blocked"]);
   ("testing", ["implementing"; "broken"; "releasing"]);
   ("releasing", ["testing"; "broken"]);
   ("polish", ["testing"])]%string.

Definition ESCALATED_FILTER_TRANSITIONS : list (string * list string) :=
  [("concept", ["planning"; "polish"; "wishlisted"; "rejected"; "paused"]);
   ("planning", ["queued"; "polish"; "wishlisted"; "rejected"]);
   ("implementing", ["wishlisted"; "rejected"; "broken"]);
   ("testing", ["releasing"; "polish"]);
   ("releasing", ["shipped"; "polish"])]%string.

Definition ESCALATED_RESPOND_TRANSITIONS : list (string * list string) :=
  [("concept", ["planning"]);
   ("planning", ["implementing"]);
   ("implementing", ["testing"; "broken"]);
   ("testing", ["releasing"]);
   ("releasing", ["shipped"])]%string.

(** [d.get(key, [])] for one of these dictionaries. *)
Fixpoint transitions_get (d : list (string * list string)) (key : string)
  : list string :=
  match d with
  | [] => []
  | (k, targets) :: rest =>
      if String.eqb k key then targets else transitions_get rest key
  end.

(** [_add_status_actions]: the targets of the buttons put in the footer,
    in their order.  An escalated node is looked up by its stage, any
    other node by its effective status.  (The styling of the buttons is
    not modelled; each button calls [_on_status_button_clicked] with the
    node's id and its target.) *)
Definition _add_status_actions (respond_mode_active : bool) (node : StoryNode)
  : list string :=
  if String.eqb (status node) "escalated" then
    if respond_mode_active
    then transitions_get ESCALATED_RESPOND_TRANSITIONS (stage node)
    else transitions_get ESCALATED_FILTER_TRANSITIONS (stage node)
  else if respond_mode_active
  then transitions_get RESPOND_TRANSITIONS (effective_status node)
  else transitions_get FILTER_TRANSITIONS (effective_status node).

(** *** Moving between nodes in the detail view *)

(** [l.index(x)] for an [x] that is in [l]; the length of [l] stands for
    the [ValueError] of an absent [x]. *)
Fixpoint index (x : string) (l : list string) : nat :=
  match l with
  | [] => 0
  | y :: r => if String.eqb y x then 0 else S (index x r)
  end.

(** [_get_nodes_with_status]: the ids, in dictionary order, of the nodes
    whose effective status is [status]. *)
Definition _get_nodes_with_status (nodes : gmap string StoryNode)
    (status : string) : list string :=
  (filter (λ kn, effective_status kn.2 = status) (Py.ordered_items nodes)).*1.

(** [_get_escalated_nodes]: the ids of the nodes whose status is
    "escalated", sorted with the sort key. *)
Definition _get_escalated_nodes (nodes : gmap string StoryNode) : list string :=
  sort_nodes (λ nid, nid)
    (filter (λ kn, status kn.2 = "escalated"%string) (Py.ordered_items nodes)).*1.

(** [_go_prev_escalated] and [_go_next_escalated]: the id handed to
    [show_node], if any.  [current_node_id] is [None] before a node was
    shown. *)
Definition _go_prev_escalated (nodes : gmap string StoryNode)
    (current_node_id : option string) : option string :=
  let escalated := _get_escalated_nodes nodes in
  match current_node_id with
  | Some c =>
      if bool_decide (c ∈ escalated) then
        let idx := index c escalated in
        if 0 <? idx then escalated !! (idx - 1) else None
      else None
  | None => None
  end.

Definition _go_next_escalated (nodes : gmap string StoryNode)
    (current_node_id : option string) : option string :=
  let escalated := _get_escalated_nodes nodes in
  match current_node_id with
  | Some c =>
      if bool_decide (c ∈ escalated) then
        let idx := index c escalated in
        if idx <? length escalated - 1 then escalated !! (idx + 1) else None
      else None
  | None => None
  end.

(** What [_update_escalated_nav_buttons] sets: whether the two buttons
    are visible and enabled, and whether the empty state replaces the
    content. *)
Record NavButtons := mkNav {
  nav_visible : bool;
  prev_enabled : bool;
  next_enabled : bool;
  empty_state_shown : bool
}.

(** [_update_escalated_nav_buttons]; [old] is the state of the widgets
    before the call: outside Respond mode the buttons are hidden and
    their enabled state is not touched. *)
Definition _update_escalated_nav_buttons (respond_mode_active : bool)
    (nodes : gmap string StoryNode) (current_node_id : option string)
    (old : NavButtons) : NavButtons :=
  if negb respond_mode_active then
    mkNav false (prev_enabled old) (next_enabled old) false
  else
    let escalated := _get_escalated_nodes nodes in
    match escalated with
    | [] => mkNav true false false true
    | _ =>
        match current_node_id with
        | Some c =>
            if bool_decide (c ∈ escalated) then
              let idx := index c escalated in
              mkNav true (0 <? idx) (idx <? length escalated - 1) false
            else mkNav true false false false
        | None => mkNav true false false false
        end
    end.

(** [_on_status_button_clicked]: the node looked for before the change
    (the next node that has the clicked node's status as its effective
    status, else the previous one), the change itself, and the id handed
    to [show_node] afterwards. *)
Definition _on_status_button_clicked (pk_column : Db.KeyColumn)
    (nodes : gmap string StoryNode) (db_path : option string) (clk : Clock)
    (db : gmap string Db.Row) (current_node_id : option string)
    (node_id new_status : string) (actions : list UserAction)
  : gmap string Db.Row * list Feedback * option string :=
  let original_status := status <$> nodes !! node_id in
  let nodes_with_original_status :=
    match original_status with
    | Some s => if Py.truthy_str s then _get_nodes_with_status nodes s else []
    | None => []
    end in
  let next_node_id :=
    if bool_decide (node_id ∈ nodes_with_original_status) then
      let current_index := index node_id nodes_with_original_status in
      if current_index <? length nodes_with_original_status - 1
      then nodes_with_original_status !! (current_index + 1)
      else if 0 <? current_index
      then nodes_with_original_status !! (current_index - 1)
      else None
    else None in
  let '(db', shown) :=
    _change_node_status pk_column nodes db_path clk db node_id new_status
      actions in
  (db', shown,
   if Py.truthy next_node_id then next_node_id
   else if Py.truthy current_node_id then current_node_id
   else None).

(** *** The filter boxes and Respond mode *)

(** The order in which [_setup_ui] creates the filter boxes; the
    dictionary [status_checkboxes] has these keys and no others, and
    every loop over it runs in this order. *)
Definition checkbox_order : list string :=
  STAGE_ORDER ++ STATUS_ORDER_HOLDS ++ TERMINUS_ORDER.

(** The part of the application state that the filter boxes and the
    Respond toggle read and write.  (The status bar and the appearance
    of the buttons are not modelled.) *)
Record App := mkApp {
  status_checkboxes : gmap string bool;
  respond_mode_active : bool;
  _saved_checkbox_states : gmap string bool;
  _checkbox_change_internal : bool
}.

(** The state after [__init__] and [_setup_ui]: every box is checked
    before its handler is connected. *)
Definition initial_app : App :=
  mkApp (list_to_map ((λ s, (s, true)) <$> checkbox_order)) true ∅ false.

Definition set_checkboxes (boxes : gmap string bool) (app : App) : App :=
  mkApp boxes (respond_mode_active app) (_saved_checkbox_states app)
    (_checkbox_change_internal app).

Definition set_respond_mode (b : bool) (app : App) : App :=
  mkApp (status_checkboxes app) b (_saved_checkbox_states app)
    (_checkbox_change_internal app).

Definition set_internal (b : bool) (app : App) : App :=
  mkApp (status_checkboxes app) (respond_mode_active app)
    (_saved_checkbox_states app) b.

Definition _save_checkbox_states (app : App) : App :=
  mkApp (status_checkboxes app) (respond_mode_active app)
    (status_checkboxes app) (_checkbox_change_internal app).

Definition _on_checkbox_changed (app : App) : App :=
  if _checkbox_change_internal app then app
  else if respond_mode_active app then set_respond_mode false app
  else _save_checkbox_states app.

(** [cb.setChecked(v)] for the box [name]: the box emits [stateChanged],
    which runs [_on_checkbox_changed], only when its state changes.
    (The handler's call of [_apply_filters] redraws the tree and leaves
    this state alone.) *)
Definition setChecked (name : string) (v : bool) (app : App) : App :=
  match status_checkboxes app !! name with
  | Some old =>
      if Bool.eqb old v then app
      else _on_checkbox_changed
             (set_checkboxes (<[name := v]> (status_checkboxes app)) app)
  | None => app
  end.

(** A click on the box [name] inverts its state. *)
Definition click_checkbox (name : string) (app : App) : App :=
  match status_checkboxes app !! name with
  | Some old => setChecked name (negb old) app
  | None => app
  end.

(** A loop [for name in names: ... self.status_checkboxes[name]
    .setChecked(...)] over boxes that exist: the loop body [value]
    chooses, from the current state, the argument of [setChecked] or
    leaves the box alone. *)
Definition checkbox_loop (value : App → string → option bool)
    (names : list string) (app : App) : App :=
  foldl (λ a name,
           match status_checkboxes a !! name with
           | Some _ =>
               match value a name with
               | Some v => setChecked name v a
               | None => a
               end
           | None => a
           end)
    app names.

(** [for name, cb in self.status_checkboxes.items(): ...]. *)
Definition for_each_checkbox (value : App → string → option bool)
    (app : App) : App :=
  checkbox_loop value checkbox_order app.

Definition _restore_checkbox_states (app : App) : App :=
  if bool_decide (_saved_checkbox_states app = ∅) then
    set_internal false
      (for_each_checkbox (λ _ _, Some true) (set_internal true app))
  else
    set_internal false
      (for_each_checkbox
         (λ a name, Some (default true (_saved_checkbox_states a !! name)))
         (set_internal true app)).

(** The branches of the loop of [_apply_respond_preset]. *)
Definition respond_preset (name : string) : option bool :=
  if Py.member name STAGE_ORDER then Some true
  else if String.eqb name "escalated" then Some true
  else if Py.member name STATUS_ORDER_HOLDS then Some false
  else if String.eqb name "shipped" then Some true
  else if Py.member name TERMINUS_ORDER then Some false
  else None.

Definition _apply_respond_preset (app : App) : App :=
  set_internal false
    (for_each_checkbox (λ _, respond_preset) (set_internal true app)).

(** [_toggle_respond_mode], up to its final [_apply_filters], which
    draws the tree for the boxes of the resulting state. *)
Definition _toggle_respond_mode (app : App) : App :=
  if respond_mode_active app then
    set_respond_mode false (_restore_checkbox_states app)
  else
    set_respond_mode true (_apply_respond_preset app).

Definition _select_all_statuses (app : App) : App :=
  for_each_checkbox (λ _ _, Some true) app.

Definition _select_no_statuses (app : App) : App :=
  for_each_checkbox (λ _ _, Some false) app.

Definition _select_category_statuses (statuses : list string)
    (checked : bool) (app : App) : App :=
  checkbox_loop (λ _ _, Some checked) statuses app.

(** *** Focus *)

(** The first loop of [_focus_on_node]: it walks up from [current_id]
    and adds every id it meets.  [fuel] bounds the number of rounds. *)
Fixpoint focus_lineage (fuel : nat) (nodes : gmap string StoryNode)
    (current_id : option string) (visible_ids : gset string)
  : option (gset string) :=
  match current_id with
  | Some c =>
      if Py.truthy_str c then
        match fuel with
        | O => None
        | S fuel' =>
            focus_lineage fuel' nodes (nodes !! c ≫= parent_id)
              (visible_ids ∪ {[c]})
        end
      else Some visible_ids
  | None => Some visible_ids
  end.

(** The local function [add_descendants] of [_focus_on_node]; [fuel]
    bounds the depth of the recursion. *)
Fixpoint add_descendants (fuel : nat) (nodes : gmap string StoryNode)
    (nid : string) (visible_ids : gset string) : option (gset string) :=
  match fuel with
  | O => None
  | S fuel' =>
      match nodes !! nid with
      | Some node =>
          foldl (λ acc child,
                   v ← acc;
                   add_descendants fuel' nodes child (v ∪ {[child]}))
            (Some visible_ids) (children node)
      | None => Some visible_ids
      end
  end.

(** The ids of the hidden tree items and the focused node. *)
Record Focus := mkFocus {
  hidden : gset string;
  _focused_node_id : option string
}.

(** [_focus_on_node] for the tree items [tree_items]. *)
Definition _focus_on_node (fuel : nat) (nodes : gmap string StoryNode)
    (tree_items : list Item) (st : Focus) (node_id : string)
  : option Focus :=
  if negb (Py.truthy_str node_id)
     || negb (bool_decide (is_Some (nodes !! node_id)))
  then Some st
  else
    lineage ← focus_lineage fuel nodes (Some node_id) ∅;
    visible_ids ← add_descendants fuel nodes node_id lineage;
    Some (mkFocus
            (list_to_set (filter (λ nid, nid ∉ visible_ids) tree_items.*1))
            (Some node_id)).

Definition _clear_focus (st : Focus) : Focus := mkFocus ∅ None.

(** *** Breadcrumbs *)

(** The loop of [_update_breadcrumbs] that collects the ancestors that
    are nodes, the topmost first ([ancestors.insert(0, parent)]).
    [fuel] bounds the number of rounds. *)
Fixpoint breadcrumb_ancestors (fuel : nat) (nodes : gmap string StoryNode)
    (current : StoryNode) (ancestors : list StoryNode)
  : option (list StoryNode) :=
  match live_parent current with
  | Some p =>
      match nodes !! p with
      | Some parent =>
          match fuel with
          | O => None
          | S fuel' =>
              breadcrumb_ancestors fuel' nodes parent (parent :: ancestors)
          end
      | None => Some ancestors
      end
  | None => Some ancestors
  end.

(** [_update_breadcrumbs]: the ids that the breadcrumb buttons hand to
    [show_node], in the order of the buttons.  (Labels and separators
    are not modelled.) *)
Definition _update_breadcrumbs (fuel : nat) (nodes : gmap string StoryNode)
    (node : StoryNode) : option (list string) :=
  match breadcrumb_ancestors fuel nodes node [] with
  | Some ancestors => Some (id <$> ancestors)
  | None => None
  end.

End Xstory.

(** ** xstory.py: the Kanban board *)

Module KanbanDialog.

Import Xstory.

Definition STAGES : list string :=
  ["concept"; "planning"; "implementing"; "testing"; "releasing"; "shipped"].

(** One round of the loop of [_populate_board] that groups the nodes by
    stage.  Every key the loop appends to was put into [stage_nodes]
    before the loop. *)
Definition group_node (stage_nodes : gmap string (list StoryNode))
    (node : StoryNode) : gmap string (list StoryNode) :=
  if String.eqb (id node) "root" then stage_nodes
  else if Py.truthy (terminus node) then stage_nodes
  else
    let stage :=
      if Py.member (Xstory.stage node) STAGES then Some (Xstory.stage node)
      else None in
    match stage with
    | Some st =>
        if Py.truthy_str st then alter (λ l, l ++ [node]) st stage_nodes
        else stage_nodes
    | None => stage_nodes
    end.

(** A column of the board: the nodes of its cards, from top to bottom,
    and the number its count label shows. *)
Record Column := mkColumn {
  cards : list StoryNode;
  count : nat
}.

(** [_populate_board]: the columns in the order of [STAGES]. *)
Definition _populate_board (nodes : gmap string StoryNode)
  : list (string * Column) :=
  let stage_nodes :=
    foldl group_node (list_to_map ((λ stage, (stage, [])) <$> STAGES))
      (Py.ordered_items nodes).*2 in
  (λ stage,
     let nodes_of_stage := default [] (stage_nodes !! stage) in
     (stage,
      mkColumn
        (Py.sort_by (λ a b, String.ltb (id a) (id b)) nodes_of_stage)
        (length nodes_of_stage)))
  <$> STAGES.

End KanbanDialog.

(** ** xstory.py: the bottleneck heatmap *)

Module HeatmapDialog.

Import Xstory.

Definition STAGES : list string :=
  ["concept"; "planning"; "implementing"; "testing"; "releasing"].

Definition STATUSES : list string :=
  ["ready"; "escalated"; "blocked"; "queued"; "broken"; "paused"; "polish";
   "conflicted"; "wishlisted"].

(** [node.status or "ready"]. *)
Definition status_or_ready (node : StoryNode) : string :=
  if Py.truthy_str (status node) then status node else "ready".

(** [_on_cell_clicked]: [None] when no node matches and no dialog opens,
    else the number in the title of the list dialog and the ids of its
    entries, from top to bottom. *)
Definition _on_cell_clicked (nodes : gmap string StoryNode)
    (stage status_val : string) : option (nat * list string) :=
  let matching_nodes :=
    filter (λ node,
              ¬ (id node = "root"%string ∨ Py.truthy (terminus node) = true)
              ∧ Xstory.stage node = stage
              ∧ status_or_ready node = status_val)
      (Py.ordered_items nodes).*2 in
  match matching_nodes with
  | [] => None
  | _ =>
      Some (length matching_nodes,
            id <$> Py.sort_by (λ a b, String.ltb (id a) (id b)) matching_nodes)
  end.

(** The counts before the nodes are counted: 0 in every cell. *)
Definition zero_counts : gmap (string * string) nat :=
  list_to_map ((λ cell, (cell, 0)) <$> list_prod STAGES STATUSES).

(** One round of the counting loop of [_populate_heatmap]. *)
Definition count_node (counts : gmap (string * string) nat)
    (node : StoryNode) : gmap (string * string) nat :=
  if String.eqb (id node) "root" then counts
  else if Py.truthy (terminus node) then counts
  else
    let stage := Xstory.stage node in
    let status_val := status_or_ready node in
    if Py.member stage STAGES && Py.member status_val STATUSES
    then <[(stage, status_val)
           := default 0 (counts !! (stage, status_val)) + 1]> counts
    else counts.

(** The numbers that [_populate_heatmap] puts into the cells and the
    totals.  (A cell or total of 0 is shown as "-", the grand total as
    "0".) *)
Record Heatmap := mkHeatmap {
  cells : gmap (string * string) nat;
  row_totals : list (string * nat);
  col_totals : list (string * nat);
  grand_total : nat
}.

Definition _populate_heatmap (nodes : gmap string StoryNode) : Heatmap :=
  let counts := foldl count_node zero_counts (Py.ordered_items nodes).*2 in
  mkHeatmap counts
    ((λ status_val,
        (status_val,
         sum_list ((λ stage, default 0 (counts !! (stage, status_val)))
                   <$> STAGES)))
     <$> STATUSES)
    ((λ stage,
        (stage,
         sum_list ((λ status_val, default 0 (counts !! (stage, status_val)))
                   <$> STATUSES)))
     <$> STAGES)
    (sum_list (map_to_list counts).*2).

(** [_get_heat_color]: the index into [HEAT_COLORS]. *)
Definition _get_heat_color (count : nat) : nat :=
  if count =? 0 then 0
  else if count <=? 2 then 1
  else if count <=? 5 then 2
  else if count <=? 10 then 3
  else 4.

End HeatmapDialog.

(** ** code-verification/update_status.py *)

Module UpdateStatus.

Definition VALID_STAGES : list string :=
  ["concept"; "approved"; "planned"; "active"; "reviewing"; "verifying";
   "implemented"; "ready"; "polish"; "released"].

(** The dictionary returned by [update_status]. *)
Inductive Result :=
| Error (error : string) (valid_stages : option (list string))
| Success (story_id : string) (old_stage : option string)
    (new_stage : option string) (hold_set notes_added : bool).

Definition hold_row (new_notes now : string) (r : Db.Row) : Db.Row :=
  Db.mkRow (Db.title r) (Db.stage r) (Some "escalated"%string) (Db.terminus r)
    (Some new_notes) 1 (Some now).

Definition stage_row (new_stage new_notes now : string) (r : Db.Row) : Db.Row :=
  Db.mkRow (Db.title r) (Some new_stage) (Some "ready"%string) (Db.terminus r)
    (Some new_notes) 0 (Some now).

(** [update_status].  [timestamp] is [strftime('%Y-%m-%d %H:%M')] and
    [now] is what SQLite's [datetime('now')] returns. *)
Definition update_status (timestamp now : string) (db : gmap string Db.Row)
    (story_id new_stage : string) (notes : option string) (hold : bool)
  : gmap string Db.Row * Result :=
  if negb (Py.member new_stage VALID_STAGES) then
    (db, Error ("Invalid stage: " +:+ new_stage) (Some VALID_STAGES))
  else
    match db !! story_id with
    | None => (db, Error ("Story " +:+ story_id +:+ " not found") None)
    | Some row =>
        let old_stage := Db.stage row in
        let existing_notes := Py.or_default (Db.notes row) "" in
        let new_notes :=
          match notes with
          | Some n =>
              if Py.truthy_str n
              then existing_notes
                   +:+ (if Py.truthy_str existing_notes then Py.nl else "")
                   +:+ "[Verification " +:+ timestamp +:+ "] " +:+ n
              else existing_notes
          | None => existing_notes
          end in
        let db' :=
          if hold
          then alter (hold_row new_notes now) story_id db
          else alter (stage_row new_stage new_notes now) story_id db in
        (db',
         Success story_id old_stage
           (if hold then old_stage else Some new_stage)
           hold (bool_decide (notes ≠ None)))
    end.

End UpdateStatus.

(** ** story-arborist/scripts/list_orphans.py *)

Module ListOrphans.

(** The query: the rows of [story_nodes] other than ['root'] for which
    no row of [story_paths] has them as [descendant_id], in ascending
    order of [story_path]. *)
Definition orphans (story_nodes : gmap string Db.Row)
    (story_paths : list Db.PathRow) : list (string * Db.Row) :=
  Py.sort_by (λ a b, String.ltb a.1 b.1)
    (filter
       (λ sn, sn.1 ≠ "root"%string
              ∧ ¬ Exists (λ sp, Db.descendant_id sp = sn.1) story_paths)
       (map_to_list story_nodes)).

(** [terminus or (status if status != 'ready' else None) or stage]. *)
Definition display_status (stage status terminus : option string)
  : option string :=
  Py.or_else
    (Py.or_else terminus
       (if bool_decide (status ≠ Some "ready"%string) then status else None))
    stage.

(** [main]: the printed lines and the value handed to [sys.exit]. *)
Definition main (argv : list string) (story_nodes : gmap string Db.Row)
    (story_paths : list Db.PathRow) : list string * Z :=
  let ids_only := Py.member "--ids-only" argv in
  let found := orphans story_nodes story_paths in
  match found with
  | [] => (if ids_only then [] else ["No orphaned nodes found."%string], 0%Z)
  | _ =>
      if ids_only then (found.*1, 0%Z)
      else
        (("Found " +:+ pretty (length found) +:+ " orphaned node(s):" +:+ Py.nl)
           :: map (λ sn,
                     "  " +:+ sn.1 +:+ ": ["
                     +:+ Py.fmt (display_status (Db.stage sn.2)
                                   (Db.status sn.2) (Db.terminus sn.2))
                     +:+ "] " +:+ Py.fmt (Db.title sn.2))
                found,
         0%Z)
  end.

End ListOrphans.

(** ** story-arborist/scripts/tree_health.py *)

Module TreeHealth.

Section Report.

(** The entries reported by [validate_tree_structure], which lives in
    the shared utility module; their shape plays no role here. *)
Variable Issue : Type.

(** [sum(len(v) for v in issues.values())], for the dictionary from a
    category to its issues. *)
Definition total_issues (issues : list (string * list Issue)) : nat :=
  foldr (λ cat acc, length cat.2 + acc) 0 issues.

Definition health_status (issues : list (string * list Issue)) : string :=
  if Nat.eqb (total_issues issues) 0 then "healthy" else "issues_found".

(** The last line of the text report. *)
Definition status_line (issues : list (string * list Issue)) : string :=
  "Status: " +:+
  (if Nat.eqb (total_issues issues) 0 then "HEALTHY"
   else "ISSUES FOUND (" +:+ pretty (total_issues issues) +:+ ")").

(** The value [main] hands to [sys.exit]. *)
Definition main (issues : list (string * list Issue)) : Z :=
  if Nat.eqb (total_issues issues) 0 then 0%Z else 1%Z.

End Report.

End TreeHealth.

(** * The vocabulary of the properties *)

Import Xstory.

Module Spec.

(** The derived label in the words of the specification: the terminus
    if there is one, else the status if it is not "ready", else the
    stage. *)
Definition effective_status (terminus : option string) (status stage : string)
  : string :=
  match terminus with
  | Some t => t
  | None => if bool_decide (status ≠ "ready"%string) then status else stage
  end.

(** An orphan in the words of the specification: a node other than
    the root that no closure row reaches from another node. *)
Definition is_orphan (story_paths : list Db.PathRow) (k : string) : Prop :=
  k ≠ "root"%string
  ∧ ¬ Exists (λ sp, Db.descendant_id sp = k ∧ Db.ancestor_id sp ≠ k)
        story_paths.

End Spec.

(** The three state columns of a row. *)
Definition fields (r : Db.Row)
  : option string * option string * option string :=
  (Db.stage r, Db.status r, Db.terminus r).

(** The feedback that reports a failure. *)
Definition is_error (fb : Feedback) : bool :=
  match fb with
  | StatusBar _ => false
  | Critical _ _ | Warning _ _ => true
  end.

Definition polish_warning : Feedback :=
  Warning "Notes Required"
    "Notes are required when changing status to 'polish'.".

(** What a sort by [lt] guarantees for two neighbours of its result: the
    second is not smaller than the first. *)
Definition ascending {A} (lt : A → A → bool) (a b : A) : Prop :=
  lt b a = false.

(** A segment written with decimal digits only, and its value. *)
Fixpoint digits (s : string) : bool :=
  match s with
  | EmptyString => true
  | String c r => Py.is_digit c && digits r
  end.

Definition all_digits (s : string) : Prop :=
  s ≠ ""%string ∧ digits s = true.

Fixpoint decimal_from (acc : Z) (s : string) : Z :=
  match s with
  | EmptyString => acc
  | String c r => decimal_from (10 * acc + Py.digit_val c) r
  end.

Definition decimal (s : string) : Z := decimal_from 0 s.

(** An id whose dot-separated segments are all written with digits, and
    the tuple of their values. *)
Definition numeric (node_id : string) : Prop :=
  Forall all_digits (Py.split_dot node_id).

Definition segments (node_id : string) : list Z :=
  decimal <$> Py.split_dot node_id.

(** The comparison made by [sort(key=lambda n: self._sort_key(n.id))]
    on ids. *)
Definition id_ltb (a b : string) : bool :=
  key_ltb (_sort_key a) (_sort_key b).

(** What the filtered view relies on: a node is stored under its id and
    its [children] are the ids of the nodes whose parent it is. *)
Definition linked (nodes : gmap string StoryNode) : Prop :=
  (∀ k n, nodes !! k = Some n → id n = k)
  ∧ (∀ k n c, nodes !! k = Some n →
              (c ∈ children n
               ↔ ∃ nc, nodes !! c = Some nc ∧ live_parent nc = Some k)).

(** The ids appended to the children of [p] while the loop runs over
    [l]. *)
Definition kids (l : list StoryNode) (p : string) : list string :=
  id <$> filter (λ n, live_parent n = Some p) l.

(** The nodes as they are after the rows were read, before any child
    is linked. *)
Definition fresh_nodes (story_nodes : gmap string Db.Row)
    (story_paths : list Db.PathRow) : list StoryNode :=
  map (λ kr, node_of_row story_paths kr.1 kr.2) (Py.ordered_items story_nodes).

(** [x] is an ancestor of [k]: it is met when walking up from [k]
    through the truthy [parent_id] of nodes that exist. *)
Inductive ancestor (nodes : gmap string StoryNode)
  : string → string → Prop :=
| ancestor_parent k n p :
    nodes !! k = Some n → live_parent n = Some p → ancestor nodes k p
| ancestor_further k n p x :
    nodes !! k = Some n → live_parent n = Some p →
    ancestor nodes p x → ancestor nodes k x.

(** [x] is displayed below the top-level node [r]: a chain of visible
    nodes leads from [r] down to [x]. *)
Inductive reach (nodes : gmap string StoryNode) (visible : gset string)
    (r : string) : string → Prop :=
| reach_self :
    r ∈ visible → is_Some (nodes !! r) → reach nodes visible r r
| reach_child x c nc :
    reach nodes visible r x → nodes !! c = Some nc →
    live_parent nc = Some x → c ∈ visible → reach nodes visible r c.

(** The role given to a displayed node. *)
Definition role_of (faded : gset string) (x : string) : Role :=
  if bool_decide (x ∈ faded) then Faded else Normal.

(** The targets that [_update_node_status_in_db] accepts. *)
Definition recognised (target : string) : Prop :=
  target ∈ TERMINUS_VALUES ++ STATUS_VALUES_HOLDS ++ STAGE_VALUES.

(** The four dictionaries, one after the other. *)
Definition all_transitions : list (string * list string) :=
  FILTER_TRANSITIONS ++ RESPOND_TRANSITIONS
  ++ ESCALATED_FILTER_TRANSITIONS ++ ESCALATED_RESPOND_TRANSITIONS.

(** The filter boxes are those that [_setup_ui] creates. *)
Definition boxes_of_setup (app : App) : Prop :=
  dom (status_checkboxes app) = (list_to_set checkbox_order : gset string).

(** The filter-mode settings are up to date. *)
Definition settings_saved (a : App) : Prop :=
  respond_mode_active a = false
  ∧ _checkbox_change_internal a = false
  ∧ _saved_checkbox_states a = status_checkboxes a.

(** Each id of the list is the truthy [parent_id] of the node stored
    under the next one. *)
Fixpoint parent_chain (nodes : gmap string StoryNode) (l : list string)
  : Prop :=
  match l with
  | a :: (b :: _) as r =>
      (∃ nb, nodes !! b = Some nb ∧ live_parent nb = Some a)
      ∧ parent_chain nodes r
  | _ => True
  end.

(** The nodes that the board, the swim lanes and the heatmap leave
    out: the root and the nodes with a terminus. *)
Definition in_progress (n : StoryNode) : Prop :=
  id n ≠ "root"%string ∧ Py.truthy (terminus n) = false.

(** ** Sample data *)

Definition row_escalated : Db.Row :=
  Db.mkRow (Some "Login"%string) (Some "concept"%string)
    (Some "escalated"%string) None None 0 None.

Definition clock0 : Clock := mkClock "2025-03-01 09:30" "2025-03-01T09:30:12".

Definition row_testing : Db.Row :=
  Db.mkRow (Some "Export"%string) (Some "testing"%string)
    (Some "ready"%string) None None 0 None.

(** A story that was rejected and is then moved back to the concept
    stage, through the command line and through the GUI. *)
Definition row_rejected : Db.Row :=
  Db.mkRow (Some "Import"%string) (Some "implementing"%string)
    (Some "ready"%string) (Some "rejected"%string) None 0 None.


Definition row_concept_escalated : Db.Row :=
  Db.mkRow (Some "Search"%string) (Some "concept"%string)
    (Some "escalated"%string) None None 0 None.

Definition nodes_one : gmap string StoryNode :=
  _load_nodes_from_db {["3" := row_concept_escalated]} [].

Definition path_row (a d : string) (n : Z) : Db.PathRow := Db.mkPath a d n.

(** A chain root > 1 > 1.1 > 1.1.1 and its full closure table. *)
Definition chain_nodes : gmap string Db.Row :=
  <["root" := row_testing]> (<["1" := row_testing]>
  (<["1.1" := row_testing]> {["1.1.1" := row_testing]})).

Definition chain_self_rows : list Db.PathRow :=
  [path_row "root" "root" 0; path_row "1" "1" 0; path_row "1.1" "1.1" 0;
   path_row "1.1.1" "1.1.1" 0].

Definition chain_paths : list Db.PathRow :=
  chain_self_rows ++
  [path_row "root" "1" 1; path_row "1" "1.1" 1; path_row "root" "1.1" 2;
   path_row "1.1" "1.1.1" 1; path_row "1" "1.1.1" 2; path_row "root" "1.1.1" 3].

(** The same table without the row that links 1.1 to its parent. *)
Definition chain_paths_missing_parent_row : list Db.PathRow :=
  chain_self_rows ++
  [path_row "root" "1" 1; path_row "root" "1.1" 2;
   path_row "1.1" "1.1.1" 1; path_row "1" "1.1.1" 2; path_row "root" "1.1.1" 3].

(** The table in which 1.1 is reached by its own row only. *)
Definition chain_paths_self_only : list Db.PathRow :=
  chain_self_rows ++
  [path_row "root" "1" 1; path_row "1.1" "1.1.1" 1; path_row "1" "1.1.1" 2;
   path_row "root" "1.1.1" 3].

(** The table without any row that ends in 1.1. *)
Definition chain_paths_unreached : list Db.PathRow :=
  [path_row "root" "root" 0; path_row "1" "1" 0; path_row "1.1.1" "1.1.1" 0;
   path_row "root" "1" 1; path_row "1.1" "1.1.1" 1; path_row "1" "1.1.1" 2;
   path_row "root" "1.1.1" 3].

Definition row_of (stage status : string) : Db.Row :=
  Db.mkRow (Some "Story"%string) (Some stage) (Some status) None None 0 None.

(** A chain root > 1 > 1.1 > 1.1.1 in which only 1.1 is blocked in
    testing, with the boxes "testing" and "blocked" checked. *)
Definition view_rows : gmap string Db.Row :=
  <["root" := row_of "epic" "ready"]> (<["1" := row_of "concept" "ready"]>
  (<["1.1" := row_of "testing" "blocked"]>
  {["1.1.1" := row_of "concept" "ready"]})).

Definition view_boxes : gmap string bool :=
  <["testing" := true]> (<["blocked" := true]> {["concept" := false]}).

Definition view_rank (k : string) : nat :=
  if String.eqb k "root" then 0 else String.length k.

(** A stored node in stage concept that is on no hold. *)
Definition node_concept : StoryNode :=
  node_of_row [] "3" (row_of "concept" "ready").

(** Three loaded nodes, two of them escalated. *)
Definition two_escalated : gmap string StoryNode :=
  _load_nodes_from_db
    (<["2" := row_of "testing" "escalated"]>
       (<["10" := row_of "concept" "escalated"]>
          {["3" := row_of "concept" "ready"]})) [].

(** Three loaded nodes, two of them blocked. *)
Definition two_blocked : gmap string StoryNode :=
  _load_nodes_from_db
    (<["2" := row_of "testing" "blocked"]>
       (<["10" := row_of "concept" "blocked"]>
          {["3" := row_of "concept" "ready"]})) [].

(** Filter mode with every box but "archived" checked: the first toggle
    after the start, then a click on "archived". *)
Definition app_filtering : App :=
  click_checkbox "archived" (_toggle_respond_mode initial_app).

(** * Properties *)

(** ** Truthiness, membership and updates of absent keys *)

Section Basics.

Lemma truthy_str_true (s : string) : s ≠ ""%string → Py.truthy_str s = true.
Proof.
  intros Hs. unfold Py.truthy_str.
  destruct (String.eqb_spec s ""); [contradiction | reflexivity].
Qed.

Lemma truthy_str_iff (s : string) : Py.truthy_str s = true ↔ s ≠ ""%string.
Proof.
  unfold Py.truthy_str. destruct (String.eqb_spec s ""); split; intros; try done.
Qed.

Lemma or_default_nonempty (s d : string) :
  s ≠ ""%string → Py.or_default (Some s) d = s.
Proof. intros Hs. simpl. by rewrite truthy_str_true. Qed.

(** The value loaded into a node depends on the row through its three
    state columns only. *)
Lemma effective_status_sql_ext (r r' : Db.Row) :
  Db.terminus r' = Db.terminus r → Db.status r' = Db.status r →
  Db.stage r' = Db.stage r →
  effective_status_sql r' = effective_status_sql r.
Proof. unfold effective_status_sql. by intros -> -> ->. Qed.

Lemma member_true (x : string) (l : list string) :
  Py.member x l = true ↔ x ∈ l.
Proof. unfold Py.member. apply bool_decide_eq_true. Qed.

Lemma member_false (x : string) (l : list string) :
  Py.member x l = false ↔ x ∉ l.
Proof. unfold Py.member. apply bool_decide_eq_false. Qed.


End Basics.

(** ** The stable sort *)

Section SortFacts.

Context {A : Type} (lt : A → A → bool).

Lemma insert_by_perm (x : A) (l : list A) : Py.insert_by lt x l ≡ₚ x :: l.
Proof.
  induction l as [|y r IH]; simpl; [done|].
  destruct (lt y x); [|done].
  rewrite IH. apply Permutation_swap.
Qed.

Lemma sort_by_perm (l : list A) : Py.sort_by lt l ≡ₚ l.
Proof.
  induction l as [|x l IH]; simpl; [done|].
  rewrite insert_by_perm. by constructor.
Qed.

Lemma elem_of_sort_by (x : A) (l : list A) : x ∈ Py.sort_by lt l ↔ x ∈ l.
Proof. by rewrite sort_by_perm. Qed.

Hypothesis lt_asym : ∀ a b, lt a b = true → lt b a = false.

Lemma insert_by_sorted (x : A) (l : list A) :
  Sorted (ascending lt) l → Sorted (ascending lt) (Py.insert_by lt x l).
Proof.
  induction l as [|y r IH]; simpl; intros Hs.
  - repeat constructor.
  - destruct (lt y x) eqn:Hyx.
    + apply Sorted_inv in Hs as [Hr Hhd]. constructor; [by apply IH|].
      destruct r as [|z r]; simpl.
      * constructor. unfold ascending. by apply lt_asym.
      * destruct (lt z x); constructor.
        -- by inversion Hhd.
        -- unfold ascending. by apply lt_asym.
    + constructor; [done|]. by constructor.
Qed.

Lemma sort_by_sorted (l : list A) : Sorted (ascending lt) (Py.sort_by lt l).
Proof.
  induction l as [|x l IH]; simpl; [constructor|].
  by apply insert_by_sorted.
Qed.

End SortFacts.

Lemma string_ltb_asym (a b : string) :
  String.ltb a b = true → String.ltb b a = false.
Proof.
  unfold String.ltb. rewrite (String.compare_antisym b a).
  by destruct (String.compare a b).
Qed.

(** ** The loaded nodes *)

Section Loading.

Lemma set_children_same (n : StoryNode) : set_children n (children n) = n.
Proof. by destruct n. Qed.

Lemma link_child_lookup (m : gmap string StoryNode) (n : StoryNode) (p : string) :
  link_child m n !! p
  = (λ pn, set_children pn (children pn ++ kids [n] p)) <$> m !! p.
Proof.
  unfold link_child, kids. rewrite filter_cons, filter_nil.
  destruct (live_parent n) as [q|] eqn:Hq.
  - destruct (decide (q = p)) as [->|Hne].
    + rewrite decide_True by done. simpl.
      case_bool_decide as Hd.
      * by rewrite lookup_alter_eq.
      * apply not_elem_of_dom in Hd. by rewrite Hd.
    + rewrite decide_False by congruence. simpl.
      assert (Hsame : ∀ o : option StoryNode,
                (λ pn, set_children pn (children pn ++ [])) <$> o = o).
      { intros [pn|]; simpl; [|done].
        by rewrite app_nil_r, set_children_same. }
      rewrite Hsame. case_bool_decide; [by rewrite lookup_alter_ne|done].
  - rewrite decide_False by done. simpl.
    destruct (m !! p) as [pn|]; simpl; [|done].
    by rewrite app_nil_r, set_children_same.
Qed.

Lemma foldl_link_child_lookup (l : list StoryNode)
    (m : gmap string StoryNode) (p : string) :
  foldl link_child m l !! p
  = (λ pn, set_children pn (children pn ++ kids l p)) <$> m !! p.
Proof.
  revert m. induction l as [|n l IH]; intros m; simpl.
  - unfold kids. simpl. destruct (m !! p) as [pn|]; simpl; [|done].
    by rewrite app_nil_r, set_children_same.
  - rewrite IH, link_child_lookup.
    destruct (m !! p) as [pn|]; simpl; [|done].
    f_equal. unfold kids. rewrite (filter_cons _ n l), (filter_cons _ n []).
    rewrite filter_nil.
    destruct (decide (live_parent n = Some p)); simpl;
      by rewrite <- ?app_assoc, ?app_nil_r.
Qed.

Lemma foldl_insert_lookup (l : list StoryNode) (m : gmap string StoryNode)
    (k : string) (n : StoryNode) :
  NoDup (id <$> l) →
  (foldl (λ m n, <[id n := n]> m) m l !! k = Some n)
  ↔ ((n ∈ l ∧ id n = k) ∨ ((k ∉ id <$> l) ∧ m !! k = Some n)).
Proof.
  revert m. induction l as [|x l IH]; intros m Hnd;
    rewrite ?fmap_cons in *; cbn [foldl].
  - split.
    + intros Hm. right. split; [apply not_elem_of_nil | done].
    + intros [[Hin _]|[_ Hm]]; [by apply elem_of_nil in Hin | done].
  - apply NoDup_cons in Hnd as [Hx Hnd]. rewrite (IH _ Hnd). split.
    + intros [[Hin Hid]|[Hk Hm]].
      * left. split; [by right | done].
      * destruct (decide (id x = k)) as [He|Hne].
        -- rewrite He, lookup_insert_eq in Hm. injection Hm as <-.
           left. split; [by left | done].
        -- rewrite lookup_insert_ne in Hm by done. right.
           split; [|done]. intros [?|?]%elem_of_cons; [congruence | done].
    + intros [[Hin Hid]|[Hk Hm]].
      * apply elem_of_cons in Hin as [->|Hin].
        -- right. split; [by rewrite <- Hid|].
           by rewrite Hid, lookup_insert_eq.
        -- left. by split.
      * apply not_elem_of_cons in Hk as [Hne Hk]. right.
        split; [done|]. by rewrite lookup_insert_ne.
Qed.

Lemma elem_of_ordered_items {B} (m : gmap string B) (k : string) (v : B) :
  (k, v) ∈ Py.ordered_items m ↔ m !! k = Some v.
Proof.
  unfold Py.ordered_items. by rewrite elem_of_sort_by, elem_of_map_to_list.
Qed.

Lemma ordered_items_NoDup {B} (m : gmap string B) :
  NoDup (Py.ordered_items m).*1.
Proof.
  unfold Py.ordered_items. rewrite sort_by_perm. apply NoDup_fst_map_to_list.
Qed.

Lemma elem_of_fresh_nodes story_nodes story_paths (n : StoryNode) :
  n ∈ fresh_nodes story_nodes story_paths
  ↔ ∃ r, story_nodes !! id n = Some r ∧ n = node_of_row story_paths (id n) r.
Proof.
  unfold fresh_nodes. rewrite list_elem_of_fmap. split.
  - intros ([k r] & -> & Hin). apply elem_of_ordered_items in Hin. by exists r.
  - intros (r & Hr & Hn). exists (id n, r). split; [done|].
    by apply elem_of_ordered_items.
Qed.

Lemma fresh_nodes_ids story_nodes story_paths :
  id <$> fresh_nodes story_nodes story_paths
  = (Py.ordered_items story_nodes).*1.
Proof.
  unfold fresh_nodes. rewrite <- list_fmap_compose. by apply list_fmap_ext.
Qed.

(** A loaded node is the node of its row with its sorted children. *)
Lemma load_lookup story_nodes story_paths (k : string) :
  _load_nodes_from_db story_nodes story_paths !! k
  = (λ r, set_children (node_of_row story_paths k r)
            (sort_nodes (λ c, c) (kids (fresh_nodes story_nodes story_paths) k)))
      <$> story_nodes !! k.
Proof.
  unfold _load_nodes_from_db. fold (fresh_nodes story_nodes story_paths).
  rewrite lookup_fmap, foldl_link_child_lookup.
  set (l := fresh_nodes story_nodes story_paths).
  assert (Hnd : NoDup (id <$> l)).
  { subst l. rewrite fresh_nodes_ids. apply ordered_items_NoDup. }
  destruct (story_nodes !! k) as [r|] eqn:Hr.
  - assert (foldl (λ m n, <[id n := n]> m) ∅ l !! k
            = Some (node_of_row story_paths k r)) as ->.
    { apply foldl_insert_lookup; [done|]. left. split; [|done].
      apply elem_of_fresh_nodes. by exists r. }
    done.
  - destruct (foldl (λ m n, <[id n := n]> m) ∅ l !! k) as [n|] eqn:Hn; [|done].
    apply foldl_insert_lookup in Hn as [[Hin Hid]|[_ Hm]]; [|done|done].
    apply elem_of_fresh_nodes in Hin as (r & Hr' & _). congruence.
Qed.

Lemma load_linked story_nodes story_paths :
  linked (_load_nodes_from_db story_nodes story_paths).
Proof.
  split.
  - intros k n. rewrite load_lookup. intros Hn.
    by apply fmap_Some in Hn as (r & _ & ->).
  - intros k n c. rewrite load_lookup. intros Hn.
    apply fmap_Some in Hn as (r & Hr & ->). simpl.
    unfold sort_nodes. rewrite elem_of_sort_by. unfold kids.
    rewrite list_elem_of_fmap. split.
    + intros (nc & -> & Hin). apply list_elem_of_filter in Hin as [Hp Hin].
      apply elem_of_fresh_nodes in Hin as (rc & Hrc & Hnc).
      eexists. rewrite load_lookup, Hrc. split; [done|].
      simpl. by rewrite Hnc in Hp.
    + intros (nc & Hnc & Hp). rewrite load_lookup in Hnc.
      apply fmap_Some in Hnc as (rc & Hrc & ->).
      exists (node_of_row story_paths c rc). split; [done|].
      apply list_elem_of_filter. split; [done|].
      apply elem_of_fresh_nodes. by exists rc.
Qed.

End Loading.

(** ** Effective status *)

Section EffectiveStatus.

(** C1: for a node whose stage and status are set and whose state
    columns hold no empty text, the effective status of the node loaded
    by [_load_nodes_from_db] and the label printed by [list_orphans.py]
    are both the terminus when there is one, else the status when it is
    not "ready", else the stage; the loaded value depends on the three
    columns alone. *)
Theorem effective_status_priority
    (story_nodes : gmap string Db.Row) (story_paths : list Db.PathRow)
    (k : string) (r : Db.Row) (g s : string) :
  story_nodes !! k = Some r →
  Db.stage r = Some g → Db.status r = Some s →
  g ≠ ""%string → s ≠ ""%string → Db.terminus r ≠ Some ""%string →
  (∃ n, _load_nodes_from_db story_nodes story_paths !! k = Some n
        ∧ terminus n = Db.terminus r ∧ status n = s ∧ stage n = g
        ∧ effective_status n
          = Spec.effective_status (terminus n) (status n) (stage n))
  ∧ ListOrphans.display_status (Db.stage r) (Db.status r) (Db.terminus r)
    = Some (Spec.effective_status (Db.terminus r) s g)
  ∧ (∀ paths' k' r',
       Db.terminus r' = Db.terminus r → Db.status r' = Db.status r →
       Db.stage r' = Db.stage r →
       effective_status (node_of_row paths' k' r')
         = effective_status (node_of_row story_paths k r)).
Proof.
  intros Hk Hg Hs Hgne Hsne Ht. split; [|split].
  - rewrite load_lookup, Hk. simpl. eexists. split; [done|]. simpl.
    rewrite Hg, Hs, !or_default_nonempty by done.
    repeat split; try done.
    unfold Spec.effective_status, effective_status_sql. rewrite Hg, Hs.
    destruct (Db.terminus r) as [t|] eqn:Et; simpl.
    + rewrite truthy_str_true; [done | congruence].
    + destruct (String.eqb_spec s "ready") as [->|Hne];
        case_bool_decide; try done; simpl; by rewrite truthy_str_true.
  - unfold Spec.effective_status, ListOrphans.display_status, Py.or_else.
    rewrite Hg, Hs.
    destruct (Db.terminus r) as [t|] eqn:Et; simpl.
    + rewrite truthy_str_true by congruence. simpl.
      by rewrite truthy_str_true by congruence.
    + repeat case_bool_decide; simplify_eq; try done; simpl;
        rewrite ?truthy_str_true by done; simpl;
        rewrite ?truthy_str_true by done; done.
  - intros paths' k' r' E1 E2 E3. simpl.
    by rewrite (effective_status_sql_ext r r').
Qed.

Lemma effective_status_priority_witness :
  (∃ n, _load_nodes_from_db {["1" := row_escalated]} [] !! "1"%string = Some n
        ∧ effective_status n = "escalated"%string)
  ∧ ListOrphans.display_status (Some "concept"%string)
      (Some "escalated"%string) None = Some "escalated"%string.
Proof.
  destruct (effective_status_priority {["1" := row_escalated]} [] "1"
              row_escalated "concept" "escalated")
    as ((n & Hn & Ht & Hs & Hg & He) & H2 & _);
    [apply lookup_singleton_eq | reflexivity | reflexivity
    | discriminate | discriminate | discriminate |].
  split; [|exact H2].
  exists n. split; [exact Hn|]. rewrite He, Ht, Hs, Hg. reflexivity.
Defined.

End EffectiveStatus.

(** ** The three-field update *)

Section Transitions.

(** Splits a membership in one of the literal tables into its cases. *)
Ltac table_cases H :=
  repeat (apply elem_of_cons in H as [-> | H]);
  [.. | by apply elem_of_nil in H].

Lemma stage_not_terminus (x : string) :
  x ∈ STAGE_VALUES → Py.member x TERMINUS_VALUES = false.
Proof. intros H. unfold STAGE_VALUES in H. table_cases H; reflexivity. Qed.

Lemma stage_not_hold (x : string) :
  x ∈ STAGE_VALUES → Py.member x STATUS_VALUES_HOLDS = false.
Proof. intros H. unfold STAGE_VALUES in H. table_cases H; reflexivity. Qed.

Lemma hold_not_terminus (x : string) :
  x ∈ STATUS_VALUES_HOLDS → Py.member x TERMINUS_VALUES = false.
Proof. intros H. unfold STATUS_VALUES_HOLDS in H. table_cases H; reflexivity. Qed.

Lemma new_note_entry_nonempty clk target notes :
  Py.truthy_str (new_note_entry clk target notes) = true.
Proof. unfold new_note_entry. by destruct (Py.truthy_str notes). Qed.

Lemma updated_notes_nonempty cur entry :
  Py.truthy_str entry = true → Py.truthy_str (updated_notes cur entry) = true.
Proof.
  intros He. unfold updated_notes.
  destruct (Py.truthy_str cur) eqn:Hc; [|done].
  by destruct cur.
Qed.

(** The store after an update, branch by branch. *)
Lemma update_store db_path clk db node_id target notes :
  (_update_node_status_in_db Db.pk_id db_path clk db node_id target notes).1 =
  let cur := match db !! node_id with
             | Some row => Py.or_default (Db.notes row) ""
             | None => ""%string
             end in
  let n := updated_notes cur (new_note_entry clk target notes) in
  if negb (Py.truthy db_path) then db
  else if Py.member target TERMINUS_VALUES
       then alter (set_terminus target n (iso clk)) node_id db
  else if Py.member target STATUS_VALUES_HOLDS
       then alter (set_status target n (iso clk)) node_id db
  else if Py.member target STAGE_VALUES
       then alter (set_stage target n (iso clk)) node_id db
  else db.
Proof.
  unfold _update_node_status_in_db.
  destruct (negb (Py.truthy db_path)); [done|].
  by repeat (match goal with |- context [Py.member ?x ?l] =>
               destruct (Py.member x l) end).
Qed.

(** An update touches no row but the one it names. *)
Lemma update_other db_path clk db node_id target notes k :
  k ≠ node_id →
  (_update_node_status_in_db Db.pk_id db_path clk db node_id target notes).1
    !! k
    = db !! k.
Proof.
  intros Hk. rewrite update_store. simpl.
  destruct (negb (Py.truthy db_path)); [done|].
  repeat (match goal with |- context [Py.member ?x ?l] =>
            destruct (Py.member x l) end);
    by rewrite ?lookup_alter_ne by done.
Qed.

(** The row written by the GUI for a target of the stage category. *)
Lemma gui_stage_target db_path clk db node_id target notes row :
  Py.truthy db_path = true → target ∈ STAGE_VALUES →
  db !! node_id = Some row →
  fields <$> (_update_node_status_in_db Db.pk_id db_path clk db node_id
      target notes).1
               !! node_id
    = Some (Some target, Some "ready"%string, None).
Proof.
  intros Hp Ht Hrow. rewrite update_store. simpl. rewrite Hp. simpl.
  rewrite (stage_not_terminus _ Ht), (stage_not_hold _ Ht).
  rewrite (proj2 (member_true _ _) Ht).
  by rewrite lookup_alter_eq, Hrow.
Qed.

(** On a table whose key column is [id], a transition to a target of
    the terminus category leaves the row with that terminus, status
    "ready" and its previous stage; no other row changes. *)
Lemma id_keyed_terminus_transition
    (db_path : option string) (clk : Clock) (db : gmap string Db.Row)
    (node_id target notes : string) (row : Db.Row) :
  Py.truthy db_path = true → target ∈ TERMINUS_VALUES →
  db !! node_id = Some row →
  let db' := (_update_node_status_in_db Db.pk_id db_path clk db node_id
                target notes).1 in
  (∃ row', db' !! node_id = Some row'
           ∧ Db.terminus row' = Some target
           ∧ Db.status row' = Some "ready"%string
           ∧ Db.stage row' = Db.stage row)
  ∧ ∀ k, k ≠ node_id → db' !! k = db !! k.
Proof.
  intros Hp Ht Hrow db'. split.
  - subst db'. rewrite update_store. simpl. rewrite Hp. simpl.
    rewrite (proj2 (member_true _ _) Ht).
    rewrite lookup_alter_eq, Hrow. simpl. eauto.
  - intros k Hk. by apply update_other.
Qed.


Lemma update_story_path_store db_path clk db node_id target notes :
  (_update_node_status_in_db Db.pk_story_path db_path clk db node_id target
     notes).1 = db.
Proof.
  unfold _update_node_status_in_db. by destruct (negb (Py.truthy db_path)).
Qed.

(** C2: the scenario of the specification, a node in testing that is
    shipped, on the table that [_load_nodes_from_db] reads (key column
    [story_path]): the update is not written, "Database Error" is shown,
    the row keeps terminus NULL and the node loaded again still has the
    effective status "testing".  On a table whose key column is [id] the
    same call leaves stage "testing", status "ready" and terminus
    "shipped". *)
Theorem gui_terminus_update_is_not_written :
  _update_node_status_in_db Db.pk_story_path (Some "story-tree.db"%string)
    clock0 {["8.4" := row_testing]} "8.4" "shipped" ""
  = ({["8.4" := row_testing]},
     Critical "Database Error"
       ("Failed to update status:" +:+ Py.nl +:+ "no such column: id"))
  ∧ fields row_testing
    = (Some "testing"%string, Some "ready"%string, None)
  ∧ effective_status <$>
      _load_nodes_from_db
        (_update_node_status_in_db Db.pk_story_path
           (Some "story-tree.db"%string) clock0 {["8.4" := row_testing]}
           "8.4" "shipped" "").1 [] !! "8.4"%string
    = Some "testing"%string
  ∧ fields <$> (_update_node_status_in_db Db.pk_id
                  (Some "story-tree.db"%string) clock0
                  {["8.4" := row_testing]} "8.4" "shipped" "").1
                 !! "8.4"%string
    = Some (Some "testing"%string, Some "ready"%string,
            Some "shipped"%string).
Proof. repeat split; vm_compute; reflexivity. Qed.

(** C3: the stage update of [update_status.py] sets the stage and the
    status but keeps a terminus that was set, where the GUI update of
    the same row to the same stage, on a table whose key column is
    [id], clears it. *)
Theorem cli_stage_update_keeps_terminus :
  fields <$> (UpdateStatus.update_status "2025-03-01 09:30"
                "2025-03-01 09:30:12" {["1.2" := row_rejected]}
                "1.2" "concept" None false).1 !! "1.2"%string
    = Some (Some "concept"%string, Some "ready"%string, Some "rejected"%string)
  ∧ fields <$> (_update_node_status_in_db Db.pk_id (Some "story-tree.db"%string)
                  clock0 {["1.2" := row_rejected]} "1.2" "concept" "").1
                 !! "1.2"%string
    = Some (Some "concept"%string, Some "ready"%string, None).
Proof. split; vm_compute; reflexivity. Qed.

(** The row written by the command line for a stage it accepts, without
    [--hold]: stage and status are set, the terminus is not written. *)
Lemma cli_stage_target ts now db story_id new_stage notes row :
  new_stage ∈ UpdateStatus.VALID_STAGES → db !! story_id = Some row →
  fields <$> (UpdateStatus.update_status ts now db story_id new_stage
                notes false).1 !! story_id
    = Some (Some new_stage, Some "ready"%string, Db.terminus row).
Proof.
  intros Hs Hrow. unfold UpdateStatus.update_status.
  rewrite (proj2 (member_true _ _) Hs). simpl. rewrite Hrow. simpl.
  by rewrite lookup_alter_eq, Hrow.
Qed.

(** *** Rejected requests *)




(** *** The mandatory note *)

(** A dialog for "polish" shows nothing but the "Notes Required"
    warning, and is accepted only with the stripped, non-empty text of
    one of the confirmations. *)
Lemma dialog_polish_cases actions res shown :
  dialog_exec "polish" true actions = (res, shown) →
  Forall (λ fb, fb = polish_warning) shown
  ∧ match res with
    | Accepted n =>
        ∃ text, ClickOk text ∈ actions ∧ n = Py.strip text ∧ n ≠ ""%string
    | Rejected => True
    end.
Proof.
  revert res shown.
  induction actions as [|[text|] rest IH]; intros res shown; simpl.
  - by intros [= <- <-].
  - unfold _on_confirm.
    destruct (Py.truthy_str (Py.strip text)) eqn:Ht; simpl.
    + intros [= <- <-]. split; [done|]. exists text. split; [left|].
      split; [done|]. by apply truthy_str_iff.
    + destruct (dialog_exec "polish" true rest) as [res' shown'] eqn:Hd.
      intros [= <- <-]. destruct (IH res' shown' eq_refl) as [Hall Hres].
      split; [by constructor|]. destruct res' as [n|]; [|done].
      destruct Hres as (t & Hin & Hn & Hne).
      exists t. split; [by right | done].
  - by intros [= <- <-].
Qed.

(** C5: in [_change_node_status], a confirmation of the target "polish"
    with a note that is empty after [strip()] is answered with the
    "Notes Required" warning and leaves the store unchanged; whatever the
    user does, either the update is not run and the store is left as it
    was, or it is run once, with the stripped, non-empty note of one of
    the confirmations. *)
Theorem polish_requires_note
    (pk_column : Db.KeyColumn)
    (nodes : gmap string StoryNode) (db_path : option string) (clk : Clock)
    (db : gmap string Db.Row) (node_id text : string)
    (actions : list UserAction) :
  (Py.strip text = ""%string → is_Some (nodes !! node_id) →
   _change_node_status pk_column nodes db_path clk db node_id "polish"
     [ClickOk text]
     = (db, [polish_warning]))
  ∧ ((∃ shown,
        _change_node_status pk_column nodes db_path clk db node_id "polish"
          actions
          = (db, shown)
        ∧ Forall (λ fb, fb = polish_warning) shown)
     ∨ (∃ t shown,
          ClickOk t ∈ actions ∧ Py.strip t ≠ ""%string
          ∧ Forall (λ fb, fb = polish_warning) shown
          ∧ _change_node_status pk_column nodes db_path clk db node_id
              "polish" actions
            = let out := _update_node_status_in_db pk_column db_path clk db
                           node_id "polish" (Py.strip t) in
              (out.1, shown ++ [out.2]))).
Proof.
  split.
  - intros Ht [n Hn]. unfold _change_node_status. rewrite Hn. simpl.
    unfold _on_confirm. by rewrite Ht.
  - unfold _change_node_status.
    destruct (nodes !! node_id) as [n|]; [|left; by exists []].
    change (String.eqb "polish" "polish") with true.
    destruct (dialog_exec "polish" true actions) as [res shown] eqn:Hd.
    destruct (dialog_polish_cases _ _ _ Hd) as [Hall Hres].
    destruct res as [notes|]; [right|left; by exists shown].
    destruct Hres as (t & Hin & -> & Hne).
    rewrite (or_default_nonempty _ _ Hne). exists t, shown.
    repeat split; [done..|].
    by destruct (_update_node_status_in_db pk_column db_path clk db node_id
                   "polish" (Py.strip t)).
Qed.

(** The scenario of the specification: an escalated concept is sent to
    polish with a blank note. *)
Lemma polish_requires_note_witness :
  _change_node_status Db.pk_story_path nodes_one
    (Some "story-tree.db"%string) clock0
    {["3" := row_concept_escalated]} "3" "polish" [ClickOk "  "]
    = ({["3" := row_concept_escalated]}, [polish_warning]).
Proof.
  apply (polish_requires_note Db.pk_story_path nodes_one
           (Some "story-tree.db"%string)
           clock0 {["3" := row_concept_escalated]} "3" "  " []).
  - reflexivity.
  - vm_compute. eexists. reflexivity.
Defined.

(** With a real note the update is run: on a table whose key column is
    [id] the row is written, on the table that the loader reads it is
    reported as failed. *)
Example polish_with_note :
  fields <$> (_change_node_status Db.pk_id nodes_one
                (Some "story-tree.db"%string)
                clock0 {["3" := row_concept_escalated]} "3" "polish"
                [ClickOk "  "; ClickOk " too slow "]).1 !! "3"%string
  = Some (Some "concept"%string, Some "polish"%string, None)
  ∧ _change_node_status Db.pk_story_path nodes_one
      (Some "story-tree.db"%string)
      clock0 {["3" := row_concept_escalated]} "3" "polish"
      [ClickOk "  "; ClickOk " too slow "]
    = ({["3" := row_concept_escalated]},
       [polish_warning;
        Critical "Database Error"
          ("Failed to update status:" +:+ Py.nl +:+ "no such column: id")]).
Proof. split; by vm_compute. Qed.

(** *** Repeating a transition *)


(** On a table whose key column is [id], the second application of a
    recognised target to an existing row appends one more entry to the
    notes. *)
Lemma id_keyed_notes_accumulate
    (db_path : option string) (clk1 clk2 : Clock) (db : gmap string Db.Row)
    (node_id target n1 n2 : string) :
  let db1 := (_update_node_status_in_db Db.pk_id db_path clk1 db node_id
                target n1).1 in
  let db2 := (_update_node_status_in_db Db.pk_id db_path clk2 db1 node_id
                target n2).1 in
  Py.truthy db_path = true →
  target ∈ TERMINUS_VALUES ++ STATUS_VALUES_HOLDS ++ STAGE_VALUES →
  is_Some (db !! node_id) →
  ∃ m, Db.notes <$> db1 !! node_id = Some (Some m)
       ∧ Db.notes <$> db2 !! node_id
         = Some (Some (m +:+ Py.nl +:+ new_note_entry clk2 target n2)).
Proof.
  intros db1 db2. subst db1 db2.
  intros Hp Ht [row Hrow]. rewrite !update_store. simpl. rewrite Hp. simpl.
  set (e1 := new_note_entry clk1 target n1).
  set (e2 := new_note_entry clk2 target n2).
  set (m := updated_notes (Py.or_default (Db.notes row) "") e1).
  assert (Hm : Py.truthy_str m = true)
    by apply updated_notes_nonempty, new_note_entry_nonempty.
  exists m.
  assert (Hcat : Py.member target TERMINUS_VALUES = true
                 ∨ Py.member target TERMINUS_VALUES = false
                   ∧ (Py.member target STATUS_VALUES_HOLDS = true
                      ∨ Py.member target STATUS_VALUES_HOLDS = false
                        ∧ Py.member target STAGE_VALUES = true)).
  { rewrite !elem_of_app in Ht.
    destruct (Py.member target TERMINUS_VALUES) eqn:E1; [by left|right].
    split; [done|].
    destruct (Py.member target STATUS_VALUES_HOLDS) eqn:E2; [by left|right].
    split; [done|].
    apply member_false in E1, E2. apply member_true.
    destruct Ht as [?|[?|?]]; done. }
  destruct Hcat as [-> | [-> [-> | [-> ->]]]].
  all: rewrite !lookup_alter_eq, Hrow; simpl.
  all: fold m; rewrite Hm; split; [done|].
  all: unfold updated_notes at 1; by rewrite Hm.
Qed.


End Transitions.

(** ** The integrity tools *)

Section Arborist.

(** On a tree that misses one closure row of a mid-level node the tool
    lists nothing, and a node that only its own row reaches, an orphan
    in the words of the specification, is not listed either. *)
Lemma orphans_ignores_partial_loss :
  (ListOrphans.orphans chain_nodes chain_paths_missing_parent_row).*1 = []
  ∧ Spec.is_orphan chain_paths_self_only "1.1"
  ∧ (ListOrphans.orphans chain_nodes chain_paths_self_only).*1 = [].
Proof.
  split; [by vm_compute|]. split; [|by vm_compute].
  unfold Spec.is_orphan. split; [done|].
  apply (bool_decide_unpack _). by vm_compute.
Qed.

Lemma orphans_elem (story_nodes : gmap string Db.Row)
    (story_paths : list Db.PathRow) (k : string) :
  k ∈ (ListOrphans.orphans story_nodes story_paths).*1
  ↔ k ∈ dom story_nodes ∧ k ≠ "root"%string
    ∧ ∀ sp, sp ∈ story_paths → Db.descendant_id sp ≠ k.
Proof.
  unfold ListOrphans.orphans. rewrite list_elem_of_fmap. split.
  - intros ([k' r] & -> & Hin). simpl.
    apply elem_of_sort_by, list_elem_of_filter in Hin as [[Hr Hex] Hin].
    simpl in *. apply elem_of_map_to_list in Hin.
    split; [by apply elem_of_dom|]. split; [done|].
    intros sp Hsp Hd. apply Hex, Exists_exists. eauto.
  - intros (Hdom & Hr & Hno). apply elem_of_dom in Hdom as [r Hk].
    exists (k, r). split; [done|].
    apply elem_of_sort_by, list_elem_of_filter. split.
    + simpl. split; [done|]. rewrite Exists_exists.
      intros (sp & Hsp & Hd). by apply (Hno sp).
    + by apply elem_of_map_to_list.
Qed.

Lemma orphans_NoDup (story_nodes : gmap string Db.Row)
    (story_paths : list Db.PathRow) :
  NoDup (ListOrphans.orphans story_nodes story_paths).*1.
Proof.
  unfold ListOrphans.orphans. rewrite sort_by_perm.
  eapply sublist_NoDup; [apply (NoDup_fst_map_to_list story_nodes)|].
  apply fmap_sublist, sublist_filter.
Qed.

Lemma fst_sorted {B} (l : list (string * B)) :
  Sorted (ascending (λ a b : string * B, String.ltb a.1 b.1)) l →
  Sorted (ascending String.ltb) l.*1.
Proof.
  induction 1 as [|x l Hs IH Hhd]; simpl; constructor; [done|].
  destruct Hhd; simpl; by constructor.
Qed.

(** C7: the orphan listing returns, in ascending order and without
    repetition, exactly the ids of the nodes other than "root" that no
    row of the closure table has as its descendant (the node's own row
    counts); with [--ids-only] these ids are what is printed; on a tree
    in which one node is reached by no closure row and every other node
    is, the listing is that node's id alone. *)
Theorem orphans_are_nodes_without_closure_rows
    (story_nodes : gmap string Db.Row) (story_paths : list Db.PathRow) :
  let ids := (ListOrphans.orphans story_nodes story_paths).*1 in
  (∀ k, k ∈ ids
        ↔ k ∈ dom story_nodes ∧ k ≠ "root"%string
          ∧ ∀ sp, sp ∈ story_paths → Db.descendant_id sp ≠ k)
  ∧ NoDup ids
  ∧ Sorted (ascending String.ltb) ids
  ∧ (ListOrphans.main ["--ids-only"%string] story_nodes story_paths).1 = ids
  ∧ (∀ k, k ∈ dom story_nodes → k ≠ "root"%string →
          (∀ sp, sp ∈ story_paths → Db.descendant_id sp ≠ k) →
          (∀ k', k' ∈ dom story_nodes → k' ≠ "root"%string → k' ≠ k →
                 ∃ sp, sp ∈ story_paths ∧ Db.descendant_id sp = k') →
          ids = [k]).
Proof.
  intros ids. split; [apply orphans_elem|].
  split; [apply orphans_NoDup|]. split; [|split].
  - subst ids. unfold ListOrphans.orphans.
    apply fst_sorted, sort_by_sorted. intros a b. apply string_ltb_asym.
  - subst ids. unfold ListOrphans.main.
    change (Py.member "--ids-only" ["--ids-only"%string]) with true.
    by destruct (ListOrphans.orphans story_nodes story_paths).
  - intros k Hdom Hr Hno Hothers.
    assert (Hel : ∀ x, x ∈ ids ↔ x = k).
    { intros x. subst ids. rewrite orphans_elem. split.
      - intros (Hx & Hxr & Hxno). destruct (decide (x = k)) as [|Hne]; [done|].
        destruct (Hothers x Hx Hxr Hne) as (sp & Hsp & Hd).
        by destruct (Hxno sp Hsp).
      - by intros ->. }
    pose proof (orphans_NoDup story_nodes story_paths) as Hnd.
    fold ids in Hnd. clearbody ids.
    destruct ids as [|a [|b rest]].
    + pose proof (proj2 (Hel k) eq_refl) as Hin. by apply elem_of_nil in Hin.
    + f_equal. apply Hel. by left.
    + assert (a = k) as -> by (apply Hel; by left).
      assert (b = k) as -> by (apply Hel; right; by left).
      apply NoDup_cons in Hnd as [Hnotin _]. destruct Hnotin. by left.
Qed.

Lemma orphans_are_nodes_without_closure_rows_witness :
  (ListOrphans.orphans chain_nodes chain_paths_unreached).*1 = ["1.1"%string].
Proof.
  destruct (orphans_are_nodes_without_closure_rows chain_nodes
              chain_paths_unreached) as (_ & _ & _ & _ & H).
  apply (H "1.1"%string).
  - apply (bool_decide_unpack _). by vm_compute.
  - discriminate.
  - apply Forall_forall. apply (bool_decide_unpack _). by vm_compute.
  - intros k' Hk' Hroot Hne. unfold chain_nodes in Hk'.
    rewrite !dom_insert_L, dom_singleton_L in Hk'.
    rewrite !elem_of_union, !elem_of_singleton in Hk'.
    destruct Hk' as [-> | [-> | [-> | ->]]]; [done | | done | ].
    + exists (path_row "1" "1" 0). split; [repeat constructor | reflexivity].
    + exists (path_row "1.1.1" "1.1.1" 0). split; [repeat constructor | reflexivity].
Defined.

(** *** Exit codes *)

(** The orphan listing finds an orphan and still exits with 0. *)
Lemma list_orphans_exits_zero_with_orphans :
  (ListOrphans.orphans chain_nodes chain_paths_unreached).*1 = ["1.1"%string]
  ∧ (ListOrphans.main [] chain_nodes chain_paths_unreached).2 = 0%Z
  ∧ (ListOrphans.main [] chain_nodes chain_paths_unreached).2 ≠ 1%Z.
Proof. repeat split; by vm_compute. Qed.

Lemma total_issues_zero {Issue} (issues : list (string * list Issue)) :
  TreeHealth.total_issues Issue issues = 0
  ↔ Forall (λ cat, cat.2 = []) issues.
Proof.
  induction issues as [|[c items] rest IH]; simpl.
  - split; [constructor | done].
  - rewrite Forall_cons. simpl. rewrite <- IH.
    destruct items; simpl; [tauto|]. split; [lia | by intros [? _]].
Qed.

(** C8: the health report exits with 0 when no category holds an
    issue and with 1 otherwise; the orphan listing exits with 0 whether
    or not it found orphans. *)
Theorem exit_codes {Issue : Type} (issues : list (string * list Issue))
    (argv : list string) (story_nodes : gmap string Db.Row)
    (story_paths : list Db.PathRow) :
  (Forall (λ cat, cat.2 = []) issues → TreeHealth.main Issue issues = 0%Z)
  ∧ (¬ Forall (λ cat, cat.2 = []) issues → TreeHealth.main Issue issues = 1%Z)
  ∧ (ListOrphans.main argv story_nodes story_paths).2 = 0%Z.
Proof.
  split; [|split].
  - intros H. apply total_issues_zero in H. unfold TreeHealth.main.
    by rewrite H.
  - intros H. unfold TreeHealth.main.
    destruct (Nat.eqb_spec (TreeHealth.total_issues Issue issues) 0) as [E|E];
      [|done].
    by apply total_issues_zero in E.
  - unfold ListOrphans.main.
    destruct (ListOrphans.orphans story_nodes story_paths);
      by destruct (Py.member "--ids-only" argv).
Qed.

Lemma exit_codes_witness :
  TreeHealth.main string [("orphans"%string, []); ("cycles"%string, [])] = 0%Z
  ∧ TreeHealth.main string
      [("orphans"%string, ["1.1"%string]); ("cycles"%string, [])] = 1%Z.
Proof.
  split.
  - apply (exit_codes [("orphans"%string, []); ("cycles"%string, [])]
             [] ∅ []).
    repeat constructor.
  - apply (exit_codes
             [("orphans"%string, ["1.1"%string]); ("cycles"%string, [])]
             [] ∅ []).
    intros H. apply Forall_cons in H as [H _]. discriminate H.
Defined.

End Arborist.

(** ** The lineage-aware order *)

Section SortKeys.

Lemma digit_not_space (c : ascii) :
  Py.is_digit c = true → Py.is_c_space c = false.
Proof.
  unfold Py.is_digit, Py.is_c_space. generalize (nat_of_ascii c). intros n.
  rewrite andb_true_iff, !Nat.leb_le. intros [H1 H2].
  apply orb_false_iff. split.
  - apply andb_false_iff. right. apply Nat.leb_gt. lia.
  - apply Nat.eqb_neq. lia.
Qed.

Lemma drop_trailing_spaces_digits (s : string) :
  digits s = true → Py.drop_trailing_spaces s = s.
Proof.
  induction s as [|c r IH]; simpl; [done|].
  intros [Hc Hr]%andb_true_iff. rewrite (IH Hr).
  destruct r; [|done]. by rewrite (digit_not_space _ Hc).
Qed.

Lemma skip_spaces_digits (s : string) :
  digits s = true → Py.skip_spaces s = s.
Proof.
  destruct s as [|c r]; simpl; [done|].
  intros [Hc _]%andb_true_iff. by rewrite (digit_not_space _ Hc).
Qed.

Lemma parse_digits_all (s : string) (acc : Z) (prev : bool) :
  digits s = true → s ≠ ""%string →
  Py.parse_digits s acc prev = Some (decimal_from acc s).
Proof.
  revert acc prev. induction s as [|c r IH]; intros acc prev Hs Hne; [done|].
  simpl in *. apply andb_true_iff in Hs as [Hc Hr]. rewrite Hc.
  destruct r as [|c' r']; [done|]. by apply IH.
Qed.

(** [int()] reads a run of digits as its decimal value. *)
Lemma int_digits (s : string) : all_digits s → Py.int s = Some (decimal s).
Proof.
  intros [Hne Hs]. unfold Py.int, decimal.
  rewrite (skip_spaces_digits _ Hs), (drop_trailing_spaces_digits _ Hs).
  rewrite <- (parse_digits_all s 0 false Hs Hne).
  destruct s as [|c r]; [done|]. simpl in Hs.
  apply andb_true_iff in Hs as [Hc _].
  destruct c as [[] [] [] [] [] [] [] []];
    (by vm_compute in Hc) || reflexivity.
Qed.

Lemma mapM_int_digits (l : list string) :
  Forall all_digits l → mapM Py.int l = Some (decimal <$> l).
Proof.
  intros Hl. apply mapM_Some_2. induction Hl as [|s l Hs Hl IH]; simpl.
  - constructor.
  - constructor; [by apply int_digits | done].
Qed.

Lemma numeric_not_root (node_id : string) :
  numeric node_id → node_id ≠ "root"%string.
Proof.
  intros Hn ->. unfold numeric in Hn. simpl in Hn.
  apply Forall_cons in Hn as [[_ Hd] _]. by vm_compute in Hd.
Qed.

Lemma sort_key_root (node_id : string) :
  _sort_key node_id = KRoot ↔ node_id = "root"%string.
Proof.
  unfold _sort_key. destruct (String.eqb_spec node_id "root") as [->|Hne].
  - done.
  - split; [|done]. by destruct (mapM Py.int (Py.split_dot node_id)).
Qed.

Lemma sort_key_parsed (node_id : string) (parts : list Z) :
  node_id ≠ "root"%string →
  mapM Py.int (Py.split_dot node_id) = Some parts →
  _sort_key node_id = KNum parts.
Proof.
  intros Hne Hp. unfold _sort_key.
  destruct (String.eqb_spec node_id "root"); [done|]. by rewrite Hp.
Qed.

Lemma sort_key_fallback (node_id : string) :
  node_id ≠ "root"%string →
  mapM Py.int (Py.split_dot node_id) = None →
  _sort_key node_id = KStr node_id.
Proof.
  intros Hne Hp. unfold _sort_key.
  destruct (String.eqb_spec node_id "root"); [done|]. by rewrite Hp.
Qed.

Lemma tuple_ltb_asym (a b : list Z) :
  tuple_ltb a b = true → tuple_ltb b a = false.
Proof.
  revert b. induction a as [|x a IH]; intros [|y b]; simpl; try done.
  rewrite (Z.eqb_sym y x). destruct (Z.eqb_spec x y) as [->|Hne].
  - apply IH.
  - rewrite Z.ltb_lt, Z.ltb_ge. lia.
Qed.

Lemma key_ltb_asym (k1 k2 : SortKey) :
  key_ltb k1 k2 = true → key_ltb k2 k1 = false.
Proof.
  destruct k1, k2; simpl; try done.
  - apply tuple_ltb_asym.
  - apply string_ltb_asym.
Qed.

(** C9: under the sort key, "root" comes before every other id; ids
    whose segments [int()] accepts compare as the tuples of their
    values, which for segments written with digits are their decimal
    values; an id with a segment that [int()] refuses comes after every
    such id and compares with its like as a string; sorting is a stable
    rearrangement that leaves no id directly before a smaller one, it
    is applied to the children of every loaded node, and it takes
    ["2"; "10"; "1"; "10.1"] to ["1"; "2"; "10"; "10.1"]. *)
Theorem lineage_sort_order :
  (∀ a, a ≠ "root"%string →
        id_ltb "root" a = true ∧ id_ltb a "root" = false)
  ∧ (∀ a b pa pb,
       a ≠ "root"%string → b ≠ "root"%string →
       mapM Py.int (Py.split_dot a) = Some pa →
       mapM Py.int (Py.split_dot b) = Some pb →
       id_ltb a b = tuple_ltb pa pb)
  ∧ (∀ a, numeric a →
          a ≠ "root"%string
          ∧ mapM Py.int (Py.split_dot a) = Some (segments a))
  ∧ (∀ a b, numeric a → numeric b →
            id_ltb a b = tuple_ltb (segments a) (segments b))
  ∧ (∀ a, a ≠ "root"%string → mapM Py.int (Py.split_dot a) = None →
          _sort_key a = KStr a
          ∧ (∀ b pb, b ≠ "root"%string →
                     mapM Py.int (Py.split_dot b) = Some pb →
                     id_ltb b a = true ∧ id_ltb a b = false)
          ∧ (∀ b, b ≠ "root"%string →
                  mapM Py.int (Py.split_dot b) = None →
                  id_ltb a b = String.ltb a b))
  ∧ (∀ l : list string,
       sort_nodes (λ c, c) l ≡ₚ l
       ∧ Sorted (ascending id_ltb) (sort_nodes (λ c, c) l))
  ∧ (∀ story_nodes story_paths k n,
       _load_nodes_from_db story_nodes story_paths !! k = Some n →
       Sorted (ascending id_ltb) (children n))
  ∧ sort_nodes (λ c, c) ["2"; "10"; "1"; "10.1"]%string
    = ["1"; "2"; "10"; "10.1"]%string.
Proof.
  split; [|split; [|split; [|split; [|split; [|split; [|split]]]]]].
  - intros a Ha. unfold id_ltb.
    change (_sort_key "root") with KRoot.
    destruct (_sort_key a) eqn:Hk; simpl; try done.
    by apply sort_key_root in Hk.
  - intros a b pa pb Ha Hb Hpa Hpb. unfold id_ltb.
    by rewrite (sort_key_parsed a pa), (sort_key_parsed b pb).
  - intros a Hn. split; [by apply numeric_not_root|].
    by apply mapM_int_digits.
  - intros a b Ha Hb. unfold id_ltb.
    rewrite (sort_key_parsed a (segments a)), (sort_key_parsed b (segments b));
      auto using numeric_not_root, mapM_int_digits.
  - intros a Ha Hpa. split; [by apply sort_key_fallback|]. split.
    + intros b pb Hb Hpb. unfold id_ltb.
      by rewrite (sort_key_fallback a), (sort_key_parsed b pb).
    + intros b Hb Hpb. unfold id_ltb.
      by rewrite (sort_key_fallback a), (sort_key_fallback b).
  - intros l. split; [apply sort_by_perm|].
    apply (sort_by_sorted id_ltb). intros a b. apply key_ltb_asym.
  - intros story_nodes story_paths k n. unfold _load_nodes_from_db.
    rewrite lookup_fmap. intros Hn.
    apply fmap_Some in Hn as (n1 & _ & ->). simpl.
    apply (sort_by_sorted id_ltb). intros a b. apply key_ltb_asym.
  - by vm_compute.
Qed.

Lemma lineage_sort_order_witness :
  id_ltb "2" "10" = true ∧ id_ltb "10" "10.1" = true
  ∧ id_ltb "10.1" "1.x" = true ∧ id_ltb "root" "1" = true.
Proof.
  destruct lineage_sort_order as (Hroot & Hparsed & _ & Hnum & Hfall & _).
  split; [|split; [|split]].
  - rewrite (Hnum "2"%string "10"%string); [reflexivity | |];
      repeat constructor; discriminate.
  - rewrite (Hparsed "10"%string "10.1"%string [10%Z] [10%Z; 1%Z]);
      [reflexivity | discriminate | discriminate | reflexivity | reflexivity].
  - destruct (Hfall "1.x"%string) as (_ & Hafter & _);
      [discriminate | reflexivity |].
    apply (Hafter "10.1"%string [10%Z; 1%Z]); [discriminate | reflexivity].
  - apply Hroot. discriminate.
Defined.

End SortKeys.

(** ** The filtered tree *)

Section Ancestors.

Variable nodes : gmap string StoryNode.
Variable rank : string → nat.

(** Walking up strictly decreases the rank: the parent links form no
    cycle. *)
Hypothesis rank_parent :
  ∀ k n p, nodes !! k = Some n → live_parent n = Some p →
           is_Some (nodes !! p) → rank p < rank k.

Lemma ancestor_inv (k x : string) :
  ancestor nodes k x
  ↔ ∃ n p, nodes !! k = Some n ∧ live_parent n = Some p
           ∧ (x = p ∨ ancestor nodes p x).
Proof.
  split.
  - intros H. destruct H as [k n p Hk Hp | k n p x Hk Hp Hx]; eauto 6.
  - intros (n & p & Hk & Hp & [-> | Hx]).
    + by eapply ancestor_parent.
    + by eapply ancestor_further.
Qed.

Lemma ancestor_extend (m x p : string) (n : StoryNode) :
  ancestor nodes m x → nodes !! x = Some n → live_parent n = Some p →
  ancestor nodes m p.
Proof.
  intros H Hx Hp. induction H as [k nk q Hk Hq | k nk q y Hk Hq Hy IH].
  - eapply ancestor_further; [done..|]. by eapply ancestor_parent.
  - eapply ancestor_further; [done..|]. by apply IH.
Qed.

(** With enough fuel the loop ends and has added exactly the
    ancestors. *)
Lemma ancestors_loop_spec (fuel : nat) :
  ∀ (k : string) (acc : gset string),
    (is_Some (nodes !! k) → rank k < fuel) →
    ∃ S, ancestors_loop fuel nodes (nodes !! k) acc = Some S
         ∧ ∀ x, x ∈ S ↔ x ∈ acc ∨ ancestor nodes k x.
Proof.
  induction fuel as [|fuel IH]; intros k acc Hfuel.
  - destruct (nodes !! k) as [n|] eqn:Hk.
    + specialize (Hfuel (mk_is_Some _ _ eq_refl)). lia.
    + exists acc. split; [done|]. intros x. rewrite ancestor_inv.
      split; [by left|]. intros [?|(n & p & Hn & _)]; [done|congruence].
  - destruct (nodes !! k) as [n|] eqn:Hk; simpl.
    + destruct (live_parent n) as [p|] eqn:Hp.
      * destruct (IH p (acc ∪ {[p]})) as (S & HS & Hel).
        { intros Hin. specialize (Hfuel (mk_is_Some _ _ eq_refl)).
          pose proof (rank_parent k n p Hk Hp Hin). lia. }
        exists S. split; [done|]. intros x.
        rewrite Hel, elem_of_union, elem_of_singleton. split.
        -- intros [[? | ->] | Hx].
           ++ by left.
           ++ right. by eapply ancestor_parent.
           ++ right. by eapply ancestor_further.
        -- intros [?|Hx]; [by left; left|].
           apply ancestor_inv in Hx as (n' & p' & Hn' & Hp' & Hx).
           assert (n' = n) as -> by congruence.
           assert (p' = p) as -> by congruence.
           destruct Hx as [-> | Hx]; [left; by right | by right].
      * exists acc. split; [done|]. intros x. rewrite ancestor_inv.
        split; [by left|]. intros [?|(n' & p' & Hn' & Hp' & _)]; [done|].
        congruence.
    + exists acc. split; [done|]. intros x. rewrite ancestor_inv.
      split; [by left|]. intros [?|(n & p & Hn & _)]; [done|congruence].
Qed.

Lemma collect_ancestors_spec (fuel : nat) (ids : list string) :
  (∀ k, is_Some (nodes !! k) → rank k < fuel) →
  ∀ acc : gset string,
    ∃ S, collect_ancestors fuel nodes ids acc = Some S
         ∧ ∀ x, x ∈ S ↔ x ∈ acc ∨ ∃ m, m ∈ ids ∧ ancestor nodes m x.
Proof.
  intros Hfuel. induction ids as [|m ids IH]; intros acc; simpl.
  - exists acc. split; [done|]. intros x. split; [by left|].
    intros [?|(m & Hm & _)]; [done|]. by apply elem_of_nil in Hm.
  - unfold _get_ancestors.
    destruct (ancestors_loop_spec fuel m ∅ (Hfuel m)) as (A & HA & HelA).
    rewrite HA. simpl.
    destruct (IH (acc ∪ A)) as (S & HS & Hel).
    exists S. split; [done|]. intros x.
    rewrite Hel, elem_of_union, HelA. split.
    + intros [[?|[Hx|Hx]]|(m' & Hm' & Hx)].
      * by left.
      * by apply not_elem_of_empty in Hx.
      * right. exists m. split; [by left | done].
      * right. exists m'. split; [by right | done].
    + intros [?|(m' & Hm' & Hx)]; [by left; left|].
      apply elem_of_cons in Hm' as [->|Hm'].
      * left. right. by right.
      * right. by exists m'.
Qed.

End Ancestors.

Section Display.

Variable nodes : gmap string StoryNode.
Variable rank : string → nat.
Variables visible faded : gset string.

Hypothesis nodes_linked : linked nodes.
Hypothesis rank_parent :
  ∀ k n p, nodes !! k = Some n → live_parent n = Some p →
           is_Some (nodes !! p) → rank p < rank k.

Lemma reach_top (r x : string) : reach nodes visible r x → r ∈ visible.
Proof. by induction 1. Qed.

Lemma reach_visible (r x : string) :
  reach nodes visible r x → x ∈ visible ∧ is_Some (nodes !! x).
Proof. destruct 1; eauto. Qed.

Lemma reach_under (r c x : string) (nc : StoryNode) :
  r ∈ visible → is_Some (nodes !! r) →
  nodes !! c = Some nc → live_parent nc = Some r →
  reach nodes visible c x → reach nodes visible r x.
Proof.
  intros Hr Hin Hc Hp H. induction H as [Hcv _ | y d nd Hy IH Hd Hpd Hdv].
  - eapply reach_child; [by apply reach_self | done..].
  - by eapply reach_child.
Qed.

Lemma reach_inv (r x : string) :
  reach nodes visible r x →
  x = r ∨ ∃ c nc, nodes !! c = Some nc ∧ live_parent nc = Some r
                  ∧ c ∈ visible ∧ reach nodes visible c x.
Proof.
  induction 1 as [Hr Hin | y d nd Hy IH Hd Hpd Hdv]; [by left|right].
  destruct IH as [-> | (c & nc & Hc & Hp & Hcv & Hcy)].
  - exists d, nd. repeat split; [done..|]. apply reach_self; eauto.
  - exists c, nc. repeat split; [done..|]. by eapply reach_child.
Qed.

Lemma mapM_concat_elem {A B} (f : A → option (list B)) (l : list A)
    (below : list (list B)) (y : B) :
  mapM f l = Some below →
  y ∈ concat below ↔ ∃ a items, a ∈ l ∧ f a = Some items ∧ y ∈ items.
Proof.
  intros H. apply mapM_Some_1 in H.
  induction H as [|a items l below Ha Hl IH]; simpl.
  - split; [by intros ?%elem_of_nil|].
    intros (a & items & Ha & _). by apply elem_of_nil in Ha.
  - rewrite elem_of_app, IH. split.
    + intros [Hy|(a' & items' & Ha' & Hf & Hy)].
      * exists a, items. split; [by left | done].
      * exists a', items'. split; [by right | done].
    + intros (a' & items' & Ha' & Hf & Hy).
      apply elem_of_cons in Ha' as [->|Ha'].
      * left. congruence.
      * right. by exists a', items'.
Qed.

(** The visible children handed to the recursive calls. *)
Lemma visible_children_elem (k : string) (node nc : StoryNode) :
  nodes !! k = Some node →
  nc ∈ sort_nodes id
         (filter (λ c, id c ∈ visible)
            (omap (λ c, nodes !! c) (children node)))
  ↔ nodes !! id nc = Some nc ∧ live_parent nc = Some k ∧ id nc ∈ visible.
Proof.
  intros Hk. destruct nodes_linked as [Hid Hch].
  unfold sort_nodes. rewrite elem_of_sort_by, list_elem_of_filter.
  rewrite list_elem_of_omap. split.
  - intros (Hv & c & Hc & Hnc). rewrite (Hid c nc Hnc).
    apply (Hch k node c Hk) in Hc as (nc' & Hnc' & Hp).
    assert (nc' = nc) as -> by congruence.
    repeat split; [done..|]. by rewrite <- (Hid c nc Hnc).
  - intros (Hnc & Hp & Hv). split; [done|]. exists (id nc). split; [|done].
    apply (Hch k node (id nc) Hk). by exists nc.
Qed.

(** With enough fuel the recursion ends and has built one item for
    each node that a chain of visible nodes links to [node]. *)
Lemma add_filtered_node_spec (fuel : nat) :
  ∀ (k : string) (node : StoryNode),
    nodes !! k = Some node →
    (∀ j, is_Some (nodes !! j) → rank j < rank k + fuel) →
    ∃ items,
      _add_filtered_node fuel nodes visible faded node = Some items
      ∧ ∀ x role, (x, role) ∈ items
                  ↔ reach nodes visible k x ∧ role = role_of faded x.
Proof.
  induction fuel as [|fuel IH]; intros k node Hk Hfuel.
  { specialize (Hfuel k (mk_is_Some _ _ Hk)). lia. }
  assert (Hid : id node = k) by (by apply nodes_linked).
  cbn [_add_filtered_node]. rewrite Hid.
  case_bool_decide as Hv.
  - set (vc := sort_nodes id
                 (filter (λ c, id c ∈ visible)
                    (omap (λ c, nodes !! c) (children node)))).
    assert (Hall : ∀ nc, nc ∈ vc →
              ∃ items,
                _add_filtered_node fuel nodes visible faded nc = Some items
                ∧ ∀ x role, (x, role) ∈ items
                            ↔ reach nodes visible (id nc) x ∧ role = role_of faded x).
    { intros nc Hnc. apply (visible_children_elem k node nc Hk) in Hnc
        as (Hnc & Hp & Hcv).
      apply (IH (id nc) nc Hnc). intros j Hj.
      pose proof (rank_parent (id nc) nc k Hnc Hp (mk_is_Some _ _ Hk)).
      specialize (Hfuel j Hj). lia. }
    destruct (mapM _ vc) as [below|] eqn:Hm.
    + simpl. eexists. split; [done|]. intros x role.
      rewrite elem_of_cons, (mapM_concat_elem _ _ _ _ Hm). split.
      * intros [Heq|(nc & items & Hnc & Hitems & Hx)].
        -- injection Heq as -> ->. split; [|done].
           apply reach_self; eauto.
        -- destruct (Hall nc Hnc) as (items' & Hitems' & Hel).
           assert (items' = items) as -> by congruence.
           apply Hel in Hx as [Hx ->]. split; [|done].
           apply (visible_children_elem k node nc Hk) in Hnc
             as (Hnc & Hp & Hcv).
           eapply reach_under; eauto.
      * intros [Hr ->]. apply reach_inv in Hr
          as [-> | (c & nc & Hc & Hp & Hcv & Hcx)]; [by left|right].
        assert (Hidc : id nc = c) by (by apply nodes_linked).
        assert (Hnc : nc ∈ vc).
        { apply (visible_children_elem k node nc Hk). by rewrite Hidc. }
        destruct (Hall nc Hnc) as (items & Hitems & Hel).
        exists nc, items. repeat split; [done..|].
        apply Hel. by rewrite Hidc.
    + apply mapM_None_1, Exists_exists in Hm as (nc & Hnc & Hnone).
      destruct (Hall nc Hnc) as (items & Hitems & _). congruence.
  - exists []. split; [done|]. intros x role. split.
    + by intros ?%elem_of_nil.
    + intros [Hr _]. by apply reach_top in Hr.
Qed.

End Display.

Section View.

Lemma live_parent_Some (n : StoryNode) (p : string) :
  live_parent n = Some p → parent_id n = Some p.
Proof.
  unfold live_parent. destruct (parent_id n) as [q|]; [|done].
  destruct (Py.truthy_str q); [|done]. by intros [= ->].
Qed.

(** Every visible node hangs, through visible nodes, below a visible
    node that has no parent among the nodes. *)
Lemma visible_reached (nodes : gmap string StoryNode) (rank : string → nat)
    (visible : gset string) :
  linked nodes →
  (∀ k n p, nodes !! k = Some n → live_parent n = Some p →
            is_Some (nodes !! p) → rank p < rank k) →
  (∀ x n p, x ∈ visible → nodes !! x = Some n → live_parent n = Some p →
            p ∈ visible) →
  ∀ d x, rank x < d → x ∈ visible → is_Some (nodes !! x) →
         ∃ r nr, nodes !! r = Some nr
                 ∧ (∀ p, live_parent nr = Some p → nodes !! p = None)
                 ∧ r ∈ visible ∧ reach nodes visible r x.
Proof.
  intros Hlinked Hrank Hclosed. induction d as [|d IH]; intros x Hd Hx [n Hn].
  { lia. }
  destruct (live_parent n) as [p|] eqn:Hp.
  - destruct (nodes !! p) as [np|] eqn:Hnp.
    + pose proof (Hrank x n p Hn Hp (mk_is_Some _ _ Hnp)) as Hlt.
      destruct (IH p) as (r & nr & Hr & Hroot & Hrv & Hreach);
        [lia | by eapply Hclosed | by eexists |].
      exists r, nr. repeat split; [done..|]. by eapply reach_child.
    + exists x, n. repeat split; [done| |done|].
      * intros q Hq. congruence.
      * apply reach_self; eauto.
  - exists x, n. repeat split; [done| |done|].
    + intros q Hq. congruence.
    + apply reach_self; eauto.
Qed.

Lemma matching_nodes_elem (boxes : gmap string bool)
    (nodes : gmap string StoryNode) (x : string) :
  x ∈ matching_nodes boxes nodes
  ↔ ∃ n, nodes !! x = Some n
         ∧ node_matches_filter (checked boxes STAGE_ORDER)
             (checked boxes STATUS_ORDER_HOLDS)
             (checked boxes TERMINUS_ORDER) n = true.
Proof.
  unfold matching_nodes. rewrite elem_of_dom. split.
  - intros [n Hn]. apply map_lookup_filter_Some in Hn as [Hn Hm]. eauto.
  - intros (n & Hn & Hm). exists n. by apply map_lookup_filter_Some.
Qed.

(** C10: for nodes loaded from the database whose parent links form no
    cycle, and with fuel above every rank, [_apply_filters] ends; its
    visible set is the set of matching nodes united with their
    ancestors; the displayed nodes are the visible ids that are nodes,
    so the parent of a displayed node is displayed whenever it is a
    node; and a displayed node is rendered faded exactly when it matches
    no filter itself, normal exactly when it does. *)
Theorem filtered_view_shows_matches_and_ancestors
    (story_nodes : gmap string Db.Row) (story_paths : list Db.PathRow)
    (boxes : gmap string bool) (rank : string → nat) (fuel : nat) :
  let nodes := _load_nodes_from_db story_nodes story_paths in
  let matching := matching_nodes boxes nodes in
  (∀ k n p, nodes !! k = Some n → live_parent n = Some p →
            is_Some (nodes !! p) → rank p < rank k) →
  (∀ k, is_Some (nodes !! k) → rank k < fuel) →
  ∃ view,
    _apply_filters fuel boxes nodes = Some view
    ∧ (∀ x, x ∈ visible_nodes view
            ↔ x ∈ matching ∨ ∃ m, m ∈ matching ∧ ancestor nodes m x)
    ∧ (∀ x, x ∈ (tree_items view).*1
            ↔ x ∈ visible_nodes view ∧ is_Some (nodes !! x))
    ∧ (∀ x n p, x ∈ (tree_items view).*1 → nodes !! x = Some n →
                live_parent n = Some p → is_Some (nodes !! p) →
                p ∈ (tree_items view).*1)
    ∧ (∀ x, (x, Faded) ∈ tree_items view
            ↔ x ∈ (tree_items view).*1 ∧ x ∉ matching)
    ∧ (∀ x, (x, Normal) ∈ tree_items view
            ↔ x ∈ (tree_items view).*1 ∧ x ∈ matching).
Proof.
  intros nodes matching Hrank Hfuel.
  pose proof (load_linked story_nodes story_paths) as Hlinked.
  fold nodes in Hlinked.
  destruct (collect_ancestors_spec nodes rank Hrank fuel (elements matching)
              Hfuel ∅) as (A & HA & HelA).
  assert (HA' : ∀ x, x ∈ A ↔ ∃ m, m ∈ matching ∧ ancestor nodes m x).
  { intros x. rewrite HelA. split.
    - intros [Hx|(m & Hm & Hx)]; [by apply not_elem_of_empty in Hx|].
      exists m. by rewrite <- elem_of_elements.
    - intros (m & Hm & Hx). right. exists m. by rewrite elem_of_elements. }
  set (visible := matching ∪ A). set (faded := A ∖ matching).
  set (roots := sort_nodes id
                  (filter (λ n, (live_parent n = None
                                 ∨ default ""%string (parent_id n) ∉ dom nodes)
                                ∧ id n ∈ visible)
                     (Py.ordered_items nodes).*2)).
  assert (Hroots : ∀ r, r ∈ roots
                   ↔ nodes !! id r = Some r
                     ∧ (∀ p, live_parent r = Some p → nodes !! p = None)
                     ∧ id r ∈ visible).
  { intros r. subst roots. unfold sort_nodes.
    rewrite elem_of_sort_by, list_elem_of_filter, list_elem_of_fmap. split.
    - intros ([Hroot Hv] & [k n] & -> & Hin). simpl in *.
      apply elem_of_ordered_items in Hin.
      pose proof (proj1 Hlinked k n Hin) as Hid. rewrite Hid in Hv |- *.
      repeat split; [done| |done].
      intros p Hp. destruct Hroot as [Hnone|Hnot]; [congruence|].
      rewrite (live_parent_Some _ _ Hp) in Hnot. simpl in Hnot.
      by apply not_elem_of_dom.
    - intros (Hr & Hroot & Hv). split.
      + split; [|done]. destruct (live_parent r) as [p|] eqn:Hp; [right|by left].
        rewrite (live_parent_Some _ _ Hp). simpl.
        apply not_elem_of_dom. by apply Hroot.
      + exists (id r, r). split; [done|]. by apply elem_of_ordered_items. }
  assert (Hclosed : ∀ x n p, x ∈ visible → nodes !! x = Some n →
                             live_parent n = Some p → p ∈ visible).
  { intros x n p Hx Hn Hp. subst visible. apply elem_of_union. right.
    apply HA'. apply elem_of_union in Hx as [Hx|Hx].
    - exists x. split; [done|]. by eapply ancestor_parent.
    - apply HA' in Hx as (m & Hm & Hx). exists m. split; [done|].
      by eapply ancestor_extend. }
  assert (Hall : ∀ r, r ∈ roots →
            ∃ items,
              _add_filtered_node fuel nodes visible faded r = Some items
              ∧ ∀ x role, (x, role) ∈ items
                          ↔ reach nodes visible (id r) x
                            ∧ role = role_of faded x).
  { intros r Hr. apply Hroots in Hr as (Hr & _ & _).
    apply (add_filtered_node_spec nodes rank visible faded Hlinked Hrank
             fuel (id r) r Hr).
    intros j Hj. specialize (Hfuel j Hj). lia. }
  assert (Hsome : ∃ below, mapM (_add_filtered_node fuel nodes visible faded)
                             roots = Some below).
  { destruct (mapM (_add_filtered_node fuel nodes visible faded) roots)
      as [below|] eqn:Hm; [by exists below|].
    apply mapM_None_1, Exists_exists in Hm as (r & Hr & Hnone).
    destruct (Hall r Hr) as (items & Hitems & _). congruence. }
  destruct Hsome as (below & Hbelow).
  exists (mkView visible faded (concat below)).
  assert (Hitem : ∀ x role, (x, role) ∈ concat below
                  ↔ (x ∈ visible ∧ is_Some (nodes !! x))
                    ∧ role = role_of faded x).
  { intros x role. rewrite (mapM_concat_elem _ _ _ _ Hbelow). split.
    - intros (r & items & Hr & Hitems & Hx).
      destruct (Hall r Hr) as (items' & Hitems' & Hel).
      assert (items' = items) as -> by congruence.
      apply Hel in Hx as [Hx ->]. split; [|done].
      by eapply reach_visible.
    - intros [[Hx Hin] ->].
      destruct (visible_reached nodes rank visible Hlinked Hrank Hclosed
                  (S (rank x)) x) as (r & nr & Hr & Hroot & Hrv & Hreach);
        [lia | done | done |].
      assert (Hid : id nr = r) by (by apply Hlinked).
      assert (Hnr : nr ∈ roots).
      { apply Hroots. by rewrite Hid. }
      destruct (Hall nr Hnr) as (items & Hitems & Hel).
      exists nr, items. repeat split; [done..|].
      apply Hel. by rewrite Hid. }
  assert (Hshown : ∀ x, x ∈ (concat below).*1
                   ↔ x ∈ visible ∧ is_Some (nodes !! x)).
  { intros x. rewrite list_elem_of_fmap. split.
    - intros ([y role] & -> & Hin). by apply Hitem in Hin as [? _].
    - intros Hx. exists (x, role_of faded x). split; [done|].
      by apply Hitem. }
  split; [|split; [|split; [|split; [|split]]]].
  - unfold _apply_filters. fold nodes matching. rewrite HA. simpl.
    fold visible faded roots. by rewrite Hbelow.
  - intros x. simpl. subst visible. by rewrite elem_of_union, HA'.
  - apply Hshown.
  - intros x n p Hx Hn Hp Hin. simpl in *. apply Hshown.
    apply Hshown in Hx as [Hx _]. split; [by eapply Hclosed | done].
  - intros x. simpl. rewrite Hitem, Hshown. unfold role_of. subst faded visible.
    split.
    + intros [Hx Hrole]. split; [done|].
      case_bool_decide as Hf; [|done]. by apply elem_of_difference in Hf as [_ ?].
    + intros [[Hv Hin] Hnot]. split; [done|].
      rewrite bool_decide_eq_true_2; [done|].
      apply elem_of_difference. split; [|done].
      by apply elem_of_union in Hv as [?|?].
  - intros x. simpl. rewrite Hitem, Hshown. unfold role_of. subst faded visible.
    split.
    + intros [[Hv Hin] Hrole]. split; [done|].
      case_bool_decide as Hf; [done|].
      destruct (decide (x ∈ matching)) as [|Hnot]; [done|].
      destruct Hf. apply elem_of_difference. split; [|done].
      by apply elem_of_union in Hv as [?|?].
    + intros [Hx Hm]. split; [done|].
      rewrite bool_decide_eq_false_2; [done|].
      by intros [_ ?]%elem_of_difference.
Qed.

Lemma view_rows_dom (k : string) :
  is_Some (view_rows !! k) →
  k = "root"%string ∨ k = "1"%string ∨ k = "1.1"%string ∨ k = "1.1.1"%string.
Proof.
  intros Hk. apply elem_of_dom in Hk. unfold view_rows in Hk.
  rewrite !dom_insert_L, dom_singleton_L in Hk.
  rewrite !elem_of_union, !elem_of_singleton in Hk. tauto.
Qed.

Lemma filtered_view_shows_matches_and_ancestors_witness :
  ∃ view,
    _apply_filters 6 view_boxes (_load_nodes_from_db view_rows chain_paths)
      = Some view
    ∧ ∀ x, (x, Faded) ∈ tree_items view
           ↔ x ∈ (tree_items view).*1
             ∧ x ∉ matching_nodes view_boxes
                     (_load_nodes_from_db view_rows chain_paths).
Proof.
  destruct (filtered_view_shows_matches_and_ancestors view_rows chain_paths
              view_boxes view_rank 6)
    as (view & Hview & _ & _ & _ & Hfaded & _).
  - intros k n p Hk Hp _. rewrite load_lookup in Hk.
    assert (Hdom : is_Some (view_rows !! k)).
    { destruct (view_rows !! k); [by eexists | discriminate]. }
    apply view_rows_dom in Hdom as [-> | [-> | [-> | ->]]];
      vm_compute in Hk; injection Hk as <-;
      vm_compute in Hp; try discriminate Hp; injection Hp as <-;
      vm_compute; lia.
  - intros k Hk. rewrite load_lookup in Hk.
    assert (Hdom : is_Some (view_rows !! k)).
    { destruct (view_rows !! k); [by eexists | by destruct Hk]. }
    apply view_rows_dom in Hdom as [-> | [-> | [-> | ->]]]; vm_compute; lia.
  - exists view. split; [exact Hview | exact Hfaded].
Defined.

(** On this chain the view shows root and 1 faded above 1.1. *)
Example filtered_view_chain :
  tree_items <$> _apply_filters 6 view_boxes
                   (_load_nodes_from_db view_rows chain_paths)
  = Some [("root"%string, Faded); ("1"%string, Faded); ("1.1"%string, Normal)].
Proof. by vm_compute. Qed.

End View.

(** * Further properties *)

(** ** The GUI update, continued *)

Section UpdateMore.

Lemma recognised_nonempty (target : string) :
  recognised target → target ≠ ""%string ∧ target ≠ "ready"%string.
Proof.
  intros H.
  assert (Hall : Forall (λ t, t ≠ ""%string ∧ t ≠ "ready"%string)
                   (TERMINUS_VALUES ++ STATUS_VALUES_HOLDS ++ STAGE_VALUES)).
  { apply (bool_decide_unpack _). by vm_compute. }
  by apply (proj1 (Forall_forall _ _) Hall).
Qed.

Lemma or_default_empty (s : string) : Py.or_default (Some s) "" = s.
Proof.
  simpl. unfold Py.truthy_str. by destruct (String.eqb_spec s "") as [->|].
Qed.

(** The three state columns written for a recognised target. *)
Lemma gui_target_fields db_path clk db node_id target notes row :
  Py.truthy db_path = true → db !! node_id = Some row →
  fields <$> (_update_node_status_in_db Db.pk_id db_path clk db node_id
      target notes).1
               !! node_id
  = Some (if Py.member target TERMINUS_VALUES
          then (Db.stage row, Some "ready"%string, Some target)
          else if Py.member target STATUS_VALUES_HOLDS
          then (Db.stage row, Some target, None)
          else if Py.member target STAGE_VALUES
          then (Some target, Some "ready"%string, None)
          else fields row).
Proof.
  intros Hp Hrow. rewrite update_store. simpl. rewrite Hp. simpl.
  repeat (match goal with |- context [Py.member ?x ?l] =>
            destruct (Py.member x l) end);
    by rewrite ?lookup_alter_eq, Hrow.
Qed.

(** X1: on a table whose key column is [id], a transition to a target
    of the status category sets the status, clears the terminus and
    keeps the stage, the title and the review flag of the row; on the
    table whose key column is [story_path] the store is left as it was.
    On either table no other row changes. *)
Theorem status_transition
    (pk_column : Db.KeyColumn) (db_path : option string) (clk : Clock)
    (db : gmap string Db.Row) (node_id target notes : string)
    (row : Db.Row) :
  Py.truthy db_path = true → target ∈ STATUS_VALUES_HOLDS →
  db !! node_id = Some row →
  let db' := (_update_node_status_in_db pk_column db_path clk db node_id
                target notes).1 in
  match pk_column with
  | Db.pk_id =>
      ∃ row', db' !! node_id = Some row'
              ∧ Db.status row' = Some target ∧ Db.terminus row' = None
              ∧ Db.stage row' = Db.stage row ∧ Db.title row' = Db.title row
              ∧ Db.human_review row' = Db.human_review row
  | Db.pk_story_path => db' = db
  end
  ∧ ∀ k, k ≠ node_id → db' !! k = db !! k.
Proof.
  intros Hp Ht Hrow db'. subst db'.
  destruct pk_column; [|by rewrite update_story_path_store]. split.
  - rewrite update_store. simpl. rewrite Hp. simpl.
    rewrite (hold_not_terminus _ Ht), (proj2 (member_true _ _) Ht).
    rewrite lookup_alter_eq, Hrow. simpl. eauto 10.
  - intros k Hk. by apply update_other.
Qed.

Lemma status_transition_witness :
  ∃ row',
    (_update_node_status_in_db Db.pk_id (Some "story-tree.db"%string) clock0
       {["8.4" := row_rejected]} "8.4" "blocked" "").1 !! "8.4"%string
      = Some row'
    ∧ Db.status row' = Some "blocked"%string ∧ Db.terminus row' = None.
Proof.
  destruct (status_transition Db.pk_id (Some "story-tree.db"%string) clock0
              {["8.4" := row_rejected]} "8.4" "blocked" "" row_rejected)
    as [(row' & H1 & H2 & H3 & _) _].
  - reflexivity.
  - unfold STATUS_VALUES_HOLDS. do 2 right. left.
  - apply lookup_singleton_eq.
  - exists row'. by repeat split.
Defined.

End UpdateMore.

(** ** Notes and the dialog *)

Section NotesAndDialog.

(** X3: neither write path drops notes.  After a command-line update,
    and after a GUI update to a recognised target on a table whose key
    column is [id], the notes of the row are its previous notes followed
    by the new entry (on a new line when there were notes); a
    command-line update without a note leaves the text as it was, and so
    does every GUI update on the table whose key column is
    [story_path]. *)
Theorem notes_are_appended
    (pk_column : Db.KeyColumn) (db_path : option string) (clk : Clock)
    (db : gmap string Db.Row) (node_id target notes ts now : string)
    (cli_notes : option string) (hold : bool) (row : Db.Row) :
  db !! node_id = Some row →
  let before := Py.or_default (Db.notes row) "" in
  let sep := if Py.truthy_str before then Py.nl else ""%string in
  (Py.truthy db_path = true → recognised target →
   Db.notes <$> (_update_node_status_in_db pk_column db_path clk db node_id
                   target notes).1 !! node_id
   = Some (match pk_column with
           | Db.pk_id =>
               Some (before +:+ sep +:+ new_note_entry clk target notes)
           | Db.pk_story_path => Db.notes row
           end))
  ∧ (target ∈ UpdateStatus.VALID_STAGES →
     Db.notes <$> (UpdateStatus.update_status ts now db node_id target
                     cli_notes hold).1 !! node_id
     = Some (Some (if Py.truthy cli_notes
                   then before +:+ sep +:+ "[Verification " +:+ ts +:+ "] "
                        +:+ default ""%string cli_notes
                   else before))).
Proof.
  intros Hrow before sep. split.
  - intros Hp Ht.
    destruct pk_column; [|by rewrite update_story_path_store, Hrow].
    rewrite update_store. simpl. rewrite Hp, Hrow. simpl.
    fold before. unfold recognised in Ht. rewrite !elem_of_app in Ht.
    assert (Hn : updated_notes before (new_note_entry clk target notes)
                 = before +:+ sep +:+ new_note_entry clk target notes).
    { unfold updated_notes. subst sep.
      destruct (Py.truthy_str before) eqn:Hb; [done|].
      apply not_true_iff_false in Hb. rewrite truthy_str_iff in Hb.
      assert (before = ""%string) as -> by (by destruct (decide (before = ""))).
      done. }
    destruct (Py.member target TERMINUS_VALUES) eqn:E1;
      [by rewrite lookup_alter_eq, Hrow; simpl; rewrite Hn|].
    destruct (Py.member target STATUS_VALUES_HOLDS) eqn:E2;
      [by rewrite lookup_alter_eq, Hrow; simpl; rewrite Hn|].
    destruct (Py.member target STAGE_VALUES) eqn:E3;
      [by rewrite lookup_alter_eq, Hrow; simpl; rewrite Hn|].
    apply member_false in E1, E2, E3. by destruct Ht as [?|[?|?]].
  - intros Hs. unfold UpdateStatus.update_status.
    rewrite (proj2 (member_true _ _) Hs). simpl. rewrite Hrow. simpl.
    fold before.
    assert (Hrw : ∀ f, (if hold
                        then alter (UpdateStatus.hold_row f now) node_id db
                        else alter (UpdateStatus.stage_row target f now)
                               node_id db) !! node_id
                       = Some (if hold then UpdateStatus.hold_row f now row
                               else UpdateStatus.stage_row target f now row)).
    { intros f. destruct hold; by rewrite lookup_alter_eq, Hrow. }
    rewrite Hrw. destruct cli_notes as [n|]; simpl.
    + destruct (Py.truthy_str n); by destruct hold.
    + by destruct hold.
Qed.

Lemma notes_are_appended_witness :
  Db.notes <$> (_update_node_status_in_db Db.pk_id
                  (Some "story-tree.db"%string) clock0
                  {["8.4" := row_testing]} "8.4" "blocked" "api").1
                 !! "8.4"%string
  = Some (Some "[2025-03-01 09:30] Status changed to 'blocked': api"%string)
  ∧ Db.notes <$> (UpdateStatus.update_status "2025-03-01 09:30"
                    "2025-03-01 09:30:12" {["8.4" := row_testing]}
                    "8.4" "verifying" (Some "ok"%string) false).1
                   !! "8.4"%string
    = Some (Some "[Verification 2025-03-01 09:30] ok"%string).
Proof.
  destruct (notes_are_appended Db.pk_id (Some "story-tree.db"%string) clock0
              {["8.4" := row_testing]} "8.4" "blocked" "api"
              "2025-03-01 09:30" "2025-03-01 09:30:12" None false row_testing)
    as [H1 _]; [apply lookup_singleton_eq|].
  destruct (notes_are_appended Db.pk_id (Some "story-tree.db"%string) clock0
              {["8.4" := row_testing]} "8.4" "verifying" ""
              "2025-03-01 09:30" "2025-03-01 09:30:12" (Some "ok"%string)
              false row_testing)
    as [_ H2]; [apply lookup_singleton_eq|].
  split.
  - apply H1; [reflexivity|]. unfold recognised.
    apply (bool_decide_unpack _). by vm_compute.
  - apply H2. apply (bool_decide_unpack _). by vm_compute.
Defined.

(** X4: for a target other than "polish" the note is optional: the first
    OK runs the update with the stripped text, blank or not, and a dialog
    that is cancelled or closed first writes and shows nothing. *)
Theorem optional_note_dialog
    (pk_column : Db.KeyColumn)
    (nodes : gmap string StoryNode) (db_path : option string) (clk : Clock)
    (db : gmap string Db.Row) (node_id new_status text : string)
    (rest : list UserAction) :
  new_status ≠ "polish"%string → is_Some (nodes !! node_id) →
  _change_node_status pk_column nodes db_path clk db node_id new_status
    (ClickOk text :: rest)
  = (let out := _update_node_status_in_db pk_column db_path clk db node_id
                  new_status (Py.strip text) in
     (out.1, [out.2]))
  ∧ _change_node_status pk_column nodes db_path clk db node_id new_status
      (ClickCancel :: rest) = (db, [])
  ∧ _change_node_status pk_column nodes db_path clk db node_id new_status []
    = (db, []).
Proof.
  intros Hne [n Hn]. unfold _change_node_status. rewrite Hn.
  destruct (String.eqb_spec new_status "polish") as [|_]; [done|].
  split; [|done]. simpl. unfold _on_confirm. simpl.
  change (if Py.truthy_str (Py.strip text) then Py.strip text else ""%string)
    with (Py.or_default (Some (Py.strip text)) "").
  rewrite or_default_empty.
  by destruct (_update_node_status_in_db pk_column db_path clk db node_id
                 new_status (Py.strip text)).
Qed.

Lemma optional_note_dialog_witness :
  _change_node_status Db.pk_story_path nodes_one
    (Some "story-tree.db"%string) clock0
    {["3" := row_concept_escalated]} "3" "planning" [ClickOk "  "]
  = ({["3" := row_concept_escalated]},
     [Critical "Database Error"
        ("Failed to update status:" +:+ Py.nl +:+ "no such column: id")]).
Proof.
  destruct (optional_note_dialog Db.pk_story_path nodes_one
              (Some "story-tree.db"%string)
              clock0 {["3" := row_concept_escalated]} "3" "planning" "  " [])
    as [H _].
  - discriminate.
  - vm_compute. eexists. reflexivity.
  - rewrite H. reflexivity.
Defined.

End NotesAndDialog.

(** ** The command-line update, continued *)

Section CliMore.

(** X5: with [hold] the stage argument is checked but not written: the
    row keeps its stage and terminus, its status becomes "escalated" and
    its review flag 1, no other row changes, and the answer reports the
    old stage as the new one. *)
Theorem cli_hold_update
    (ts now : string) (db : gmap string Db.Row) (story_id new_stage : string)
    (notes : option string) (row : Db.Row) :
  new_stage ∈ UpdateStatus.VALID_STAGES → db !! story_id = Some row →
  let out := UpdateStatus.update_status ts now db story_id new_stage notes true in
  out.2 = UpdateStatus.Success story_id (Db.stage row) (Db.stage row) true
            (bool_decide (notes ≠ None))
  ∧ (∃ row', out.1 !! story_id = Some row'
             ∧ Db.stage row' = Db.stage row
             ∧ Db.status row' = Some "escalated"%string
             ∧ Db.terminus row' = Db.terminus row
             ∧ Db.human_review row' = 1%Z
             ∧ Db.updated_at row' = Some now)
  ∧ ∀ k, k ≠ story_id → out.1 !! k = db !! k.
Proof.
  intros Hs Hrow out. subst out. unfold UpdateStatus.update_status.
  rewrite (proj2 (member_true _ _) Hs). simpl. rewrite Hrow. simpl.
  split; [done|]. split.
  - rewrite lookup_alter_eq, Hrow. simpl. eauto 10.
  - intros k Hk. by rewrite lookup_alter_ne.
Qed.

Lemma cli_hold_update_witness :
  fields <$> (UpdateStatus.update_status "2025-03-01 09:30"
                "2025-03-01 09:30:12" {["8.4" := row_testing]}
                "8.4" "implemented" None true).1 !! "8.4"%string
  = Some (Some "testing"%string, Some "escalated"%string, None).
Proof.
  destruct (cli_hold_update "2025-03-01 09:30" "2025-03-01 09:30:12"
              {["8.4" := row_testing]} "8.4" "implemented" None row_testing)
    as (_ & (row' & H & H1 & H2 & H3 & _) & _).
  - apply (bool_decide_unpack _). by vm_compute.
  - apply lookup_singleton_eq.
  - rewrite H. unfold fields. simpl. by rewrite H1, H2, H3.
Defined.

(** The row left by a command-line update. *)
Lemma cli_update_row ts now db story_id new_stage notes hold row :
  new_stage ∈ UpdateStatus.VALID_STAGES → db !! story_id = Some row →
  ∃ n, (UpdateStatus.update_status ts now db story_id new_stage notes hold).1
         !! story_id
       = Some (if hold then UpdateStatus.hold_row n now row
               else UpdateStatus.stage_row new_stage n now row).
Proof.
  intros Hs Hrow. unfold UpdateStatus.update_status.
  rewrite (proj2 (member_true _ _) Hs). cbn [negb]. rewrite Hrow. cbn [fst].
  eexists. destruct hold; by rewrite lookup_alter_eq, Hrow.
Qed.

(** X2: what the tree shows after a command-line update, for a row
    whose terminus, if set, is not the empty text: a row with a terminus
    is loaded with that terminus as its effective status, whatever was
    asked for; a row without one is loaded as "escalated" after an
    update with [hold] and with the new stage after one without. *)
Theorem effective_status_after_cli_update
    (ts now : string) (db : gmap string Db.Row)
    (story_paths : list Db.PathRow) (story_id new_stage : string)
    (notes : option string) (hold : bool) (row : Db.Row) :
  new_stage ∈ UpdateStatus.VALID_STAGES → db !! story_id = Some row →
  Db.terminus row ≠ Some ""%string →
  effective_status <$>
    _load_nodes_from_db
      (UpdateStatus.update_status ts now db story_id new_stage notes hold).1
      story_paths !! story_id
  = Some (match Db.terminus row with
          | Some t => t
          | None => if hold then "escalated"%string else new_stage
          end).
Proof.
  intros Hs Hrow Hterm. rewrite load_lookup.
  destruct (cli_update_row ts now db story_id new_stage notes hold row Hs Hrow)
    as [n ->].
  cbn [fmap option_fmap option_map]. f_equal.
  cbn [effective_status set_children node_of_row].
  assert (Hne : Py.truthy_str new_stage = true).
  { assert (Hall : Forall (λ x, Py.truthy_str x = true)
                     UpdateStatus.VALID_STAGES).
    { apply (bool_decide_unpack _). by vm_compute. }
    by apply (proj1 (Forall_forall _ _) Hall). }
  unfold effective_status_sql.
  destruct hold; cbn [UpdateStatus.hold_row UpdateStatus.stage_row
                      Db.terminus Db.status Db.stage].
  - destruct (Db.terminus row) as [t|]; cbn; [|done].
    unfold Py.truthy_str. destruct (String.eqb_spec t ""); [congruence|done].
  - destruct (Db.terminus row) as [t|]; cbn.
    + unfold Py.truthy_str.
      destruct (String.eqb_spec t ""); [congruence|done].
    + by rewrite Hne.
Qed.

Lemma effective_status_after_cli_update_witness :
  effective_status <$>
    _load_nodes_from_db
      (UpdateStatus.update_status "2025-03-01 09:30" "2025-03-01 09:30:12"
         {["1.2" := row_rejected]} "1.2" "concept" None false).1
      [] !! "1.2"%string
  = Some "rejected"%string.
Proof.
  apply (effective_status_after_cli_update "2025-03-01 09:30"
           "2025-03-01 09:30:12" {["1.2" := row_rejected]} [] "1.2"
           "concept" None false row_rejected).
  - apply (bool_decide_unpack _). by vm_compute.
  - apply lookup_singleton_eq.
  - discriminate.
Defined.

(** X6: a stage update without [hold] ends a hold set by an earlier
    call: whatever the first call asked for, the row then has the new
    stage, status "ready" and review flag 0, and still its terminus. *)
Theorem cli_stage_update_ends_hold
    (ts1 now1 ts2 now2 : string) (db : gmap string Db.Row)
    (story_id stage1 stage2 : string) (notes1 notes2 : option string)
    (row : Db.Row) :
  stage1 ∈ UpdateStatus.VALID_STAGES → stage2 ∈ UpdateStatus.VALID_STAGES →
  db !! story_id = Some row →
  let held := (UpdateStatus.update_status ts1 now1 db story_id stage1
                 notes1 true).1 in
  let out := UpdateStatus.update_status ts2 now2 held story_id stage2
               notes2 false in
  ∃ row', out.1 !! story_id = Some row'
          ∧ fields row' = (Some stage2, Some "ready"%string, Db.terminus row)
          ∧ Db.human_review row' = 0%Z.
Proof.
  intros H1 H2 Hrow held out. subst out held.
  destruct (cli_update_row ts1 now1 db story_id stage1 notes1 true row H1 Hrow)
    as [n1 Hheld].
  destruct (cli_update_row ts2 now2 _ story_id stage2 notes2 false _ H2 Hheld)
    as [n2 Hout].
  eexists. split; [exact Hout|]. by split.
Qed.

Lemma cli_stage_update_ends_hold_witness :
  ∃ row',
    (UpdateStatus.update_status "2025-03-02 10:00" "2025-03-02 10:00:00"
       (UpdateStatus.update_status "2025-03-01 09:30" "2025-03-01 09:30:12"
          {["8.4" := row_testing]} "8.4" "verifying" None true).1
       "8.4" "implemented" None false).1 !! "8.4"%string = Some row'
    ∧ fields row' = (Some "implemented"%string, Some "ready"%string, None)
    ∧ Db.human_review row' = 0%Z.
Proof.
  apply (cli_stage_update_ends_hold "2025-03-01 09:30" "2025-03-01 09:30:12"
           "2025-03-02 10:00" "2025-03-02 10:00:00" {["8.4" := row_testing]}
           "8.4" "verifying" "implemented" None None row_testing).
  - apply (bool_decide_unpack _). by vm_compute.
  - apply (bool_decide_unpack _). by vm_compute.
  - apply lookup_singleton_eq.
Defined.

End CliMore.

(** ** The transition menus *)

Section Menus.

Lemma transitions_get_elem (d : list (string * list string)) (key t : string) :
  t ∈ transitions_get d key → ∃ targets, (key, targets) ∈ d ∧ t ∈ targets.
Proof.
  induction d as [|[k targets] rest IH]; simpl.
  - by intros ?%elem_of_nil.
  - destruct (String.eqb_spec k key) as [->|Hne].
    + intros Ht. exists targets. split; [left | done].
    + intros Ht. destruct (IH Ht) as (ts & Hin & Hts).
      exists ts. split; [by right | done].
Qed.

Lemma offered_in_tables (respond : bool) (node : StoryNode) (t : string) :
  t ∈ _add_status_actions respond node →
  ∃ key targets, (key, targets) ∈ all_transitions ∧ t ∈ targets
    ∧ (status node = "escalated"%string
       ∧ key = stage node
       ∧ (key, targets) ∈ ESCALATED_FILTER_TRANSITIONS
                           ++ ESCALATED_RESPOND_TRANSITIONS
       ∨ status node ≠ "escalated"%string
         ∧ key = effective_status node).
Proof.
  unfold _add_status_actions, all_transitions.
  destruct (String.eqb_spec (status node) "escalated") as [He|He];
    destruct respond; intros Ht;
    apply transitions_get_elem in Ht as (targets & Hin & Ht);
    eexists _, targets; rewrite !elem_of_app; eauto 10.
Qed.

(** X7: every button of the detail view leads to a target that the
    update recognises: whatever the node, the mode and the table,
    pressing it never ends in "Unknown status value". *)
Theorem offered_targets_are_recognised
    (respond : bool) (node : StoryNode) (t : string)
    (pk_column : Db.KeyColumn) (db_path : option string) (clk : Clock)
    (db : gmap string Db.Row) (notes : string) :
  t ∈ _add_status_actions respond node →
  recognised t
  ∧ (_update_node_status_in_db pk_column db_path clk db (id node) t notes).2
    ≠ Critical "Database Error"
        ("Failed to update status:" +:+ Py.nl +:+
         "Unknown status value: " +:+ t).
Proof.
  intros Ht. apply offered_in_tables in Ht as (key & targets & Hin & Ht & _).
  assert (Hall : Forall (λ kv, Forall recognised kv.2) all_transitions).
  { apply (bool_decide_unpack _). by vm_compute. }
  pose proof (proj1 (Forall_forall _ _)
                (proj1 (Forall_forall _ _) Hall _ Hin) _ Ht) as Hrec.
  split; [done|].
  unfold _update_node_status_in_db.
  destruct (negb (Py.truthy db_path)); [done|].
  destruct pk_column; [|done]. cbn [snd].
  unfold recognised in Hrec. rewrite !elem_of_app in Hrec.
  destruct (Py.member t TERMINUS_VALUES) eqn:E1; [done|].
  destruct (Py.member t STATUS_VALUES_HOLDS) eqn:E2; [done|].
  destruct (Py.member t STAGE_VALUES) eqn:E3; [done|].
  apply member_false in E1, E2, E3. by destruct Hrec as [?|[?|?]].
Qed.

Lemma offered_targets_are_recognised_witness :
  recognised "polish"
  ∧ (_update_node_status_in_db Db.pk_story_path
       (Some "story-tree.db"%string) clock0 ∅ "3" "polish" "rough edges").2
    ≠ Critical "Database Error"
        ("Failed to update status:" +:+ Py.nl +:+
         "Unknown status value: polish").
Proof.
  apply (offered_targets_are_recognised false node_concept "polish"
           Db.pk_story_path (Some "story-tree.db"%string) clock0 ∅
           "rough edges").
  apply (bool_decide_unpack _). by vm_compute.
Defined.

(** X8: no button offered for an escalated node has the target
    "escalated".  On a table whose key column is [id] the update leaves
    the row with another status; on the table whose key column is
    [story_path], which the loader reads, the row stays as it was. *)
Theorem escalated_actions_and_the_row
    (respond : bool) (node : StoryNode) (t : string)
    (pk_column : Db.KeyColumn) (db_path : option string) (clk : Clock)
    (db : gmap string Db.Row) (notes : string) (row : Db.Row) :
  status node = "escalated"%string →
  t ∈ _add_status_actions respond node →
  Py.truthy db_path = true → db !! id node = Some row →
  t ≠ "escalated"%string
  ∧ ∃ row', (_update_node_status_in_db pk_column db_path clk db (id node) t
               notes).1 !! id node = Some row'
            ∧ match pk_column with
              | Db.pk_id => Db.status row' ≠ Some "escalated"%string
              | Db.pk_story_path => row' = row
              end.
Proof.
  intros Hs Ht Hp Hrow.
  apply offered_in_tables in Ht
    as (key & targets & _ & Ht & [(_ & _ & Hin)|[Hne _]]); [|done].
  assert (Hall : Forall (λ kv, Forall (λ x, recognised x
                                           ∧ x ≠ "escalated"%string) kv.2)
                   (ESCALATED_FILTER_TRANSITIONS
                    ++ ESCALATED_RESPOND_TRANSITIONS)).
  { apply (bool_decide_unpack _). by vm_compute. }
  pose proof (proj1 (Forall_forall _ _)
                (proj1 (Forall_forall _ _) Hall _ Hin) _ Ht) as [Hrec Hnesc].
  split; [done|].
  destruct pk_column;
    [|exists row; by rewrite update_story_path_store].
  pose proof (gui_target_fields db_path clk db (id node) t notes row Hp Hrow)
    as Hf.
  destruct ((_update_node_status_in_db Db.pk_id db_path clk db (id node) t
               notes).1 !! id node) as [row'|]; [|done].
  exists row'. split; [done|].
  simpl in Hf. injection Hf as Hf. unfold fields in Hf.
  unfold recognised in Hrec. rewrite !elem_of_app in Hrec.
  destruct (Py.member t TERMINUS_VALUES) eqn:E1;
    [injection Hf as _ -> _; discriminate|].
  destruct (Py.member t STATUS_VALUES_HOLDS) eqn:E2;
    [injection Hf as _ -> _; congruence|].
  destruct (Py.member t STAGE_VALUES) eqn:E3;
    [injection Hf as _ -> _; discriminate|].
  apply member_false in E1, E2, E3. by destruct Hrec as [?|[?|?]].
Qed.

Lemma escalated_actions_and_the_row_witness :
  ∃ row',
    (_update_node_status_in_db Db.pk_story_path (Some "story-tree.db"%string)
       clock0 {["3" := row_concept_escalated]} "3" "paused" "").1
      !! "3"%string = Some row'
    ∧ row' = row_concept_escalated.
Proof.
  destruct (escalated_actions_and_the_row false
              (node_of_row [] "3" row_concept_escalated) "paused"
              Db.pk_story_path (Some "story-tree.db"%string) clock0
              {["3" := row_concept_escalated]} "" row_concept_escalated)
    as [_ H].
  - reflexivity.
  - apply (bool_decide_unpack _). by vm_compute.
  - reflexivity.
  - apply lookup_singleton_eq.
  - exact H.
Defined.

(** X9: for a node that is not escalated no offered target is the
    effective status of the node; and since the update writes nothing
    on the table that the loader reads, the node loaded again after the
    button was pressed is the node as it was, with an effective status
    that is not the target. *)
Theorem offered_action_and_the_reloaded_node
    (respond : bool) (db_path : option string) (clk : Clock)
    (db : gmap string Db.Row) (story_paths : list Db.PathRow)
    (node_id t notes : string) (node : StoryNode) :
  _load_nodes_from_db db story_paths !! node_id = Some node →
  status node ≠ "escalated"%string →
  t ∈ _add_status_actions respond node →
  t ≠ effective_status node
  ∧ _load_nodes_from_db
      (_update_node_status_in_db Db.pk_story_path db_path clk db node_id t
         notes).1 story_paths !! node_id
    = Some node.
Proof.
  intros Hnode Hs Ht.
  apply offered_in_tables in Ht
    as (key & targets & Hin & Ht & [(He & _)|[_ ->]]); [done|].
  assert (Hall : Forall (λ kv, Forall (λ x, x ≠ kv.1) kv.2) all_transitions).
  { apply (bool_decide_unpack _). by vm_compute. }
  pose proof (proj1 (Forall_forall _ _)
                (proj1 (Forall_forall _ _) Hall _ Hin) _ Ht) as Hkey.
  split; [done|]. by rewrite update_story_path_store.
Qed.

Lemma offered_action_and_the_reloaded_node_witness :
  "planning"%string ≠ "concept"%string
  ∧ _load_nodes_from_db
      (_update_node_status_in_db Db.pk_story_path
         (Some "story-tree.db"%string) clock0
         {["3" := row_of "concept" "ready"]} "3" "planning" "").1
      [] !! "3"%string
    = Some node_concept.
Proof.
  apply (offered_action_and_the_reloaded_node false
           (Some "story-tree.db"%string) clock0
           {["3" := row_of "concept" "ready"]} [] "3" "planning" ""
           node_concept).
  - by vm_compute.
  - discriminate.
  - apply (bool_decide_unpack _). by vm_compute.
Defined.

End Menus.

(** ** The loaded nodes, continued *)

Section LoadingMore.

Lemma kids_NoDup story_nodes story_paths (k : string) :
  NoDup (kids (fresh_nodes story_nodes story_paths) k).
Proof.
  unfold kids.
  eapply sublist_NoDup; [|apply fmap_sublist, sublist_filter].
  rewrite fresh_nodes_ids. apply ordered_items_NoDup.
Qed.

(** X10: loading keeps the ids of the table, and the [children] lists
    partition the nodes by parent: a node's children are, without
    repetition, exactly the nodes whose truthy [parent_id] it is, so no
    node is among the children of two nodes. *)
Theorem loaded_children_partition
    (story_nodes : gmap string Db.Row) (story_paths : list Db.PathRow) :
  let nodes := _load_nodes_from_db story_nodes story_paths in
  (∀ k, is_Some (nodes !! k) ↔ is_Some (story_nodes !! k))
  ∧ (∀ k n, nodes !! k = Some n →
            id n = k ∧ NoDup (children n)
            ∧ ∀ c, c ∈ children n
                   ↔ ∃ nc, nodes !! c = Some nc ∧ live_parent nc = Some k)
  ∧ (∀ k1 k2 n1 n2 c,
       nodes !! k1 = Some n1 → nodes !! k2 = Some n2 →
       c ∈ children n1 → c ∈ children n2 → k1 = k2).
Proof.
  intros nodes. pose proof (load_linked story_nodes story_paths) as [Hid Hch].
  fold nodes in Hid, Hch. split; [|split].
  - intros k. subst nodes. rewrite load_lookup.
    destruct (story_nodes !! k); simpl; split; intros [? ?]; by eauto.
  - intros k n Hn. split; [by apply Hid|].
    split; [|intros c; exact (Hch k n c Hn)].
    subst nodes. rewrite load_lookup in Hn.
    apply fmap_Some in Hn as (r & _ & ->). simpl.
    unfold sort_nodes. rewrite sort_by_perm. apply kids_NoDup.
  - intros k1 k2 n1 n2 c H1 H2 Hc1 Hc2.
    apply (Hch k1 n1 c H1) in Hc1 as (nc1 & Hnc1 & Hp1).
    apply (Hch k2 n2 c H2) in Hc2 as (nc2 & Hnc2 & Hp2).
    congruence.
Qed.

Lemma loaded_children_partition_witness :
  ∃ n, _load_nodes_from_db chain_nodes chain_paths !! "root"%string = Some n
       ∧ id n = "root"%string ∧ NoDup (children n).
Proof.
  destruct (loaded_children_partition chain_nodes chain_paths) as (_ & H & _).
  eexists. split; [by vm_compute|].
  match goal with |- id ?n = _ ∧ _ =>
    destruct (H "root"%string n) as (H1 & H2 & _); [by vm_compute|] end.
  split; [exact H1 | exact H2].
Defined.

Lemma filter_none {A} (P : A → Prop) `{∀ x, Decision (P x)} (l : list A) :
  (∀ x, x ∈ l → ¬ P x) → filter P l = [].
Proof.
  induction l as [|x l IH]; intros Hl; [done|].
  rewrite filter_cons, decide_False by (apply Hl; left).
  apply IH. intros y Hy. apply Hl. by right.
Qed.

(** X11: a node that no row of the closure table mentions is loaded as
    a node without parent and children, at depth 0, and with a
    descendant count of -1. *)
Theorem unlinked_node_loaded
    (story_nodes : gmap string Db.Row) (story_paths : list Db.PathRow)
    (k : string) :
  is_Some (story_nodes !! k) →
  (∀ sp, sp ∈ story_paths →
         Db.descendant_id sp ≠ k ∧ Db.ancestor_id sp ≠ k) →
  ∃ n, _load_nodes_from_db story_nodes story_paths !! k = Some n
       ∧ parent_id n = None ∧ children n = []
       ∧ depth n = 0%Z ∧ descendants_count n = (-1)%Z.
Proof.
  intros [r Hr] Hno. rewrite load_lookup, Hr. simpl. eexists.
  split; [done|]. simpl.
  assert (Hkids : kids (fresh_nodes story_nodes story_paths) k = []).
  { unfold kids. rewrite filter_none; [done|].
    intros n Hn Hp. apply elem_of_fresh_nodes in Hn as (rn & _ & Hn).
    apply live_parent_Some in Hp. rewrite Hn in Hp. simpl in Hp.
    unfold parent_of in Hp.
    destruct (filter _ story_paths) as [|sp rest] eqn:Hf; [done|].
    assert (Hsp : sp ∈ sp :: rest) by left.
    rewrite <- Hf in Hsp. apply list_elem_of_filter in Hsp as [_ Hsp].
    simpl in Hp. injection Hp as Hp. by destruct (Hno sp Hsp). }
  rewrite Hkids. repeat split.
  - unfold parent_of. rewrite filter_none; [done|].
    intros sp Hsp [Hd _]. by destruct (Hno sp Hsp).
  - assert (Hmin : min_depth story_paths k = None); [|by rewrite Hmin].
    clear Hkids. induction story_paths as [|sp l IH]; [done|]. simpl.
    rewrite bool_decide_eq_false_2.
    + apply IH. intros x Hx. apply Hno. by right.
    + intros [Hd _]. destruct (Hno sp) as [? _]; [left|done].
  - unfold count_descendants. rewrite filter_none; [done|].
    intros sp Hsp Ha. by destruct (Hno sp Hsp).
Qed.

Lemma unlinked_node_loaded_witness :
  ∃ n, _load_nodes_from_db chain_nodes [path_row "root" "root" 0] !! "1"%string
       = Some n
       ∧ parent_id n = None ∧ children n = []
       ∧ depth n = 0%Z ∧ descendants_count n = (-1)%Z.
Proof.
  apply (unlinked_node_loaded chain_nodes [path_row "root" "root" 0] "1").
  - by vm_compute; eexists.
  - intros sp Hsp. apply list_elem_of_singleton in Hsp as ->.
    split; discriminate.
Defined.

End LoadingMore.

(** ** Moving between escalated nodes *)

Section Navigation.

Lemma index_lookup (x : string) (l : list string) :
  x ∈ l → l !! index x l = Some x ∧ index x l < length l.
Proof.
  induction l as [|y r IH]; [by intros ?%elem_of_nil|].
  intros Hx. simpl. destruct (String.eqb_spec y x) as [->|Hne].
  - split; [done | lia].
  - apply elem_of_cons in Hx as [->|Hx]; [done|].
    destruct (IH Hx) as [H1 H2]. split; [done | lia].
Qed.

Lemma index_NoDup (x : string) (l : list string) (i : nat) :
  NoDup l → l !! i = Some x → index x l = i.
Proof.
  intros Hnd. revert i. induction Hnd as [|y r Hy Hnd IH]; intros i Hi.
  - by rewrite lookup_nil in Hi.
  - simpl. destruct i as [|i]; simpl in Hi.
    + injection Hi as ->. by rewrite String.eqb_refl.
    + destruct (String.eqb_spec y x) as [->|Hne].
      * destruct Hy. by eapply list_elem_of_lookup_2.
      * f_equal. by apply IH.
Qed.

Lemma escalated_elem (nodes : gmap string StoryNode) (x : string) :
  x ∈ _get_escalated_nodes nodes
  ↔ ∃ n, nodes !! x = Some n ∧ status n = "escalated"%string.
Proof.
  unfold _get_escalated_nodes, sort_nodes.
  rewrite elem_of_sort_by, list_elem_of_fmap. split.
  - intros ([k n] & -> & Hin). apply list_elem_of_filter in Hin as [Hs Hin].
    apply elem_of_ordered_items in Hin. by exists n.
  - intros (n & Hn & Hs). exists (x, n). split; [done|].
    apply list_elem_of_filter. split; [done|]. by apply elem_of_ordered_items.
Qed.

Lemma escalated_NoDup (nodes : gmap string StoryNode) :
  NoDup (_get_escalated_nodes nodes).
Proof.
  unfold _get_escalated_nodes, sort_nodes. rewrite sort_by_perm.
  eapply sublist_NoDup; [apply (ordered_items_NoDup nodes)|].
  apply fmap_sublist, sublist_filter.
Qed.

(** X12: the list walked by the Previous and Next buttons holds, once
    each and in the order of the sort key, exactly the ids of the nodes
    whose status is "escalated". *)
Theorem escalated_nodes_listed (nodes : gmap string StoryNode) :
  (∀ x, x ∈ _get_escalated_nodes nodes
        ↔ ∃ n, nodes !! x = Some n ∧ status n = "escalated"%string)
  ∧ NoDup (_get_escalated_nodes nodes)
  ∧ Sorted (ascending id_ltb) (_get_escalated_nodes nodes).
Proof.
  split; [apply escalated_elem|]. split; [apply escalated_NoDup|].
  unfold _get_escalated_nodes. apply (sort_by_sorted id_ltb).
  intros a b. apply key_ltb_asym.
Qed.

(** X13: Next and Previous undo each other, and neither stays on the
    current node. *)
Theorem escalated_navigation_round_trip
    (nodes : gmap string StoryNode) (a b : string) :
  (_go_next_escalated nodes (Some a) = Some b →
   _go_prev_escalated nodes (Some b) = Some a ∧ a ≠ b)
  ∧ (_go_prev_escalated nodes (Some a) = Some b →
     _go_next_escalated nodes (Some b) = Some a ∧ a ≠ b).
Proof.
  pose proof (escalated_NoDup nodes) as Hnd.
  unfold _go_next_escalated, _go_prev_escalated.
  set (l := _get_escalated_nodes nodes) in *. split.
  - case_bool_decide as Ha; [|done].
    destruct (index_lookup a l Ha) as [Hla Hlt].
    destruct (Nat.ltb_spec (index a l) (length l - 1)) as [Hi|_]; [|done].
    intros Hb. pose proof (index_NoDup b l _ Hnd Hb) as Hib.
    assert (Hbl : b ∈ l) by (by eapply list_elem_of_lookup_2).
    rewrite bool_decide_eq_true_2, Hib by done.
    destruct (Nat.ltb_spec 0 (index a l + 1)) as [_|?]; [|lia].
    replace (index a l + 1 - 1) with (index a l) by lia.
    split; [done|]. intros ->. lia.
  - case_bool_decide as Ha; [|done].
    destruct (index_lookup a l Ha) as [Hla Hlt].
    destruct (Nat.ltb_spec 0 (index a l)) as [Hi|_]; [|done].
    intros Hb. pose proof (index_NoDup b l _ Hnd Hb) as Hib.
    assert (Hbl : b ∈ l) by (by eapply list_elem_of_lookup_2).
    rewrite bool_decide_eq_true_2, Hib by done.
    destruct (Nat.ltb_spec (index a l - 1) (length l - 1)) as [_|?]; [|lia].
    replace (index a l - 1 + 1) with (index a l) by lia.
    split; [done|]. intros ->. lia.
Qed.

(** X14: in Respond mode a navigation button is enabled exactly when
    pressing it shows another node; outside Respond mode the buttons are
    hidden and keep their state. *)
Theorem nav_buttons_match_navigation
    (nodes : gmap string StoryNode) (current_node_id : option string)
    (old : NavButtons) :
  let shown := _update_escalated_nav_buttons true nodes current_node_id old in
  (prev_enabled shown = true
   ↔ is_Some (_go_prev_escalated nodes current_node_id))
  ∧ (next_enabled shown = true
     ↔ is_Some (_go_next_escalated nodes current_node_id))
  ∧ (empty_state_shown shown = true ↔ _get_escalated_nodes nodes = [])
  ∧ _update_escalated_nav_buttons false nodes current_node_id old
    = mkNav false (prev_enabled old) (next_enabled old) false.
Proof.
  intros shown. subst shown.
  unfold _update_escalated_nav_buttons, _go_prev_escalated, _go_next_escalated.
  cbn [negb].
  generalize (_get_escalated_nodes nodes). intros l.
  assert (Hno : ¬ is_Some (@None string)) by (by intros [? ?]).
  destruct l as [|x r].
  { destruct current_node_id as [c|]; simpl; repeat split; try done.
    all: by rewrite bool_decide_eq_false_2 by apply not_elem_of_nil. }
  cbv beta iota. set (l := x :: r).
  destruct current_node_id as [c|]; [|by repeat split].
  case_bool_decide as Hc; [|by repeat split].
  destruct (index_lookup c l Hc) as [Hlc Hlt].
  cbn [prev_enabled next_enabled empty_state_shown].
  split; [|split; [|split; [|done]]].
  - destruct (Nat.ltb_spec 0 (index c l)) as [Hi|Hi]; [|done].
    split; [|done]. intros _. apply lookup_lt_is_Some. lia.
  - destruct (Nat.ltb_spec (index c l) (length l - 1)) as [Hi|Hi]; [|done].
    split; [|done]. intros _. apply lookup_lt_is_Some. lia.
  - done.
Qed.

Lemma escalated_navigation_round_trip_witness :
  _go_prev_escalated two_escalated (Some "10"%string) = Some "2"%string
  ∧ "2"%string ≠ "10"%string.
Proof.
  apply (escalated_navigation_round_trip two_escalated "2" "10").
  by vm_compute.
Defined.

Lemma nodes_with_status_elem (nodes : gmap string StoryNode) (s x : string) :
  x ∈ _get_nodes_with_status nodes s
  ↔ ∃ n, nodes !! x = Some n ∧ effective_status n = s.
Proof.
  unfold _get_nodes_with_status. rewrite list_elem_of_fmap. split.
  - intros ([k n] & -> & Hin). apply list_elem_of_filter in Hin as [Hs Hin].
    apply elem_of_ordered_items in Hin. by exists n.
  - intros (n & Hn & Hs). exists (x, n). split; [done|].
    apply list_elem_of_filter. split; [done|]. by apply elem_of_ordered_items.
Qed.

Lemma nodes_with_status_NoDup (nodes : gmap string StoryNode) (s : string) :
  NoDup (_get_nodes_with_status nodes s).
Proof.
  unfold _get_nodes_with_status.
  eapply sublist_NoDup; [apply (ordered_items_NoDup nodes)|].
  apply fmap_sublist, sublist_filter.
Qed.

(** X15: after a button was pressed the detail view moves to another
    node only if the pressed node's effective status is its status; the
    node it moves to is then a different node with that effective status.
    Otherwise it shows the current node again.  The change itself is the
    one of [_change_node_status]. *)
Theorem status_button_navigation
    (pk_column : Db.KeyColumn)
    (nodes : gmap string StoryNode) (db_path : option string) (clk : Clock)
    (db : gmap string Db.Row) (current_node_id : option string)
    (node_id new_status : string) (actions : list UserAction) :
  let out := _on_status_button_clicked pk_column nodes db_path clk db
               current_node_id node_id new_status actions in
  out.1 = _change_node_status pk_column nodes db_path clk db node_id
            new_status actions
  ∧ (∀ n, out.2 = Some n →
          Some n = current_node_id
          ∨ n ≠ node_id
            ∧ ∃ nd nn, nodes !! node_id = Some nd ∧ nodes !! n = Some nn
                       ∧ effective_status nd = status nd
                       ∧ effective_status nn = status nd)
  ∧ (∀ nd, nodes !! node_id = Some nd → effective_status nd ≠ status nd →
           out.2 = if Py.truthy current_node_id then current_node_id
                   else None).
Proof.
  intros out. subst out. unfold _on_status_button_clicked.
  destruct (_change_node_status pk_column nodes db_path clk db node_id
              new_status actions) as [db' shown].
  cbn [fst snd]. split; [done|].
  set (l := match status <$> nodes !! node_id with
            | Some s => if Py.truthy_str s then _get_nodes_with_status nodes s
                        else []
            | None => []
            end).
  assert (Hl : NoDup l
               ∧ ∀ x, x ∈ l → ∃ nd nn, nodes !! node_id = Some nd
                                       ∧ nodes !! x = Some nn
                                       ∧ effective_status nn = status nd).
  { subst l. destruct (nodes !! node_id) as [nd|]; simpl;
      [|split; [constructor | by intros ? ?%elem_of_nil]].
    destruct (Py.truthy_str (status nd));
      [|split; [constructor | by intros ? ?%elem_of_nil]].
    split; [apply nodes_with_status_NoDup|].
    intros x Hx. apply nodes_with_status_elem in Hx as (nn & Hnn & Hs).
    by exists nd, nn. }
  destruct Hl as [Hnd Hl]. split.
  - intros n. case_bool_decide as Hin; simpl.
    + destruct (index_lookup node_id l Hin) as [Hlk Hlt].
      assert (Hother : ∀ i, l !! i = Some n → i ≠ index node_id l →
                Some n = current_node_id
                ∨ n ≠ node_id
                  ∧ ∃ nd nn, nodes !! node_id = Some nd ∧ nodes !! n = Some nn
                             ∧ effective_status nd = status nd
                             ∧ effective_status nn = status nd).
      { intros i Hi Hne. right. split.
        - intros ->. by rewrite (index_NoDup _ _ _ Hnd Hi) in Hne.
        - destruct (Hl n) as (nd & nn & H1 & H2 & H3);
            [by eapply list_elem_of_lookup_2|].
          destruct (Hl node_id Hin) as (nd' & nn' & H1' & H2' & H3').
          exists nd, nn. repeat split; [done..| |done]. congruence. }
      destruct (Nat.ltb_spec (index node_id l) (length l - 1)) as [Hi|Hi].
      * destruct (l !! (index node_id l + 1)) as [m|] eqn:Hm; simpl.
        -- destruct (Py.truthy_str m).
           ++ intros [= ->]. apply (Hother _ Hm). lia.
           ++ destruct (Py.truthy current_node_id); [by left; eauto|done].
        -- destruct (Py.truthy current_node_id); [by left; eauto|done].
      * destruct (Nat.ltb_spec 0 (index node_id l)) as [Hj|Hj].
        -- destruct (l !! (index node_id l - 1)) as [m|] eqn:Hm; simpl.
           ++ destruct (Py.truthy_str m).
              ** intros [= ->]. apply (Hother _ Hm). lia.
              ** destruct (Py.truthy current_node_id); [by left; eauto|done].
           ++ destruct (Py.truthy current_node_id); [by left; eauto|done].
        -- simpl. destruct (Py.truthy current_node_id); [by left; eauto|done].
    + destruct (Py.truthy current_node_id); [by left; eauto|done].
  - intros nd Hnd' Hne. rewrite bool_decide_eq_false_2; [done|].
    intros Hin. destruct (Hl node_id Hin) as (nd1 & nn & H1 & H2 & H3).
    congruence.
Qed.

Lemma status_button_navigation_witness :
  (_on_status_button_clicked Db.pk_story_path two_blocked
     (Some "story-tree.db"%string) clock0 ∅ (Some "3"%string) "3" "planning"
     []).2 = Some "3"%string.
Proof.
  destruct (status_button_navigation Db.pk_story_path two_blocked
              (Some "story-tree.db"%string) clock0 ∅ (Some "3"%string)
              "3" "planning" []) as (_ & _ & H).
  eapply H; [by vm_compute | by vm_compute].
Defined.

(** A blocked node hands over to the next blocked node. *)
Example status_button_moves_on :
  (_on_status_button_clicked Db.pk_story_path two_blocked
     (Some "story-tree.db"%string) clock0 ∅ (Some "10"%string) "10"
     "escalated" []).2 = Some "2"%string.
Proof. by vm_compute. Qed.

End Navigation.

(** ** The filter boxes and Respond mode *)

Section RespondMode.

Implicit Types (app a : App) (g : string → option bool) (s n : string).

Lemma App_eq a b :
  status_checkboxes a = status_checkboxes b →
  respond_mode_active a = respond_mode_active b →
  _saved_checkbox_states a = _saved_checkbox_states b →
  _checkbox_change_internal a = _checkbox_change_internal b →
  a = b.
Proof. destruct a, b; simpl; congruence. Qed.

Lemma boxes_of_setup_lookup app s :
  boxes_of_setup app →
  is_Some (status_checkboxes app !! s) ↔ s ∈ checkbox_order.
Proof.
  unfold boxes_of_setup; intros H.
  rewrite <- elem_of_dom, H, elem_of_list_to_set. done.
Qed.

(** One [setChecked]: the boxes. *)
Lemma setChecked_lookup n v a s :
  status_checkboxes (setChecked n v a) !! s
  = match status_checkboxes a !! s with
    | Some b => Some (if bool_decide (s = n) then v else b)
    | None => None
    end.
Proof.
  unfold setChecked.
  destruct (status_checkboxes a !! n) as [old|] eqn:Hn.
  - destruct (Bool.eqb_spec old v) as [->|Hne].
    + case_bool_decide as Hs; [subst s; by rewrite Hn|].
      by destruct (status_checkboxes a !! s).
    + assert (Hb : status_checkboxes
                (_on_checkbox_changed
                   (set_checkboxes (<[n:=v]> (status_checkboxes a)) a))
              = <[n:=v]> (status_checkboxes a)).
      { unfold _on_checkbox_changed, set_checkboxes, set_respond_mode,
          _save_checkbox_states; simpl.
        by destruct (_checkbox_change_internal a), (respond_mode_active a). }
      rewrite Hb. case_bool_decide as Hs.
      * subst s. by rewrite lookup_insert_eq, Hn.
      * rewrite lookup_insert_ne by done.
        by destruct (status_checkboxes a !! s).
  - case_bool_decide as Hs; [subst s; by rewrite Hn|].
    by destruct (status_checkboxes a !! s).
Qed.

(** One [setChecked] while [_checkbox_change_internal] is set: nothing
    but the boxes changes. *)
Lemma setChecked_internal n v a :
  _checkbox_change_internal a = true →
  respond_mode_active (setChecked n v a) = respond_mode_active a
  ∧ _saved_checkbox_states (setChecked n v a) = _saved_checkbox_states a
  ∧ _checkbox_change_internal (setChecked n v a) = true.
Proof.
  intros Hi. unfold setChecked.
  destruct (status_checkboxes a !! n) as [old|]; [|done].
  destruct (Bool.eqb old v); [done|].
  unfold _on_checkbox_changed; simpl. by rewrite Hi.
Qed.

Lemma checkbox_loop_cons value n r a :
  checkbox_loop value (n :: r) a
  = checkbox_loop value r
      (match status_checkboxes a !! n with
       | Some _ => match value a n with
                   | Some v => setChecked n v a
                   | None => a
                   end
       | None => a
       end).
Proof. done. Qed.

(** A loop whose body does not read the state: the boxes afterwards. *)
Lemma checkbox_loop_lookup g names a s :
  status_checkboxes (checkbox_loop (λ _, g) names a) !! s
  = match status_checkboxes a !! s with
    | Some b => Some (if bool_decide (s ∈ names) then default b (g s) else b)
    | None => None
    end.
Proof.
  revert a; induction names as [|n r IH]; intros a.
  - unfold checkbox_loop; simpl. by destruct (status_checkboxes a !! s).
  - rewrite checkbox_loop_cons, IH.
    assert (Hstep :
      status_checkboxes
        (match status_checkboxes a !! n with
         | Some _ => match g n with
                     | Some v => setChecked n v a
                     | None => a
                     end
         | None => a
         end) !! s
      = match status_checkboxes a !! s with
        | Some b => Some (if bool_decide (s = n) then default b (g s) else b)
        | None => None
        end).
    { destruct (status_checkboxes a !! n) as [old|] eqn:Hn.
      - destruct (g n) as [v|] eqn:Hg.
        + rewrite setChecked_lookup.
          destruct (status_checkboxes a !! s); [|done].
          destruct (bool_decide_reflect (s = n)) as [E|E]; [|done].
          by rewrite E, Hg.
        + destruct (status_checkboxes a !! s); [|done].
          destruct (bool_decide_reflect (s = n)) as [E|E]; [|done].
          by rewrite E, Hg.
      - destruct (status_checkboxes a !! s) eqn:Hs; [|done].
        destruct (bool_decide_reflect (s = n)) as [E|E]; [|done].
        congruence. }
    rewrite Hstep. destruct (status_checkboxes a !! s) as [b|]; [|done].
    f_equal. destruct (bool_decide_reflect (s = n)) as [E|E].
    + rewrite E. rewrite (bool_decide_eq_true_2 (n ∈ n :: r)) by left.
      destruct (bool_decide_reflect (n ∈ r)); [|done]. by destruct (g n).
    + rewrite (bool_decide_ext (s ∈ n :: r) (s ∈ r)); [done|].
      rewrite elem_of_cons. split; [by intros [?|?]|by right].
Qed.

(** A loop run while [_checkbox_change_internal] is set changes nothing
    but the boxes. *)
Lemma checkbox_loop_internal value names a :
  _checkbox_change_internal a = true →
  respond_mode_active (checkbox_loop value names a) = respond_mode_active a
  ∧ _saved_checkbox_states (checkbox_loop value names a)
    = _saved_checkbox_states a
  ∧ _checkbox_change_internal (checkbox_loop value names a) = true.
Proof.
  revert a; induction names as [|n r IH]; intros a Hi; [done|].
  rewrite checkbox_loop_cons.
  destruct (status_checkboxes a !! n); [|by apply IH].
  destruct (value a n) as [v|]; [|by apply IH].
  destruct (setChecked_internal n v a Hi) as (Hr & Hs & Hi').
  destruct (IH _ Hi') as (? & ? & ?). repeat split; congruence.
Qed.

(** In such a loop a body that reads only the saved states chooses the
    same values throughout. *)
Lemma checkbox_loop_saved value names a :
  _checkbox_change_internal a = true →
  (∀ b c, _saved_checkbox_states b = _saved_checkbox_states c →
          value b = value c) →
  checkbox_loop value names a = checkbox_loop (λ _, value a) names a.
Proof.
  intros Hi Hv. revert a Hi; induction names as [|n r IH]; intros a Hi; [done|].
  rewrite !checkbox_loop_cons.
  destruct (status_checkboxes a !! n); [|by apply IH].
  destruct (value a n) as [v|]; [|by apply IH].
  destruct (setChecked_internal n v a Hi) as (Hr & Hs & Hi').
  rewrite IH by done. by rewrite (Hv _ a Hs).
Qed.

(** The state after [_apply_respond_preset]. *)
Lemma respond_preset_state a :
  let a' := _apply_respond_preset a in
  (∀ s, status_checkboxes a' !! s
        = match status_checkboxes a !! s with
          | Some b =>
              Some (if bool_decide (s ∈ checkbox_order)
                    then default b (respond_preset s) else b)
          | None => None
          end)
  ∧ respond_mode_active a' = respond_mode_active a
  ∧ _saved_checkbox_states a' = _saved_checkbox_states a
  ∧ _checkbox_change_internal a' = false.
Proof.
  unfold _apply_respond_preset, for_each_checkbox; cbv zeta.
  pose proof (checkbox_loop_internal (λ _, respond_preset) checkbox_order
                (set_internal true a) eq_refl) as Hi.
  pose proof (checkbox_loop_lookup respond_preset checkbox_order
                (set_internal true a)) as Hl.
  revert Hi Hl.
  generalize (checkbox_loop (λ _, respond_preset) checkbox_order
                (set_internal true a)).
  intros X (Hr & Hs & _) Hl. by destruct X, a.
Qed.

(** The state after [_restore_checkbox_states]: both branches give each
    box its saved state, and check a box of which none is saved. *)
Lemma restore_state a :
  let a' := _restore_checkbox_states a in
  (∀ s, status_checkboxes a' !! s
        = match status_checkboxes a !! s with
          | Some b =>
              Some (if bool_decide (s ∈ checkbox_order)
                    then default true (_saved_checkbox_states a !! s) else b)
          | None => None
          end)
  ∧ respond_mode_active a' = respond_mode_active a
  ∧ _saved_checkbox_states a' = _saved_checkbox_states a
  ∧ _checkbox_change_internal a' = false.
Proof.
  unfold _restore_checkbox_states, for_each_checkbox; cbv zeta.
  case_bool_decide as He.
  - pose proof (checkbox_loop_internal (λ _ _, Some true) checkbox_order
                  (set_internal true a) eq_refl) as Hi.
    pose proof (checkbox_loop_lookup (λ _, Some true) checkbox_order
                  (set_internal true a)) as Hl.
    revert Hi Hl.
    generalize (checkbox_loop (λ _ _, Some true) checkbox_order
                  (set_internal true a)).
    intros X (Hr & Hs & _) Hl. destruct X, a; simpl in *.
    split; [|done]. intros s. rewrite Hl, He, lookup_empty. done.
  - set (value := λ (b : App) name,
                    Some (default true (_saved_checkbox_states b !! name))).
    pose proof (checkbox_loop_internal value checkbox_order
                  (set_internal true a) eq_refl) as Hi.
    pose proof (checkbox_loop_lookup (value (set_internal true a))
                  checkbox_order (set_internal true a)) as Hl.
    rewrite <- (checkbox_loop_saved value) in Hl
      by (done || (intros b c E; unfold value; by rewrite E)).
    revert Hi Hl.
    generalize (checkbox_loop value checkbox_order (set_internal true a)).
    intros X (Hr & Hs & _) Hl. by destruct X, a.
Qed.

(** *** Changes made by the user *)

Lemma setChecked_same n v a :
  status_checkboxes a !! n ≠ Some (negb v) → setChecked n v a = a.
Proof.
  unfold setChecked. destruct (status_checkboxes a !! n) as [old|]; [|done].
  destruct old, v; simpl; congruence.
Qed.

Lemma setChecked_change n v a :
  status_checkboxes a !! n = Some (negb v) →
  setChecked n v a
  = _on_checkbox_changed
      (set_checkboxes (<[n:=v]> (status_checkboxes a)) a).
Proof.
  unfold setChecked. intros ->. by destruct v.
Qed.

Lemma setChecked_settings_saved n v a :
  settings_saved a → settings_saved (setChecked n v a).
Proof.
  intros (Hr & Hi & Hs).
  destruct (decide (status_checkboxes a !! n = Some (negb v))) as [Hn|Hn];
    [|by rewrite setChecked_same].
  rewrite setChecked_change by done.
  destruct a as [bx r sv i]; simpl in *; subst.
  by unfold settings_saved.
Qed.

Lemma checkbox_loop_settings_saved v names a :
  settings_saved a → settings_saved (checkbox_loop (λ _ _, Some v) names a).
Proof.
  revert a; induction names as [|n r IH]; intros a Ha; [done|].
  rewrite checkbox_loop_cons.
  destruct (status_checkboxes a !! n); apply IH; [|done].
  by apply setChecked_settings_saved.
Qed.

(** Outside Respond mode one box that changes is enough to save the
    settings. *)
Lemma checkbox_loop_saves v names a s :
  respond_mode_active a = false → _checkbox_change_internal a = false →
  s ∈ names → status_checkboxes a !! s = Some (negb v) →
  settings_saved (checkbox_loop (λ _ _, Some v) names a).
Proof.
  revert a; induction names as [|n r IH]; intros a Hr Hi Hin Hs;
    [by apply elem_of_nil in Hin|].
  rewrite checkbox_loop_cons.
  destruct (decide (status_checkboxes a !! n = Some (negb v))) as [Hn|Hn].
  - rewrite Hn, setChecked_change by done.
    apply checkbox_loop_settings_saved.
    destruct a as [bx rm sv i]; simpl in *; subst. by unfold settings_saved.
  - assert (Hne : s ≠ n) by congruence.
    apply elem_of_cons in Hin as [?|Hin]; [done|].
    destruct (status_checkboxes a !! n) eqn:E; [|by apply IH].
    rewrite setChecked_same by (by rewrite E). by apply IH.
Qed.

(** In Respond mode the first box that changes ends Respond mode, and
    the second saves the settings. *)
Lemma checkbox_loop_respond_saves v names a s1 s2 :
  respond_mode_active a = true → _checkbox_change_internal a = false →
  s1 ≠ s2 → s1 ∈ names → s2 ∈ names →
  status_checkboxes a !! s1 = Some (negb v) →
  status_checkboxes a !! s2 = Some (negb v) →
  settings_saved (checkbox_loop (λ _ _, Some v) names a).
Proof.
  revert a; induction names as [|n r IH]; intros a Hr Hi Hne H1 H2 Hs1 Hs2;
    [by apply elem_of_nil in H1|].
  rewrite checkbox_loop_cons.
  destruct (decide (status_checkboxes a !! n = Some (negb v))) as [Hn|Hn].
  - rewrite Hn, setChecked_change by done.
    assert (∃ s, s ∈ r ∧ s ≠ n
                 ∧ status_checkboxes a !! s = Some (negb v))
      as (s & Hin & Hsn & Hs).
    { destruct (decide (s1 = n)) as [->|?].
      - exists s2. apply elem_of_cons in H2 as [?|?]; [congruence|done].
      - exists s1. apply elem_of_cons in H1 as [?|?]; [congruence|done]. }
    apply (checkbox_loop_saves v r _ s); [| |done|].
    + destruct a; simpl in *; by subst.
    + destruct a; simpl in *; by subst.
    + destruct a as [bx rm sv i]; simpl in *; subst; simpl.
      by rewrite lookup_insert_ne.
  - assert (s1 ≠ n) by congruence. assert (s2 ≠ n) by congruence.
    apply elem_of_cons in H1 as [?|H1]; [done|].
    apply elem_of_cons in H2 as [?|H2]; [done|].
    destruct (status_checkboxes a !! n) eqn:E; [|by apply IH].
    rewrite setChecked_same by (by rewrite E). by apply IH.
Qed.

(** *** What the tree shows *)

Lemma checked_as (boxes : gmap string bool) (g : string → bool)
    (order : list string) :
  (∀ s, s ∈ order → boxes !! s = Some (g s)) →
  checked boxes order = filter (λ s, g s = true) order.
Proof.
  unfold checked. induction order as [|x r IH]; intros H; [done|].
  rewrite !filter_cons, IH by (intros; apply H; by right).
  rewrite (H x) by left.
  destruct (g x); repeat case_decide; congruence.
Qed.

Lemma checkbox_order_elem s :
  s ∈ checkbox_order
  ↔ s ∈ STAGE_ORDER ∨ s ∈ STATUS_ORDER_HOLDS ∨ s ∈ TERMINUS_ORDER.
Proof. unfold checkbox_order. by rewrite !elem_of_app. Qed.

Lemma respond_preset_total s :
  s ∈ checkbox_order → is_Some (respond_preset s).
Proof.
  revert s. apply Forall_forall.
  apply (bool_decide_unpack _). by vm_compute.
Qed.

(** The boxes after [_apply_respond_preset], for the boxes that
    [_setup_ui] creates. *)
Lemma respond_preset_boxes a s :
  boxes_of_setup a → s ∈ checkbox_order →
  status_checkboxes (_apply_respond_preset a) !! s = respond_preset s.
Proof.
  intros Hsetup Hs.
  destruct (respond_preset_state a) as (Hl & _). rewrite Hl.
  destruct (proj2 (boxes_of_setup_lookup a s Hsetup) Hs) as [b ->].
  rewrite bool_decide_eq_true_2 by done.
  by destruct (respond_preset_total s Hs) as [v ->].
Qed.

Lemma respond_preset_checked a :
  boxes_of_setup a →
  let boxes := status_checkboxes (_apply_respond_preset a) in
  checked boxes STAGE_ORDER = STAGE_ORDER
  ∧ checked boxes STATUS_ORDER_HOLDS = ["escalated"]
  ∧ checked boxes TERMINUS_ORDER = ["shipped"].
Proof.
  intros Hsetup boxes.
  assert (H : ∀ s, s ∈ checkbox_order →
                boxes !! s = Some (default false (respond_preset s))).
  { intros s Hs. unfold boxes. rewrite respond_preset_boxes by done.
    by destruct (respond_preset_total s Hs) as [v ->]. }
  clearbody boxes.
  rewrite !(checked_as boxes (λ s, default false (respond_preset s)))
    by (intros; apply H, checkbox_order_elem; eauto).
  done.
Qed.

Lemma respond_filter_matches (n : StoryNode) :
  node_matches_filter STAGE_ORDER ["escalated"] ["shipped"] n = true
  ↔ stage n ∈ STAGE_ORDER
    ∧ (status n = "escalated"%string ∨ terminus n = Some "shipped"%string).
Proof.
  unfold node_matches_filter, Py.member, Py.truthy, Py.truthy_str.
  rewrite (bool_decide_eq_false_2 ("ready"%string ∈ ["escalated"%string]))
    by (by intros ?%list_elem_of_singleton).
  rewrite (bool_decide_eq_false_2 ("active"%string ∈ ["shipped"%string]))
    by (by intros ?%list_elem_of_singleton).
  destruct (bool_decide_reflect (stage n ∈ STAGE_ORDER)) as [Hst|Hst];
    cbn [negb]; [|split; [done|by intros [? _]]].
  destruct (bool_decide_reflect (status n ∈ ["escalated"%string])) as [Hs|Hs];
    [apply list_elem_of_singleton in Hs
    |rewrite list_elem_of_singleton in Hs].
  - rewrite Hs. cbn. tauto.
  - rewrite !andb_false_r. cbn [andb orb].
    destruct (terminus n) as [t|];
      [change (default ""%string (Some t)) with t
      |split; [done|by intros (_ & [?|?])]].
    destruct (bool_decide_reflect (t ∈ ["shipped"%string])) as [Ht|Ht];
      [apply list_elem_of_singleton in Ht
      |rewrite list_elem_of_singleton in Ht].
    + subst t. cbn. tauto.
    + rewrite andb_false_r.
      split; [done|intros (_ & [?|?]); congruence].
Qed.

(** X16: with the Respond preset applied to the boxes of the filter
    panel, the nodes that match the filter are the nodes in one of the
    six stages that are escalated or shipped; the preset leaves the mode
    flag and the saved settings alone. *)
Theorem respond_preset_filter (app : App) (nodes : gmap string StoryNode)
    (k : string) :
  boxes_of_setup app →
  let app' := _apply_respond_preset app in
  (k ∈ matching_nodes (status_checkboxes app') nodes
   ↔ ∃ nd, nodes !! k = Some nd ∧ stage nd ∈ STAGE_ORDER
           ∧ (status nd = "escalated"%string
              ∨ terminus nd = Some "shipped"%string))
  ∧ boxes_of_setup app'
  ∧ respond_mode_active app' = respond_mode_active app
  ∧ _saved_checkbox_states app' = _saved_checkbox_states app.
Proof.
  intros Hsetup app'.
  destruct (respond_preset_checked app Hsetup) as (H1 & H2 & H3).
  destruct (respond_preset_state app) as (Hl & Hr & Hs & _).
  fold app' in H1, H2, H3, Hl, Hr, Hs. clearbody app'.
  split; [|split; [|done]].
  - rewrite matching_nodes_elem, H1, H2, H3.
    by setoid_rewrite respond_filter_matches.
  - unfold boxes_of_setup in *. rewrite <- Hsetup.
    apply set_eq; intros s. rewrite !elem_of_dom, Hl.
    destruct (status_checkboxes app !! s); [|done].
    split; eauto.
Qed.

Lemma respond_preset_filter_witness :
  "10"%string
  ∈ matching_nodes (status_checkboxes (_apply_respond_preset initial_app))
      two_escalated.
Proof.
  destruct (respond_preset_filter initial_app two_escalated "10") as [[_ H] _].
  - apply (bool_decide_unpack _). by vm_compute.
  - apply H. eexists. split; [by vm_compute|].
    split; [apply (bool_decide_unpack _); by vm_compute|by left].
Defined.

(** *** Toggling *)

Lemma boxes_of_setup_same a a' :
  (∀ s, is_Some (status_checkboxes a' !! s)
        ↔ is_Some (status_checkboxes a !! s)) →
  boxes_of_setup a → boxes_of_setup a'.
Proof.
  unfold boxes_of_setup. intros H <-.
  apply set_eq; intros s. by rewrite !elem_of_dom.
Qed.

Lemma toggle_on a :
  respond_mode_active a = false →
  _toggle_respond_mode a = set_respond_mode true (_apply_respond_preset a).
Proof. unfold _toggle_respond_mode. by intros ->. Qed.

Lemma toggle_off a :
  respond_mode_active a = true →
  _toggle_respond_mode a
  = set_respond_mode false (_restore_checkbox_states a).
Proof. unfold _toggle_respond_mode. by intros ->. Qed.

(** Turning Respond mode on keeps the boxes that exist and the saved
    settings. *)
Lemma toggle_on_state a :
  respond_mode_active a = false → boxes_of_setup a →
  let a' := _toggle_respond_mode a in
  boxes_of_setup a'
  ∧ respond_mode_active a' = true
  ∧ _saved_checkbox_states a' = _saved_checkbox_states a
  ∧ _checkbox_change_internal a' = false.
Proof.
  intros Hr Hsetup. rewrite toggle_on by done. cbv zeta.
  destruct (respond_preset_state a) as (Hl & _ & Hs & Hi). revert Hl Hs Hi.
  generalize (_apply_respond_preset a). intros X Hl Hs Hi.
  split; [|by destruct X].
  apply (boxes_of_setup_same a); [|done].
  intros s. destruct X; simpl in *. rewrite Hl.
  destruct (status_checkboxes a !! s); [|done]. split; eauto.
Qed.

(** Turning Respond mode off brings back the boxes whose states were
    saved. *)
Lemma toggle_off_restores a a0 :
  respond_mode_active a = true →
  boxes_of_setup a → boxes_of_setup a0 →
  _saved_checkbox_states a = status_checkboxes a0 →
  status_checkboxes (_toggle_respond_mode a) = status_checkboxes a0.
Proof.
  intros Hr Hsetup Hsetup0 Hsaved. rewrite toggle_off by done.
  destruct (restore_state a) as (Hl & _). revert Hl.
  generalize (_restore_checkbox_states a). intros X Hl.
  destruct X as [bx ? ? ?]; simpl in *.
  apply map_eq; intros s. rewrite Hl, Hsaved.
  pose proof (boxes_of_setup_lookup a s Hsetup) as H1.
  pose proof (boxes_of_setup_lookup a0 s Hsetup0) as H2.
  destruct (decide (s ∈ checkbox_order)) as [Hs|Hs].
  - destruct (proj2 H1 Hs) as [b ->]. destruct (proj2 H2 Hs) as [b0 ->].
    by rewrite bool_decide_eq_true_2.
  - destruct (status_checkboxes a !! s) eqn:E1;
      [exfalso; apply Hs, H1; eauto|].
    destruct (status_checkboxes a0 !! s) eqn:E2;
      [exfalso; apply Hs, H2; eauto|done].
Qed.

(** X17: when the filter-mode settings are saved, turning Respond mode
    on and off again changes nothing: the boxes, the saved settings and
    the flags are as before. *)
Theorem respond_toggle_round_trip (a : App) :
  boxes_of_setup a → settings_saved a →
  _toggle_respond_mode (_toggle_respond_mode a) = a.
Proof.
  intros Hsetup (Hr & Hi & Hs).
  destruct (toggle_on_state a Hr Hsetup) as (Hsetup1 & Hr1 & Hs1 & Hi1).
  pose proof (toggle_off_restores (_toggle_respond_mode a) a Hr1 Hsetup1
                Hsetup (eq_trans Hs1 Hs)) as Hb.
  rewrite (toggle_off (_toggle_respond_mode a)) in Hb |- * by done.
  destruct (restore_state (_toggle_respond_mode a)) as (_ & _ & Hs2 & Hi2).
  rewrite Hs1 in Hs2. revert Hb Hs2 Hi2.
  generalize (_restore_checkbox_states (_toggle_respond_mode a)).
  clear Hsetup Hsetup1 Hr1 Hs1 Hi1. intros Y Hb Hs2 Hi2.
  destruct Y, a; unfold set_respond_mode in *; simpl in *. congruence.
Qed.

Lemma respond_toggle_round_trip_witness :
  _toggle_respond_mode (_toggle_respond_mode app_filtering) = app_filtering.
Proof.
  apply respond_toggle_round_trip.
  - apply (bool_decide_unpack _). by vm_compute.
  - repeat split; by vm_compute.
Defined.

(** X18: a box clicked while Respond mode is on ends Respond mode and
    is not saved: the saved settings are still those of filter mode, and
    turning Respond mode on and off again brings the boxes of filter
    mode back. *)
Theorem manual_change_in_respond_mode_is_forgotten (a : App) (name : string) :
  boxes_of_setup a → settings_saved a → name ∈ checkbox_order →
  let a1 := click_checkbox name (_toggle_respond_mode a) in
  respond_mode_active a1 = false
  ∧ _saved_checkbox_states a1 = status_checkboxes a
  ∧ status_checkboxes a1 !! name = negb <$> respond_preset name
  ∧ status_checkboxes (_toggle_respond_mode (_toggle_respond_mode a1))
    = status_checkboxes a.
Proof.
  intros Hsetup (Hr & Hi & Hs) Hname.
  destruct (toggle_on_state a Hr Hsetup) as (Hsetup1 & Hr1 & Hs1 & Hi1).
  assert (Hn : status_checkboxes (_toggle_respond_mode a) !! name
               = respond_preset name).
  { rewrite toggle_on by done.
    rewrite <- (respond_preset_boxes a name) by done.
    by destruct (_apply_respond_preset a). }
  revert Hsetup1 Hr1 Hs1 Hi1 Hn. generalize (_toggle_respond_mode a).
  intros X Hsetup1 Hr1 Hs1 Hi1 Hn.
  destruct (respond_preset_total name Hname) as [v Hv]. rewrite Hv in Hn |- *.
  assert (Ha1 : click_checkbox name X
                = mkApp (<[name := negb v]> (status_checkboxes X)) false
                    (_saved_checkbox_states X) false).
  { unfold click_checkbox. rewrite Hn.
    rewrite setChecked_change by (by rewrite Hn, negb_involutive).
    unfold _on_checkbox_changed, set_checkboxes, set_respond_mode; simpl.
    by rewrite Hi1, Hr1. }
  cbv zeta. rewrite Ha1. clear Ha1.
  set (a1 := mkApp _ _ _ _).
  assert (Hsetup2 : boxes_of_setup a1).
  { apply (boxes_of_setup_same X); [|done]. intros s. unfold a1; simpl.
    destruct (decide (s = name)) as [->|?].
    - rewrite lookup_insert_eq, Hn. split; eauto.
    - by rewrite lookup_insert_ne. }
  split; [done|]. split; [simpl; congruence|].
  split; [simpl; by rewrite lookup_insert_eq|].
  destruct (toggle_on_state a1 eq_refl Hsetup2)
    as (Hsetup3 & Hr3 & Hs3 & Hi3).
  apply toggle_off_restores; [done..|].
  rewrite Hs3. simpl. congruence.
Qed.

Lemma manual_change_in_respond_mode_is_forgotten_witness :
  status_checkboxes
    (_toggle_respond_mode
       (_toggle_respond_mode
          (click_checkbox "concept" (_toggle_respond_mode app_filtering))))
  = status_checkboxes app_filtering.
Proof.
  destruct (manual_change_in_respond_mode_is_forgotten app_filtering "concept")
    as (_ & _ & _ & H); [| | |exact H].
  - apply (bool_decide_unpack _). by vm_compute.
  - repeat split; by vm_compute.
  - apply (bool_decide_unpack _). by vm_compute.
Defined.

(** X19: a button that sets several boxes, pressed while Respond mode is
    on: when at least two of its boxes change, the first change ends
    Respond mode and the later ones save the boxes as the filter-mode
    settings, so the settings saved before are overwritten. *)
Theorem select_buttons_in_respond_mode_save (a : App)
    (statuses : list string) (v : bool) (s1 s2 : string) :
  respond_mode_active a = true → _checkbox_change_internal a = false →
  s1 ≠ s2 → s1 ∈ statuses → s2 ∈ statuses →
  status_checkboxes a !! s1 = Some (negb v) →
  status_checkboxes a !! s2 = Some (negb v) →
  let a' := _select_category_statuses statuses v a in
  respond_mode_active a' = false
  ∧ _saved_checkbox_states a' = status_checkboxes a'
  ∧ ∀ s, status_checkboxes a' !! s
         = match status_checkboxes a !! s with
           | Some b => Some (if bool_decide (s ∈ statuses) then v else b)
           | None => None
           end.
Proof.
  intros Hr Hi Hne H1 H2 Hs1 Hs2. unfold _select_category_statuses; cbv zeta.
  destruct (checkbox_loop_respond_saves v statuses a s1 s2)
    as (Hr' & _ & Hs'); [done..|].
  split; [done|]. split; [done|].
  intros s. by rewrite (checkbox_loop_lookup (λ _, Some v)).
Qed.

Lemma select_buttons_in_respond_mode_save_witness :
  _saved_checkbox_states
    (_select_category_statuses STAGE_ORDER false
       (_toggle_respond_mode app_filtering))
  = status_checkboxes
      (_select_category_statuses STAGE_ORDER false
         (_toggle_respond_mode app_filtering)).
Proof.
  destruct (select_buttons_in_respond_mode_save
              (_toggle_respond_mode app_filtering) STAGE_ORDER false
              "epic" "concept") as (_ & H & _); [..|exact H];
    try (by vm_compute); apply (bool_decide_unpack _); by vm_compute.
Defined.

(** X20: [_restore_checkbox_states] gives every box its saved state and
    checks a box for which none is saved, whether or not anything was
    saved; it changes nothing else. *)
Theorem restore_gives_saved_or_checked (a : App) (s : string) :
  boxes_of_setup a → s ∈ checkbox_order →
  let a' := _restore_checkbox_states a in
  status_checkboxes a' !! s
  = Some (default true (_saved_checkbox_states a !! s))
  ∧ boxes_of_setup a'
  ∧ respond_mode_active a' = respond_mode_active a
  ∧ _saved_checkbox_states a' = _saved_checkbox_states a
  ∧ _checkbox_change_internal a' = false.
Proof.
  intros Hsetup Hs. destruct (restore_state a) as (Hl & Hrest).
  cbv zeta. split; [|split; [|done]].
  - rewrite Hl.
    destruct (proj2 (boxes_of_setup_lookup a s Hsetup) Hs) as [b ->].
    by rewrite bool_decide_eq_true_2.
  - apply (boxes_of_setup_same a); [|done]. intros x. rewrite Hl.
    destruct (status_checkboxes a !! x); [|done]. split; eauto.
Qed.

Lemma restore_gives_saved_or_checked_witness :
  status_checkboxes (_restore_checkbox_states initial_app) !! "escalated"
  = Some true.
Proof.
  destruct (restore_gives_saved_or_checked initial_app "escalated")
    as (H & _); [| |exact H]; apply (bool_decide_unpack _); by vm_compute.
Defined.

Lemma no_box_checked (boxes : gmap string bool) (nd : StoryNode) :
  (∀ s, s ∈ checkbox_order → boxes !! s = Some false) →
  node_matches_filter (checked boxes STAGE_ORDER)
    (checked boxes STATUS_ORDER_HOLDS) (checked boxes TERMINUS_ORDER) nd
  = false.
Proof.
  intros H.
  rewrite !(checked_as boxes (λ _, false))
    by (intros; apply H, checkbox_order_elem; eauto).
  unfold node_matches_filter.
  replace (filter (λ _ : string, false = true) STAGE_ORDER)
    with (@nil string) by done.
  unfold Py.member at 3.
  by rewrite bool_decide_eq_false_2 by apply not_elem_of_nil.
Qed.

(** X21: after [_select_no_statuses] no node matches and the tree is
    empty, whatever the nodes are. *)
Theorem select_none_shows_nothing (a : App) (fuel : nat)
    (nodes : gmap string StoryNode) :
  boxes_of_setup a →
  _apply_filters fuel (status_checkboxes (_select_no_statuses a)) nodes
  = Some (mkView ∅ ∅ []).
Proof.
  intros Hsetup.
  assert (Hm : matching_nodes (status_checkboxes (_select_no_statuses a))
                 nodes = ∅).
  { apply set_eq; intros k. rewrite matching_nodes_elem.
    split; [|by intros ?%not_elem_of_empty].
    intros (nd & _ & Hnd). rewrite no_box_checked in Hnd; [done|].
    intros s Hs. unfold _select_no_statuses, for_each_checkbox.
    rewrite (checkbox_loop_lookup (λ _, Some false)).
    destruct (proj2 (boxes_of_setup_lookup a s Hsetup) Hs) as [b ->].
    by rewrite bool_decide_eq_true_2. }
  unfold _apply_filters. rewrite Hm, elements_empty. cbn [collect_ancestors].
  cbn [mbind option_bind].
  rewrite filter_none; [|intros x _ [_ Hx]; by apply not_elem_of_empty in Hx].
  cbn. do 2 f_equal; set_solver.
Qed.

Lemma select_none_shows_nothing_witness :
  _apply_filters 0 (status_checkboxes (_select_no_statuses initial_app))
    two_escalated
  = Some (mkView ∅ ∅ []).
Proof.
  apply select_none_shows_nothing.
  apply (bool_decide_unpack _). by vm_compute.
Defined.

End RespondMode.

(** ** Focus *)

Section FocusView.

Variable nodes : gmap string StoryNode.
Variable rank : string → nat.

Hypothesis nodes_linked : linked nodes.
Hypothesis rank_parent :
  ∀ k n p, nodes !! k = Some n → live_parent n = Some p →
           is_Some (nodes !! p) → rank p < rank k.

Lemma live_parent_truthy (n : StoryNode) (p : string) :
  live_parent n = Some p ↔ parent_id n = Some p ∧ Py.truthy_str p = true.
Proof.
  unfold live_parent. destruct (parent_id n) as [q|]; [|by split; [|intros []]].
  destruct (Py.truthy_str q) eqn:E.
  - split; [by intros [= ->]|by intros [[= ->] _]].
  - split; [done|intros [[= ->] ?]; congruence].
Qed.

(** With enough fuel the walk ends and has added the ids it started
    from and their ancestors. *)
Lemma focus_lineage_spec (fuel : nat) :
  ∀ (c : option string) (acc : gset string),
    (∀ k, c = Some k → Py.truthy_str k = true →
          (is_Some (nodes !! k) → rank k + 1 < fuel) ∧ 0 < fuel) →
    ∃ S, focus_lineage fuel nodes c acc = Some S
         ∧ ∀ x, x ∈ S
                ↔ x ∈ acc
                  ∨ ∃ k, c = Some k ∧ Py.truthy_str k = true
                         ∧ (x = k ∨ ancestor nodes k x).
Proof.
  induction fuel as [|fuel IH]; intros c acc Hfuel.
  - destruct c as [k|]; simpl.
    + destruct (Py.truthy_str k) eqn:Hk.
      * destruct (Hfuel k eq_refl Hk) as [_ ?]. lia.
      * exists acc. split; [done|]. intros x. split; [by left|].
        intros [?|(k' & [= <-] & ? & _)]; [done|congruence].
    + exists acc. split; [done|]. intros x. split; [by left|].
      by intros [?|(k' & ? & _)].
  - destruct c as [k|]; simpl.
    + destruct (Py.truthy_str k) eqn:Hk.
      * destruct (Hfuel k eq_refl Hk) as [Hrank _].
        destruct (IH (nodes !! k ≫= parent_id) (acc ∪ {[k]}))
          as (S & HS & Hel).
        { intros p Hp Htp. destruct (nodes !! k) as [n|] eqn:Hn; [|done].
          simpl in Hp. specialize (Hrank (mk_is_Some _ _ eq_refl)).
          split; [|lia]. intros Hin.
          assert (live_parent n = Some p) by by apply live_parent_truthy.
          pose proof (rank_parent k n p Hn H Hin). lia. }
        exists S. split; [done|]. intros x.
        rewrite Hel, elem_of_union, elem_of_singleton. split.
        -- intros [[?| ->]|(p & Hp & Htp & Hx)].
           ++ by left.
           ++ right. exists k. eauto.
           ++ right. exists k. split; [done|]. split; [done|]. right.
              destruct (nodes !! k) as [n|] eqn:Hn; [|done]. simpl in Hp.
              assert (live_parent n = Some p) by by apply live_parent_truthy.
              destruct Hx as [-> | Hx].
              ** by eapply ancestor_parent.
              ** by eapply ancestor_further.
        -- intros [?|(k' & [= <-] & _ & [-> | Hx])].
           ++ by left; left.
           ++ by left; right.
           ++ right.
              destruct Hx as [k n p Hn Hp | k n p x Hn Hp Hx];
                apply live_parent_truthy in Hp as [Hp Htp];
                exists p; rewrite Hn; simpl; eauto.
      * exists acc. split; [done|]. intros x. split; [by left|].
        intros [?|(k' & [= <-] & ? & _)]; [done|congruence].
    + exists acc. split; [done|]. intros x. split; [by left|].
      by intros [?|(k' & ? & _)].
Qed.

(** The nodes below [k] are the children of [k] and the nodes below
    them. *)
Lemma descendants_children (k x : string) (n : StoryNode) :
  nodes !! k = Some n →
  ancestor nodes x k
  ↔ ∃ c, c ∈ children n ∧ (x = c ∨ ancestor nodes x c).
Proof.
  intros Hk. split.
  - intros H. revert n Hk.
    induction H as [x nx p Hx Hp | x nx p y Hx Hp Hy IH]; intros n Hk.
    + exists x. split; [|by left].
      apply (proj2 nodes_linked p n x Hk). eauto.
    + destruct (IH n Hk) as (c & Hc & Hpc). exists c. split; [done|]. right.
      destruct Hpc as [-> | Hpc].
      * by eapply ancestor_parent.
      * by eapply ancestor_further.
  - intros (c & Hc & Hx).
    apply (proj2 nodes_linked k n c Hk) in Hc as (nc & Hnc & Hp).
    destruct Hx as [-> | Hx].
    + by eapply ancestor_parent.
    + by eapply ancestor_extend.
Qed.

(** With enough fuel [add_descendants] ends and has added the nodes
    below [nid]. *)
Lemma add_descendants_spec (bound fuel : nat) :
  (∀ k, is_Some (nodes !! k) → rank k < bound) →
  ∀ (nid : string) (acc : gset string),
    is_Some (nodes !! nid) → bound ≤ fuel + rank nid →
    ∃ S, add_descendants fuel nodes nid acc = Some S
         ∧ ∀ x, x ∈ S ↔ x ∈ acc ∨ ancestor nodes x nid.
Proof.
  intros Hbound. induction fuel as [|fuel IH]; intros nid acc [n Hn] Hfuel.
  { specialize (Hbound nid (mk_is_Some _ _ Hn)). lia. }
  cbn [add_descendants]. rewrite Hn.
  assert (Hloop : ∀ cs acc0,
            (∀ c, c ∈ cs → c ∈ children n) →
            ∃ S, foldl (λ a child,
                          v ← a;
                          add_descendants fuel nodes child (v ∪ {[child]}))
                   (Some acc0) cs = Some S
                 ∧ ∀ x, x ∈ S
                        ↔ x ∈ acc0
                          ∨ ∃ c, c ∈ cs ∧ (x = c ∨ ancestor nodes x c)).
  { induction cs as [|c r IHr]; intros acc0 Hcs.
    - exists acc0. split; [done|]. intros x. split; [by left|].
      intros [?|(c & Hc & _)]; [done|]. by apply elem_of_nil in Hc.
    - cbn [foldl mbind option_bind].
      destruct (proj1 (proj2 nodes_linked nid n c Hn) (Hcs c ltac:(left)))
        as (nc & Hnc & Hp).
      destruct (IH c (acc0 ∪ {[c]}) (mk_is_Some _ _ Hnc)) as (S1 & HS1 & Hel1).
      { pose proof (rank_parent c nc nid Hnc Hp (mk_is_Some _ _ Hn)). lia. }
      rewrite HS1.
      destruct (IHr S1) as (S & HS & Hel); [intros; apply Hcs; by right|].
      exists S. split; [done|]. intros x.
      rewrite Hel, Hel1, elem_of_union, elem_of_singleton. split.
      + intros [[[?| ->]|Hx]|(c' & Hc' & Hx)].
        * by left.
        * right. exists c. split; [left|by left].
        * right. exists c. split; [left|by right].
        * right. exists c'. split; [by right|done].
      + intros [?|(c' & Hc' & Hx)]; [by left; left; left|].
        apply elem_of_cons in Hc' as [-> | Hc'].
        * left. destruct Hx as [-> | Hx]; [left; by right|by right].
        * right. eauto. }
  destruct (Hloop (children n) acc) as (S & HS & Hel); [done|].
  exists S. split; [done|]. intros x.
  by rewrite Hel, (descendants_children nid x n Hn).
Qed.

End FocusView.

(** X22: for loaded nodes whose parent links form no cycle, and with
    enough fuel, [_focus_on_node] on a node ends, records the node as
    the focused one, and hides exactly the tree items that are neither
    the node, nor one of its ancestors, nor a node below it. *)
Theorem focus_shows_lineage_and_descendants
    (story_nodes : gmap string Db.Row) (story_paths : list Db.PathRow)
    (rank : string → nat) (fuel : nat) (tree_items : list Item)
    (st : Focus) (node_id : string) :
  let nodes := _load_nodes_from_db story_nodes story_paths in
  (∀ k n p, nodes !! k = Some n → live_parent n = Some p →
            is_Some (nodes !! p) → rank p < rank k) →
  (∀ k, is_Some (nodes !! k) → rank k + 1 < fuel) →
  node_id ≠ ""%string → is_Some (nodes !! node_id) →
  ∃ st',
    _focus_on_node fuel nodes tree_items st node_id = Some st'
    ∧ _focused_node_id st' = Some node_id
    ∧ ∀ x, x ∈ hidden st'
           ↔ x ∈ tree_items.*1
             ∧ ¬ (x = node_id ∨ ancestor nodes node_id x
                  ∨ ancestor nodes x node_id).
Proof.
  intros nodes Hrank Hfuel Hne Hnode.
  pose proof (load_linked story_nodes story_paths) as Hlinked.
  fold nodes in Hlinked.
  assert (Ht : Py.truthy_str node_id = true).
  { unfold Py.truthy_str. by destruct (String.eqb_spec node_id ""). }
  destruct (focus_lineage_spec nodes rank Hrank fuel (Some node_id) ∅)
    as (L & HL & HelL).
  { intros k [= <-] _. split; [by apply Hfuel|].
    specialize (Hfuel node_id Hnode). lia. }
  destruct (add_descendants_spec nodes rank Hlinked Hrank fuel fuel
              ltac:(intros k Hk; specialize (Hfuel k Hk); lia)
              node_id L Hnode ltac:(lia)) as (V & HV & HelV).
  unfold _focus_on_node. rewrite Ht, bool_decide_eq_true_2 by done.
  cbn [negb orb]. rewrite HL. cbn [mbind option_bind]. rewrite HV.
  cbn [mbind option_bind]. eexists. split; [done|]. split; [done|].
  intros x. cbn [hidden].
  rewrite elem_of_list_to_set, list_elem_of_filter, HelV, HelL.
  split.
  - intros [Hv Hx]. split; [done|]. intros H; apply Hv.
    destruct H as [-> | [H|H]]; [left; right|left; right|by right];
      exists node_id; eauto.
  - intros [Hx Hv]. split; [|done]. intros H; apply Hv.
    destruct H as [[H|(k & [= <-] & _ & H)]|H].
    + by apply not_elem_of_empty in H.
    + destruct H; eauto.
    + eauto.
Qed.

Lemma focus_shows_lineage_and_descendants_witness :
  ∃ st',
    _focus_on_node 7 (_load_nodes_from_db view_rows chain_paths)
      [("root"%string, Faded); ("1"%string, Faded); ("1.1"%string, Normal)]
      (mkFocus ∅ None) "1"
    = Some st'
    ∧ _focused_node_id st' = Some "1"%string.
Proof.
  destruct (focus_shows_lineage_and_descendants view_rows chain_paths
              view_rank 7
              [("root"%string, Faded); ("1"%string, Faded);
               ("1.1"%string, Normal)]
              (mkFocus ∅ None) "1")
    as (st' & Hst & Hfocused & _).
  - intros k n p Hk Hp _. rewrite load_lookup in Hk.
    assert (Hdom : is_Some (view_rows !! k)).
    { destruct (view_rows !! k); [by eexists | discriminate]. }
    apply view_rows_dom in Hdom as [-> | [-> | [-> | ->]]];
      vm_compute in Hk; injection Hk as <-;
      vm_compute in Hp; try discriminate Hp; injection Hp as <-;
      vm_compute; lia.
  - intros k Hk. rewrite load_lookup in Hk.
    assert (Hdom : is_Some (view_rows !! k)).
    { destruct (view_rows !! k); [by eexists | by destruct Hk]. }
    apply view_rows_dom in Hdom as [-> | [-> | [-> | ->]]]; vm_compute; lia.
  - done.
  - apply (bool_decide_unpack _). by vm_compute.
  - exists st'. split; [exact Hst | exact Hfocused].
Defined.

(** On the chain root > 1 > 1.1 > 1.1.1, focusing on 1.1 hides nothing
    of the chain; an item outside it is hidden. *)
Example focus_on_chain :
  hidden <$> _focus_on_node 7 (_load_nodes_from_db view_rows chain_paths)
               [("root"%string, Faded); ("1"%string, Faded);
                ("1.1"%string, Normal); ("9"%string, Normal)]
               (mkFocus ∅ None) "1.1"
  = Some {["9"%string]}.
Proof. apply (bool_decide_unpack _). by vm_compute. Qed.

(** ** Breadcrumbs *)

Section Breadcrumbs.

Variable nodes : gmap string StoryNode.
Variable rank : string → nat.

Hypothesis nodes_linked : linked nodes.
Hypothesis rank_parent :
  ∀ k n p, nodes !! k = Some n → live_parent n = Some p →
           is_Some (nodes !! p) → rank p < rank k.

Lemma parent_chain_snoc (l : list string) (a b : string) (nb : StoryNode) :
  parent_chain nodes (l ++ [a]) →
  nodes !! b = Some nb → live_parent nb = Some a →
  parent_chain nodes ((l ++ [a]) ++ [b]).
Proof.
  intros Hl Hb Hp. induction l as [|x l IH].
  - simpl. eauto.
  - destruct l as [|y l].
    + simpl in *. destruct Hl as [Hx _]. eauto.
    + simpl in *. destruct Hl as [Hx Hl]. split; [done|]. by apply IH.
Qed.

Lemma head_snoc_snoc (l : list string) (a b : string) :
  head ((l ++ [a]) ++ [b]) = head (l ++ [a]).
Proof. by destruct l. Qed.

(** With enough fuel the loop ends; what it has put before [acc] is the
    chain of the ancestors of [cur] that are nodes. *)
Lemma breadcrumb_ancestors_spec (fuel : nat) :
  ∀ (k : string) (cur : StoryNode) (acc : list StoryNode),
    nodes !! k = Some cur → rank k < fuel →
    ∃ l, breadcrumb_ancestors fuel nodes cur acc = Some (l ++ acc)
         ∧ parent_chain nodes ((id <$> l) ++ [k])
         ∧ (∀ t nt p, head ((id <$> l) ++ [k]) = Some t →
                      nodes !! t = Some nt → live_parent nt = Some p →
                      nodes !! p = None)
         ∧ ∀ x, x ∈ id <$> l ↔ ancestor nodes k x ∧ is_Some (nodes !! x).
Proof.
  induction fuel as [|fuel IH]; intros k cur acc Hk Hfuel; [lia|].
  cbn [breadcrumb_ancestors].
  destruct (live_parent cur) as [p|] eqn:Hp.
  - destruct (nodes !! p) as [parent|] eqn:Hparent.
    + pose proof (rank_parent k cur p Hk Hp (mk_is_Some _ _ Hparent)).
      destruct (IH p parent (parent :: acc) Hparent ltac:(lia))
        as (l & Hl & Hchain & Htop & Hel).
      assert (Hid : id parent = p) by (by apply nodes_linked).
      exists (l ++ [parent]). rewrite fmap_app. cbn [fmap list_fmap]. rewrite Hid.
      split; [by rewrite Hl, <- app_assoc|].
      split; [by eapply parent_chain_snoc|].
      split; [by rewrite head_snoc_snoc|].
      intros x. rewrite elem_of_app, list_elem_of_singleton, Hel. split.
      * intros [[Hx ?] | ->].
        -- split; [by eapply ancestor_further|done].
        -- split; [by eapply ancestor_parent|by eexists].
      * intros [Hx Hnode].
        apply ancestor_inv in Hx as (n' & p' & Hn' & Hp' & Hx).
        assert (n' = cur) as -> by congruence.
        assert (p' = p) as -> by congruence.
        destruct Hx as [-> | Hx]; [by right | by left].
    + exists []. split; [done|]. split; [done|]. split.
      * intros t nt q [= <-] Hnt Hq. congruence.
      * intros x. split; [by intros ?%elem_of_nil|].
        intros [Hx [nx Hnx]].
        apply ancestor_inv in Hx as (n' & p' & Hn' & Hp' & Hx).
        assert (n' = cur) as -> by congruence.
        assert (p' = p) as -> by congruence.
        destruct Hx as [-> | Hx]; [congruence|].
        apply ancestor_inv in Hx as (n2 & _ & Hn2 & _). congruence.
  - exists []. split; [done|]. split; [done|]. split.
    + intros t nt q [= <-] Hnt Hq. congruence.
    + intros x. split; [by intros ?%elem_of_nil|].
      intros [Hx _].
      apply ancestor_inv in Hx as (n' & p' & Hn' & Hp' & _). congruence.
Qed.

End Breadcrumbs.

(** X23: for loaded nodes whose parent links form no cycle, and with
    enough fuel, the breadcrumb buttons of a node lead, from the top
    down, along the chain of its ancestors that are nodes: each button's
    node is the parent of the next one, the last one is the parent of
    the node shown, and the first one has no parent among the nodes. *)
Theorem breadcrumbs_follow_the_lineage
    (story_nodes : gmap string Db.Row) (story_paths : list Db.PathRow)
    (rank : string → nat) (fuel : nat) (k : string) (node : StoryNode) :
  let nodes := _load_nodes_from_db story_nodes story_paths in
  (∀ k n p, nodes !! k = Some n → live_parent n = Some p →
            is_Some (nodes !! p) → rank p < rank k) →
  (∀ k, is_Some (nodes !! k) → rank k < fuel) →
  nodes !! k = Some node →
  ∃ ids,
    _update_breadcrumbs fuel nodes node = Some ids
    ∧ parent_chain nodes (ids ++ [k])
    ∧ (∀ t nt p, head (ids ++ [k]) = Some t → nodes !! t = Some nt →
                 live_parent nt = Some p → nodes !! p = None)
    ∧ ∀ x, x ∈ ids ↔ ancestor nodes k x ∧ is_Some (nodes !! x).
Proof.
  intros nodes Hrank Hfuel Hk.
  pose proof (load_linked story_nodes story_paths) as Hlinked.
  fold nodes in Hlinked.
  destruct (breadcrumb_ancestors_spec nodes rank Hlinked Hrank fuel k node []
              Hk (Hfuel k (mk_is_Some _ _ Hk)))
    as (l & Hl & Hchain & Htop & Hel).
  exists (id <$> l). unfold _update_breadcrumbs.
  rewrite Hl, app_nil_r. done.
Qed.

Lemma breadcrumbs_follow_the_lineage_witness :
  ∃ node ids,
    _load_nodes_from_db view_rows chain_paths !! "1.1"%string = Some node
    ∧ _update_breadcrumbs 6 (_load_nodes_from_db view_rows chain_paths) node
      = Some ids
    ∧ parent_chain (_load_nodes_from_db view_rows chain_paths)
        (ids ++ ["1.1"%string]).
Proof.
  destruct (breadcrumbs_follow_the_lineage view_rows chain_paths view_rank 6
              "1.1" (set_children
                       (node_of_row chain_paths "1.1"
                          (row_of "testing" "blocked")) ["1.1.1"%string]))
    as (ids & Hids & Hchain & _).
  - intros k n p Hk Hp _. rewrite load_lookup in Hk.
    assert (Hdom : is_Some (view_rows !! k)).
    { destruct (view_rows !! k); [by eexists | discriminate]. }
    apply view_rows_dom in Hdom as [-> | [-> | [-> | ->]]];
      vm_compute in Hk; injection Hk as <-;
      vm_compute in Hp; try discriminate Hp; injection Hp as <-;
      vm_compute; lia.
  - intros k Hk. rewrite load_lookup in Hk.
    assert (Hdom : is_Some (view_rows !! k)).
    { destruct (view_rows !! k); [by eexists | by destruct Hk]. }
    apply view_rows_dom in Hdom as [-> | [-> | [-> | ->]]]; vm_compute; lia.
  - by vm_compute.
  - eexists _, ids. split; [by vm_compute|]. split; [exact Hids|exact Hchain].
Defined.

(** On the chain root > 1 > 1.1 > 1.1.1 the breadcrumbs of 1.1.1 are
    root, 1 and 1.1. *)
Example breadcrumbs_of_chain :
  (_load_nodes_from_db view_rows chain_paths !! "1.1.1"%string)
    ≫= _update_breadcrumbs 6 (_load_nodes_from_db view_rows chain_paths)
  = Some ["root"%string; "1"%string; "1.1"%string].
Proof. by vm_compute. Qed.

(** ** The Kanban board *)

Section Kanban.

Import KanbanDialog.

Lemma values_elem (nodes : gmap string StoryNode) (n : StoryNode) :
  n ∈ (Py.ordered_items nodes).*2 ↔ ∃ k, nodes !! k = Some n.
Proof.
  rewrite list_elem_of_fmap. split.
  - intros ([k n'] & -> & Hin). exists k. by apply elem_of_ordered_items.
  - intros (k & Hk). exists (k, n). split; [done|].
    by apply elem_of_ordered_items.
Qed.

Lemma kanban_stage_truthy (st : string) :
  st ∈ STAGES → Py.truthy_str st = true.
Proof.
  revert st. apply Forall_forall. apply (bool_decide_unpack _). by vm_compute.
Qed.

(** The grouping loop appends to the list of a stage the nodes in
    progress that have this stage, in the order of the loop. *)
Lemma group_nodes_lookup (st : string) (l : list StoryNode) :
  st ∈ STAGES →
  ∀ (acc : gmap string (list StoryNode)) (a : list StoryNode),
    acc !! st = Some a →
    foldl group_node acc l !! st
    = Some (a ++ filter (λ n, in_progress n ∧ stage n = st) l).
Proof.
  intros Hst. induction l as [|x l IH]; intros acc a Ha.
  - by rewrite app_nil_r.
  - cbn [foldl]. rewrite filter_cons. unfold group_node at 2, in_progress.
    destruct (String.eqb_spec (id x) "root") as [Hroot|Hroot].
    { rewrite decide_False by (by intros [[? _] _]). by apply IH. }
    destruct (Py.truthy (terminus x)) eqn:Hterm.
    { rewrite decide_False by (by intros [[_ ?] _]). by apply IH. }
    unfold Py.member.
    destruct (bool_decide_reflect (stage x ∈ STAGES)) as [Hin|Hin].
    + rewrite (kanban_stage_truthy _ Hin).
      destruct (decide (stage x = st)) as [Heq|Hne].
      * rewrite decide_True by done.
        rewrite (IH _ (a ++ [x])) by (by rewrite Heq, lookup_alter_eq, Ha).
        by rewrite <- app_assoc.
      * rewrite decide_False by (by intros [_ ?]).
        apply IH. by rewrite lookup_alter_ne.
    + rewrite decide_False by (intros [_ Heq]; by rewrite Heq in Hin).
      by apply IH.
Qed.

Lemma board_column (nodes : gmap string StoryNode) (st : string)
    (col : Column) :
  (st, col) ∈ _populate_board nodes →
  st ∈ STAGES
  ∧ let l := filter (λ n, in_progress n ∧ stage n = st)
               (Py.ordered_items nodes).*2 in
    col = mkColumn (Py.sort_by (λ a b, String.ltb (id a) (id b)) l) (length l).
Proof.
  unfold _populate_board. intros Hin.
  apply list_elem_of_fmap in Hin as (st' & [= -> ->] & Hst).
  split; [done|].
  rewrite (group_nodes_lookup st' _ Hst _ []); [done|].
  clear nodes. unfold STAGES in Hst.
  repeat (apply elem_of_cons in Hst as [-> | Hst]; [by vm_compute|]).
  by apply elem_of_nil in Hst.
Qed.

(** X24: every column of the Kanban board belongs to one of the six
    board stages; its cards are, sorted by id, the nodes other than the
    root that have no terminus and whose stage is the column's, and its
    count label shows their number. *)
Theorem kanban_columns (nodes : gmap string StoryNode) (st : string)
    (col : Column) :
  (st, col) ∈ _populate_board nodes →
  st ∈ STAGES
  ∧ count col = length (cards col)
  ∧ Sorted (ascending (λ a b, String.ltb (id a) (id b))) (cards col)
  ∧ ∀ n, n ∈ cards col
         ↔ (∃ k, nodes !! k = Some n) ∧ in_progress n ∧ stage n = st.
Proof.
  intros Hin. apply board_column in Hin as [Hst ->]. cbv zeta.
  cbn [cards count]. split; [done|].
  split; [by rewrite sort_by_perm|].
  split; [apply sort_by_sorted; intros a b; apply string_ltb_asym|].
  intros n. rewrite elem_of_sort_by, list_elem_of_filter, values_elem. tauto.
Qed.

Lemma kanban_columns_witness :
  ∃ col, ("concept"%string, col) ∈ _populate_board two_blocked
         ∧ count col = length (cards col).
Proof.
  set (col := default (mkColumn [] 0)
                (snd <$> head (_populate_board two_blocked))).
  assert (Hin : ("concept"%string, col) ∈ _populate_board two_blocked).
  { vm_compute. left. }
  exists col. split; [exact Hin|].
  by destruct (kanban_columns two_blocked "concept" col Hin) as (_ & H & _).
Defined.

(** X25: when every node has one of the six values of the stage field,
    the column "shipped" of the Kanban board is empty, whatever the
    nodes are, and no card shows a node in stage "epic": a shipped node
    has its terminus set and is left out. *)
Theorem kanban_shipped_column_is_empty (nodes : gmap string StoryNode) :
  (∀ k n, nodes !! k = Some n → stage n ∈ STAGE_VALUES) →
  (∃ col, ("shipped"%string, col) ∈ _populate_board nodes)
  ∧ (∀ col, ("shipped"%string, col) ∈ _populate_board nodes →
            cards col = [] ∧ count col = 0)
  ∧ ∀ st col n, (st, col) ∈ _populate_board nodes → n ∈ cards col →
                stage n ≠ "epic"%string ∧ terminus n ≠ Some "shipped"%string.
Proof.
  intros Hstages. split; [|split].
  - eexists. unfold _populate_board. apply list_elem_of_fmap.
    exists "shipped"%string. split; [done|].
    apply (bool_decide_unpack _). by vm_compute.
  - intros col Hin. apply board_column in Hin as [_ ->]. cbv zeta.
    rewrite filter_none; [done|].
    intros n Hn [_ Hst]. apply values_elem in Hn as (k & Hk).
    pose proof (Hstages k n Hk) as Hv. rewrite Hst in Hv.
    revert Hv. apply (bool_decide_unpack _). by vm_compute.
  - intros st col n Hin Hn. apply board_column in Hin as [Hst ->].
    cbv zeta in Hn. cbn [cards] in Hn.
    apply elem_of_sort_by, list_elem_of_filter in Hn as [[[_ Ht] Hs] _].
    split.
    + intros He. rewrite He in Hs. subst st. revert Hst.
      apply (bool_decide_unpack _). by vm_compute.
    + intros He. by rewrite He in Ht.
Qed.

Lemma kanban_shipped_column_is_empty_witness :
  ∃ col, ("shipped"%string, col) ∈ _populate_board two_blocked.
Proof.
  apply (kanban_shipped_column_is_empty two_blocked).
  intros k n Hk. unfold two_blocked in Hk. rewrite load_lookup in Hk.
  apply fmap_Some in Hk as (r & Hr & ->).
  destruct (decide (k = "2"%string)) as [->|?];
    [|destruct (decide (k = "10"%string)) as [->|?];
      [|destruct (decide (k = "3"%string)) as [->|?]]].
  - vm_compute in Hr. injection Hr as <-.
    apply (bool_decide_unpack _). by vm_compute.
  - vm_compute in Hr. injection Hr as <-.
    apply (bool_decide_unpack _). by vm_compute.
  - vm_compute in Hr. injection Hr as <-.
    apply (bool_decide_unpack _). by vm_compute.
  - rewrite !lookup_insert_ne, lookup_singleton_ne in Hr by done. done.
Defined.

End Kanban.

(** ** The bottleneck heatmap *)

Section Heatmap.

Import HeatmapDialog.

Implicit Types (m acc : gmap (string * string) nat) (cell : string * string).

Lemma sum_list_fmap_perm {A} (f : A → nat) (l k : list A) :
  l ≡ₚ k → sum_list (f <$> l) = sum_list (f <$> k).
Proof. intros H. by rewrite H. Qed.

(** Replacing the number of one cell changes the sum of all numbers by
    the difference. *)
Lemma sum_values_insert m cell (v w : nat) :
  m !! cell = Some v →
  sum_list (map_to_list (<[cell:=w]> m)).*2 + v
  = sum_list (map_to_list m).*2 + w.
Proof.
  intros Hm. rewrite <- (insert_delete_eq m).
  rewrite (sum_list_fmap_perm snd _ _
             (map_to_list_insert (delete cell m) cell w
                (lookup_delete_eq m cell))).
  rewrite <- (sum_list_fmap_perm snd _ _ (map_to_list_delete m cell v Hm)).
  simpl. lia.
Qed.

(** The sum of all numbers, cell by cell. *)
Lemma sum_values_keys (keys : list (string * string)) :
  NoDup keys →
  ∀ m, dom m = list_to_set keys →
       sum_list (map_to_list m).*2
       = sum_list ((λ cell, default 0 (m !! cell)) <$> keys).
Proof.
  induction 1 as [|k keys Hk Hnd IH]; intros m Hdom.
  - apply dom_empty_iff_L in Hdom as ->. by rewrite map_to_list_empty.
  - assert (is_Some (m !! k)) as [v Hv].
    { apply elem_of_dom. rewrite Hdom, list_to_set_cons.
      apply elem_of_union. left. by apply elem_of_singleton. }
    rewrite <- (sum_list_fmap_perm snd _ _ (map_to_list_delete m k v Hv)).
    rewrite fmap_cons. cbn [sum_list_with fmap list_fmap snd].
    rewrite Hv. cbn [default]. unfold Datatypes.id at 1 3. f_equal.
    rewrite (IH (delete k m)).
    + f_equal. apply list_fmap_ext. intros i k' Hk'.
      apply list_elem_of_lookup_2 in Hk'.
      rewrite lookup_delete_ne; [done|]. intros E. by rewrite E in Hk.
    + rewrite dom_delete_L, Hdom, list_to_set_cons.
      apply set_eq. intros y.
      rewrite elem_of_difference, elem_of_union, elem_of_singleton,
        elem_of_list_to_set.
      split; [by intros [[?|?] ?]|].
      intros Hy. split; [by right|]. intros E. by rewrite E in Hy.
Qed.

Lemma zero_counts_dom cell :
  cell ∈ dom zero_counts ↔ cell.1 ∈ STAGES ∧ cell.2 ∈ STATUSES.
Proof.
  unfold zero_counts. rewrite dom_list_to_map_L, elem_of_list_to_set.
  rewrite <- list_fmap_compose.
  rewrite (list_fmap_ext _ Datatypes.id) by done. rewrite list_fmap_id.
  destruct cell as [st sv]. rewrite !list_elem_of_In. apply in_prod_iff.
Qed.

Lemma zero_counts_lookup cell :
  cell ∈ dom zero_counts → zero_counts !! cell = Some 0.
Proof.
  intros Hin. apply elem_of_dom in Hin as [v Hv]. rewrite Hv. f_equal.
  unfold zero_counts in Hv. apply elem_of_list_to_map_2 in Hv.
  by apply list_elem_of_fmap in Hv as (? & [= _ ->] & _).
Qed.

(** The counting loop adds to a cell the number of nodes in progress
    that have the stage and the status of the cell. *)
Lemma count_nodes_lookup (st sv : string) (l : list StoryNode) :
  st ∈ STAGES → sv ∈ STATUSES →
  ∀ acc (a : nat),
    acc !! (st, sv) = Some a →
    foldl count_node acc l !! (st, sv)
    = Some (a + length
                  (filter (λ node,
                             ¬ (id node = "root"%string
                                ∨ Py.truthy (terminus node) = true)
                             ∧ stage node = st
                             ∧ status_or_ready node = sv) l)).
Proof.
  intros Hst Hsv. induction l as [|x l IH]; intros acc a Ha.
  - cbn. by rewrite Nat.add_0_r.
  - cbn [foldl]. rewrite filter_cons. unfold count_node at 2.
    destruct (String.eqb_spec (id x) "root") as [Hroot|Hroot].
    { rewrite decide_False by (intros [H _]; apply H; by left). by apply IH. }
    destruct (Py.truthy (terminus x)) eqn:Hterm.
    { rewrite decide_False by (intros [H _]; apply H; by right). by apply IH. }
    destruct (decide (stage x = st ∧ status_or_ready x = sv)) as [[E1 E2]|Hne].
    + rewrite decide_True by (split; [by intros [?|?]|done]).
      rewrite E1, E2. unfold Py.member.
      rewrite !bool_decide_eq_true_2 by done. cbn [andb length].
      rewrite (IH _ (a + 1)) by (by rewrite Ha, lookup_insert_eq).
      f_equal. lia.
    + rewrite decide_False by (intros [_ ?]; by apply Hne).
      destruct (Py.member (stage x) STAGES
                && Py.member (status_or_ready x) STATUSES); [|by apply IH].
      apply IH. rewrite lookup_insert_ne; [done|].
      intros [= E1 E2]. by apply Hne.
Qed.

Lemma count_node_counted acc (x : StoryNode) :
  in_progress x → stage x ∈ STAGES → status_or_ready x ∈ STATUSES →
  count_node acc x
  = <[(stage x, status_or_ready x)
      := default 0 (acc !! (stage x, status_or_ready x)) + 1]> acc.
Proof.
  intros [Hroot Hterm] Hst Hsv. unfold count_node, Py.member.
  rewrite Hterm, !bool_decide_eq_true_2 by done.
  by destruct (String.eqb_spec (id x) "root").
Qed.

Lemma count_node_skipped acc (x : StoryNode) :
  ¬ (in_progress x ∧ stage x ∈ STAGES ∧ status_or_ready x ∈ STATUSES) →
  count_node acc x = acc.
Proof.
  intros Hno. unfold count_node, Py.member.
  destruct (String.eqb_spec (id x) "root") as [Hroot|Hroot]; [done|].
  destruct (Py.truthy (terminus x)) eqn:Hterm; [done|].
  destruct (bool_decide_reflect (stage x ∈ STAGES)); [|done].
  destruct (bool_decide_reflect (status_or_ready x ∈ STATUSES)); [|done].
  destruct Hno. by repeat split.
Qed.

(** The counting loop keeps the cells and adds to the sum of their
    numbers the number of nodes in progress that fall into a cell. *)
Lemma count_nodes_sum (l : list StoryNode) :
  ∀ acc,
    dom acc = dom zero_counts →
    dom (foldl count_node acc l) = dom zero_counts
    ∧ sum_list (map_to_list (foldl count_node acc l)).*2
      = sum_list (map_to_list acc).*2
        + length (filter (λ node, in_progress node
                                  ∧ stage node ∈ STAGES
                                  ∧ status_or_ready node ∈ STATUSES) l).
Proof.
  induction l as [|x l IH]; intros acc Hdom.
  - cbn. by rewrite Nat.add_0_r.
  - cbn [foldl]. rewrite filter_cons.
    destruct (decide (in_progress x ∧ stage x ∈ STAGES
                      ∧ status_or_ready x ∈ STATUSES))
      as [(Hp & Hst & Hsv)|Hno];
      [|rewrite count_node_skipped by done; by apply IH].
    rewrite count_node_counted by done. cbn [length].
    assert (Hcell : (stage x, status_or_ready x) ∈ dom acc).
    { rewrite Hdom. by apply zero_counts_dom. }
    pose proof Hcell as [v Hv]%elem_of_dom. rewrite Hv.
    change (default 0 (Some v)) with v.
    destruct (IH (<[(stage x, status_or_ready x) := v + 1]> acc)) as [Hd Hs].
    { rewrite dom_insert_L, Hdom. rewrite Hdom in Hcell.
      apply set_eq. intros y. rewrite elem_of_union, elem_of_singleton.
      split; [by intros [->|?]|by right]. }
    split; [done|]. rewrite Hs.
    pose proof (sum_values_insert acc _ v (v + 1) Hv) as Hins. lia.
Qed.

Lemma heat_color_zero (n : nat) : _get_heat_color n = 0 ↔ n = 0.
Proof.
  unfold _get_heat_color. destruct n as [|n]; [done|]. cbn [Nat.eqb].
  repeat case_match; split; intros; lia.
Qed.

(** X26: the number in a cell of the heatmap is the number of entries
    of the list that a click on the cell opens; the click opens nothing
    exactly when the number is 0, which is exactly when the cell is
    white.  The entries are the nodes other than the root that have no
    terminus, the stage of the cell and, with "ready" for an empty
    status, the status of the cell. *)
Theorem heatmap_cell_counts_stories (nodes : gmap string StoryNode)
    (st sv : string) :
  st ∈ STAGES → sv ∈ STATUSES →
  ∃ n,
    cells (_populate_heatmap nodes) !! (st, sv) = Some n
    ∧ match _on_cell_clicked nodes st sv with
      | None => n = 0
      | Some (shown, ids) =>
          shown = n ∧ length ids = n ∧ 0 < n
          ∧ ∀ x, x ∈ ids
                 ↔ ∃ k nd, nodes !! k = Some nd ∧ id nd = x
                           ∧ in_progress nd ∧ stage nd = st
                           ∧ status_or_ready nd = sv
      end
    ∧ (_get_heat_color n = 0 ↔ _on_cell_clicked nodes st sv = None).
Proof.
  intros Hst Hsv. eexists. unfold _populate_heatmap. cbn [cells].
  split.
  { apply (count_nodes_lookup st sv _ Hst Hsv _ 0).
    apply zero_counts_lookup, zero_counts_dom. by split. }
  unfold _on_cell_clicked. cbn [Nat.add].
  set (l := filter _ (Py.ordered_items nodes).*2).
  assert (Hl : ∀ nd, nd ∈ l
                 ↔ (∃ k, nodes !! k = Some nd) ∧ in_progress nd
                   ∧ stage nd = st ∧ status_or_ready nd = sv).
  { intros nd. unfold l, in_progress.
    rewrite list_elem_of_filter, values_elem.
    destruct (Py.truthy (terminus nd)); split.
    - intros [[H _] _]. destruct H. by right.
    - by intros (_ & [_ ?] & _).
    - intros [[H ?] ?]. split; [done|]. split; [|done].
      split; [|done]. intros ?. apply H. by left.
    - intros (? & [? _] & ?). split; [|done]. split; [|done].
      by intros [?|?]. }
  clearbody l. destruct l as [|x l]; [done|].
  split; [|rewrite heat_color_zero; by split].
  split; [done|]. split; [by rewrite length_fmap, sort_by_perm|].
  split; [cbn; lia|].
  intros y. rewrite list_elem_of_fmap. split.
  - intros (nd & -> & Hnd). apply elem_of_sort_by, Hl in Hnd.
    destruct Hnd as ((k & Hk) & ?). exists k, nd. tauto.
  - intros (k & nd & Hk & <- & H). exists nd. split; [done|].
    apply elem_of_sort_by, Hl. eauto.
Qed.

Lemma heatmap_cell_counts_stories_witness :
  ∃ n, cells (_populate_heatmap two_blocked) !! ("concept"%string,
                                                 "blocked"%string)
       = Some n.
Proof.
  destruct (heatmap_cell_counts_stories two_blocked "concept" "blocked")
    as (n & Hn & _).
  - apply (bool_decide_unpack _). by vm_compute.
  - apply (bool_decide_unpack _). by vm_compute.
  - by exists n.
Defined.

(** X27: the grand total of the heatmap is the number of nodes other
    than the root that have no terminus, one of the five heatmap stages
    and one of the nine heatmap statuses; the row totals add up to it,
    and so do the column totals. *)
Theorem heatmap_totals (nodes : gmap string StoryNode) :
  let shown := _populate_heatmap nodes in
  grand_total shown
  = length (filter (λ node, in_progress node
                            ∧ stage node ∈ STAGES
                            ∧ status_or_ready node ∈ STATUSES)
              (Py.ordered_items nodes).*2)
  ∧ sum_list (row_totals shown).*2 = grand_total shown
  ∧ sum_list (col_totals shown).*2 = grand_total shown.
Proof.
  cbv zeta. unfold _populate_heatmap.
  cbn [grand_total row_totals col_totals].
  destruct (count_nodes_sum (Py.ordered_items nodes).*2 zero_counts eq_refl)
    as [Hdom Hsum].
  revert Hdom Hsum. generalize (foldl count_node zero_counts
                                  (Py.ordered_items nodes).*2).
  intros counts Hdom Hsum.
  assert (Hzero : sum_list (map_to_list zero_counts).*2 = 0).
  { rewrite (sum_values_keys (list_prod STAGES STATUSES)).
    - apply (sum_list_fmap_same 0).
      apply Forall_forall. intros cell Hcell.
      rewrite zero_counts_lookup; [done|].
      destruct cell. apply zero_counts_dom. apply list_elem_of_In in Hcell.
      apply in_prod_iff in Hcell. by rewrite !list_elem_of_In.
    - apply (bool_decide_unpack _). by vm_compute.
    - apply set_eq. intros [a b].
      rewrite zero_counts_dom, elem_of_list_to_set, !list_elem_of_In.
      symmetry. apply in_prod_iff. }
  split; [by rewrite Hsum, Hzero|].
  rewrite (sum_values_keys (list_prod STAGES STATUSES)
             ltac:(apply (bool_decide_unpack _); by vm_compute) counts).
  - rewrite <- !list_fmap_compose. cbn. lia.
  - rewrite Hdom. apply set_eq. intros [a b].
    rewrite zero_counts_dom, elem_of_list_to_set, !list_elem_of_In.
    symmetry. apply in_prod_iff.
Qed.

End Heatmap.
